(** * t.in.eoarchive: a shallow embedding of the import script

    The script [t.in.eoarchive.py] browses a mounted EO archive, imports
    the band files of every scene that matches the current region and the
    requested date range, and registers the imported rasters in a space
    time raster dataset.  This development embeds the functions of the
    script as Rocq functions over an explicit process state and an
    explicit description of the world the script runs in, and proves the
    properties of the script that its specification states.

    Python values are modelled as follows:
    - [str] as [string], [int] as [Z], [bool] as [bool];
    - [float] as IEEE 754 binary64, through [SpecFloat];
    - a [dict] as an association list in insertion order;
    - [datetime.date] and [datetime.datetime] as records of [Z] fields;
    - the module-level globals and [os.environ] as the record [state];
    - everything the script asks of its environment (directory listings,
      GRASS modules, the importer's output, the host's resources) as the
      record [world]. *)

From Stdlib Require Import String Ascii List ZArith Lia Bool SpecFloat RelationClasses.
Import ListNotations.
Open Scope string_scope.
Open Scope Z_scope.

(** ** Python strings *)

Module PyStr.

(** [s.startswith(p)] *)
Fixpoint startswith (s p : string) {struct p} : bool :=
  match p with
  | EmptyString => true
  | String c p' =>
      match s with
      | EmptyString => false
      | String d s' => Ascii.eqb c d && startswith s' p'
      end
  end.

(** [p in s] *)
Fixpoint contains (p s : string) : bool :=
  startswith s p ||
  match s with
  | EmptyString => false
  | String _ s' => contains p s'
  end.

(** [s.endswith(p)] *)
Fixpoint endswith (s p : string) : bool :=
  String.eqb s p ||
  match s with
  | EmptyString => false
  | String _ s' => endswith s' p
  end.

(** [c in s] for a single character *)
Fixpoint has_char (c : ascii) (s : string) : bool :=
  match s with
  | EmptyString => false
  | String d s' => Ascii.eqb c d || has_char c s'
  end.

(** [s.replace(a, b)] for single characters [a] and [b] *)
Fixpoint replace_char (a b : ascii) (s : string) : string :=
  match s with
  | EmptyString => EmptyString
  | String c s' => String (if Ascii.eqb c a then b else c) (replace_char a b s')
  end.

Fixpoint rev_onto (s acc : string) : string :=
  match s with
  | EmptyString => acc
  | String c s' => rev_onto s' (String c acc)
  end.

Definition rev (s : string) : string := rev_onto s EmptyString.

(** [s.split(sep)] for a non-empty separator: [skip] counts the characters
    of a separator just matched that are still to be passed over, [cur] is
    the piece being collected. *)
Fixpoint split_aux (sep : string) (skip : nat) (cur : string) (s : string)
  : list string :=
  match s with
  | EmptyString => [cur]
  | String c s' =>
      match skip with
      | S k => split_aux sep k cur s'
      | O =>
          if startswith s sep
          then cur :: split_aux sep (Nat.pred (String.length sep)) EmptyString s'
          else split_aux sep O (cur ++ String c EmptyString) s'
      end
  end.

Definition split (sep s : string) : list string := split_aux sep O EmptyString s.

(** [sep.join(l)] *)
Definition join (sep : string) (l : list string) : string := String.concat sep l.

(** [s.rfind(c)] for a single character, [-1] when absent *)
Fixpoint rfind_from (c : ascii) (s : string) (i : Z) (found : Z) : Z :=
  match s with
  | EmptyString => found
  | String d s' => rfind_from c s' (i + 1) (if Ascii.eqb c d then i else found)
  end.

Definition rfind (c : ascii) (s : string) : Z := rfind_from c s 0 (-1).

(** [s[a:b]] for [0 <= a] *)
Definition slice (s : string) (a b : Z) : string :=
  String.substring (Z.to_nat a) (Z.to_nat (b - a)) s.

Definition len (s : string) : Z := Z.of_nat (String.length s).

(** ASCII white space, as [str.strip] and [int] see it *)
Definition is_space (c : ascii) : bool :=
  match nat_of_ascii c with
  | 9%nat | 10%nat | 11%nat | 12%nat | 13%nat | 32%nat => true
  | _ => false
  end.

Fixpoint lstrip (s : string) : string :=
  match s with
  | EmptyString => EmptyString
  | String c s' => if is_space c then lstrip s' else s
  end.

Definition strip (s : string) : string := rev (lstrip (rev (lstrip s))).

End PyStr.

(** ** Bytes: [b.decode("utf-8")]

    A string of the model is a sequence of bytes; a text is held as its
    UTF-8 encoding.  Decoding checks that the bytes are well-formed UTF-8
    (no stray continuation byte, no overlong form, no surrogate, nothing
    above U+10FFFF) and leaves them as they are; a search for one
    well-formed text in another gives the same answer on the bytes as on
    the characters. *)

Module PyBytes.

Definition between (lo hi b : N) : bool := (lo <=? b)%N && (b <=? hi)%N.

(** [pending] continuation bytes are still due, the next of them within
    [lo..hi]. *)
Fixpoint valid_from (pending : nat) (lo hi : N) (s : string) : bool :=
  match s with
  | EmptyString => match pending with O => true | S _ => false end
  | String c s' =>
      let b := N_of_ascii c in
      match pending with
      | S k => if between lo hi b then valid_from k 128 191 s' else false
      | O =>
          if (b <? 128)%N then valid_from 0 128 191 s'
          else if between 194 223 b then valid_from 1 128 191 s'
          else if (b =? 224)%N then valid_from 2 160 191 s'
          else if between 225 236 b || between 238 239 b then valid_from 2 128 191 s'
          else if (b =? 237)%N then valid_from 2 128 159 s'
          else if (b =? 240)%N then valid_from 3 144 191 s'
          else if between 241 243 b then valid_from 3 128 191 s'
          else if (b =? 244)%N then valid_from 3 128 143 s'
          else false
      end
  end.

(** [b.decode("utf-8")] does not raise. *)
Definition decodable (b : string) : bool := valid_from 0 128 191 b.

End PyBytes.

(** ** Python integers: [int(s)] and [str(n)] *)

Module PyInt.

Definition digit_val (c : ascii) : option Z :=
  let n := nat_of_ascii c in
  if (48 <=? n)%nat && (n <=? 57)%nat then Some (Z.of_nat (n - 48)) else None.

Definition is_digit (c : ascii) : bool :=
  match digit_val c with Some _ => true | None => false end.

(** The digits of an integer literal: decimal digits, with single
    underscores allowed between digits. *)
Fixpoint int_digits (s : string) (acc : Z) (after_digit : bool) : option Z :=
  match s with
  | EmptyString => if after_digit then Some acc else None
  | String c s' =>
      match digit_val c with
      | Some d => int_digits s' (10 * acc + d) true
      | None =>
          if Ascii.eqb c "_" && after_digit
          then match s' with
               | String c' _ => if is_digit c' then int_digits s' acc false else None
               | EmptyString => None
               end
          else None
      end
  end.

(** [int(s)] on ASCII text: surrounding white space is dropped, one sign
    is allowed; [None] stands for [ValueError].  Python also reads the
    decimal digits and the white space of the rest of Unicode; on a text
    with a byte outside ASCII the model answers [None] all the same, so a
    [Some] is Python's value, and a [None] is Python's [ValueError] only
    for ASCII text. *)
Definition int (s : string) : option Z :=
  match PyStr.strip s with
  | String "+" r => int_digits r 0 false
  | String "-" r => option_map Z.opp (int_digits r 0 false)
  | t => int_digits t 0 false
  end.

Definition digit_char (n : nat) : ascii :=
  nth n ["0"; "1"; "2"; "3"; "4"; "5"; "6"; "7"; "8"; "9"]%char "0"%char.

(** The decimal digits of [n], least significant digit last; [fuel] bounds
    the number of digits. *)
Fixpoint digits_fuel (fuel : nat) (n : Z) (acc : string) : string :=
  match fuel with
  | O => acc
  | S k =>
      let acc' := String (digit_char (Z.to_nat (n mod 10))) acc in
      if n <? 10 then acc' else digits_fuel k (n / 10) acc'
  end.

Definition digits (n : Z) : string :=
  digits_fuel (S (Z.to_nat (Z.log2 n))) n EmptyString.

(** [str(n)] *)
Definition str (n : Z) : string :=
  if n <? 0 then String "-" (digits (- n)) else digits n.

(** [n] written with at least [w] digits, padded with zeros on the left
    (the ["%02d"] of [strftime]); [n] is not negative. *)
Fixpoint zeros (k : nat) : string :=
  match k with
  | O => EmptyString
  | S k' => String "0" (zeros k')
  end.

Definition zfill (w : nat) (n : Z) : string :=
  let d := digits n in
  zeros (w - String.length d) ++ d.

End PyInt.

(** ** [os.path] on POSIX *)

Module OsPath.

(** One step of [os.path.join]: a component that starts with a slash
    replaces what was joined so far. *)
Definition join2 (path b : string) : string :=
  if PyStr.startswith b "/" then b
  else if String.eqb path "" || PyStr.endswith path "/" then path ++ b
  else path ++ "/" ++ b.

(** [os.path.join(a, *p)] *)
Definition join (a : string) (p : list string) : string := fold_left join2 p a.

(** The loop of [genericpath._splitext] that passes over leading dots of
    the file name: is there a character other than a dot in
    [p[i:dot]]? *)
Fixpoint non_dot_before (fuel : nat) (p : string) (i dot : Z) : bool :=
  match fuel with
  | O => false
  | S k =>
      if i <? dot
      then if negb (String.eqb (PyStr.slice p i (i + 1)) ".") then true
           else non_dot_before k p (i + 1) dot
      else false
  end.

(** [os.path.splitext(p)] *)
Definition splitext (p : string) : string * string :=
  let sepIndex := PyStr.rfind "/" p in
  let dotIndex := PyStr.rfind "." p in
  if (sepIndex <? dotIndex) &&
     non_dot_before (String.length p) p (sepIndex + 1) dotIndex
  then (PyStr.slice p 0 dotIndex, PyStr.slice p dotIndex (PyStr.len p))
  else (p, EmptyString).

End OsPath.

(** ** [datetime.date] and [datetime.datetime] *)

Record date := mkdate { year : Z; month : Z; day : Z }.

Record datetime := mkdatetime {
  dt_date : date; hour : Z; minute : Z; second : Z
}.

Module PyDate.

Definition is_leap (y : Z) : bool :=
  (y mod 4 =? 0) && (negb (y mod 100 =? 0) || (y mod 400 =? 0)).

Definition days_in_month (y m : Z) : Z :=
  match m with
  | 1 | 3 | 5 | 7 | 8 | 10 | 12 => 31
  | 4 | 6 | 9 | 11 => 30
  | 2 => if is_leap y then 29 else 28
  | _ => 0
  end.

Definition valid (y m d : Z) : bool :=
  (1 <=? y) && (y <=? 9999) && (1 <=? m) && (m <=? 12) &&
  (1 <=? d) && (d <=? days_in_month y m).

(** [date(y, m, d)]; [None] stands for the [ValueError] of a field out of
    range. *)
Definition new (y m d : Z) : option date :=
  if valid y m d then Some (mkdate y m d) else None.

(** [a < b] *)
Definition lt (a b : date) : bool :=
  (year a <? year b) ||
  ((year a =? year b) &&
   ((month a <? month b) ||
    ((month a =? month b) && (day a <? day b)))).

(** [a >= b] *)
Definition ge (a b : date) : bool := negb (lt a b).

(** [d.strftime("%Y-%m-%d")].  The year is written with four digits; C
    libraries differ on years below 1000. *)
Definition strftime_ymd (d : date) : string :=
  PyInt.zfill 4 (year d) ++ "-" ++ PyInt.zfill 2 (month d) ++ "-" ++
  PyInt.zfill 2 (day d).

(** [t.strftime("%Y-%m-%d %H:%M:%S")] *)
Definition strftime_ymd_hms (t : datetime) : string :=
  strftime_ymd (dt_date t) ++ " " ++ PyInt.zfill 2 (hour t) ++ ":" ++
  PyInt.zfill 2 (minute t) ++ ":" ++ PyInt.zfill 2 (second t).

(** The regular expression that [_strptime] builds for a format: literal
    characters and one group per directive, each group a list of
    alternatives tried in order, each alternative a sequence of character
    classes. *)
Definition cclass := ascii -> bool.

Inductive item :=
| Lit (c : ascii)
| Grp (alts : list (list cclass)).

Definition range (lo hi : ascii) : cclass :=
  fun c => (nat_of_ascii lo <=? nat_of_ascii c)%nat &&
           (nat_of_ascii c <=? nat_of_ascii hi)%nat.

Definition one (a : ascii) : cclass := fun c => Ascii.eqb a c.

Definition digit : cclass := range "0" "9".

Fixpoint match_seq (cs : list cclass) (s : string) : option (string * string) :=
  match cs with
  | [] => Some (EmptyString, s)
  | k :: cs' =>
      match s with
      | EmptyString => None
      | String c s' =>
          if k c
          then match match_seq cs' s' with
               | Some (m, rest) => Some (String c m, rest)
               | None => None
               end
          else None
      end
  end.

(** Backtracking match of the items at the start of [s]: the captured
    groups and what is left of [s]. *)
Fixpoint match_items (its : list item) (s : string)
  : option (list string * string) :=
  match its with
  | [] => Some ([], s)
  | Lit c :: r =>
      match s with
      | String d s' => if Ascii.eqb c d then match_items r s' else None
      | EmptyString => None
      end
  | Grp alts :: r =>
      (fix try (l : list (list cclass)) : option (list string * string) :=
         match l with
         | [] => None
         | a :: more =>
             match match_seq a s with
             | Some (m, rest) =>
                 match match_items r rest with
                 | Some (caps, fin) => Some (m :: caps, fin)
                 | None => try more
                 end
             | None => try more
             end
         end) alts
  end.

Definition re_Y : item := Grp [[digit; digit; digit; digit]].
Definition re_m : item :=
  Grp [[one "1"; range "0" "2"]; [one "0"; range "1" "9"]; [range "1" "9"]].
Definition re_d : item :=
  Grp [[one "3"; range "0" "1"]; [range "1" "2"; digit];
       [one "0"; range "1" "9"]; [range "1" "9"]; [one " "; range "1" "9"]].
Definition re_H : item :=
  Grp [[one "2"; range "0" "3"]; [range "0" "1"; digit]; [digit]].
Definition re_M : item := Grp [[range "0" "5"; digit]; [digit]].
Definition re_S : item :=
  Grp [[one "6"; range "0" "1"]; [range "0" "5"; digit]; [digit]].

(** [datetime.strptime(s, "%Y%m%d-%H%M%S")]; [None] stands for
    [ValueError] (no match, unconverted data, or a field out of range). *)
Definition strptime_compact (s : string) : option datetime :=
  match match_items [re_Y; re_m; re_d; Lit "-"; re_H; re_M; re_S] s with
  | Some ([gY; gm; gd; gH; gM; gS], EmptyString) =>
      match PyInt.int gY, PyInt.int gm, PyInt.int gd,
            PyInt.int gH, PyInt.int gM, PyInt.int gS with
      | Some vY, Some vm, Some vd, Some vH, Some vM, Some vS =>
          match new vY vm vd with
          | Some dd =>
              if (vH <? 24) && (vM <? 60) && (vS <? 60)
              then Some (mkdatetime dd vH vM vS) else None
          | None => None
          end
      | _, _, _, _, _, _ => None
      end
  | _ => None
  end.

End PyDate.

(** ** Python floats (IEEE 754 binary64) *)

Module PyFloat.

Definition prec : Z := 53.
Definition emax : Z := 1024.

(** [float(n)], rounded to nearest even *)
Definition of_int (n : Z) : spec_float := binary_normalize prec emax n 0 false.

Definition mul : spec_float -> spec_float -> spec_float := SFmul prec emax.
Definition div : spec_float -> spec_float -> spec_float := SFdiv prec emax.

(** [round(x)] to an integer, ties to even; [None] stands for the
    exception Python raises on an infinity or a NaN. *)
Definition round (x : spec_float) : option Z :=
  match x with
  | S754_zero _ => Some 0
  | S754_finite s m e =>
      let mag :=
        if 0 <=? e then Z.pos m * 2 ^ e
        else
          let d := 2 ^ (- e) in
          let q := Z.pos m / d in
          let r := Z.pos m mod d in
          if 2 * r <? d then q
          else if d <? 2 * r then q + 1
          else if Z.even q then q else q + 1 in
      Some (if s then - mag else mag)
  | _ => None
  end.

End PyFloat.

Module PyFloatOps.

(** [int(x)]: truncation towards zero *)
Definition trunc (x : spec_float) : option Z :=
  match x with
  | S754_zero _ => Some 0
  | S754_finite s m e =>
      let mag := if 0 <=? e then Z.pos m * 2 ^ e else Z.pos m / 2 ^ (- e) in
      Some (if s then - mag else mag)
  | _ => None
  end.

(** [a / b] on two integers, for operands that binary64 holds exactly
    (below 2^53 in magnitude), as memory sizes and core counts are. *)
Definition truediv (a b : Z) : spec_float :=
  PyFloat.div (PyFloat.of_int a) (PyFloat.of_int b).

End PyFloatOps.

(** ** Dictionaries in insertion order *)

Section Dict.
Context {V : Type}.

Fixpoint dict_get (k : string) (d : list (string * V)) : option V :=
  match d with
  | [] => None
  | (k', v) :: d' => if String.eqb k k' then Some v else dict_get k d'
  end.

(** [d[k] = v]: an existing key keeps its place. *)
Fixpoint dict_set (k : string) (v : V) (d : list (string * V))
  : list (string * V) :=
  match d with
  | [] => [(k, v)]
  | (k', v') :: d' =>
      if String.eqb k k' then (k, v) :: d' else (k', v') :: dict_set k v d'
  end.

Definition dict_has (k : string) (d : list (string * V)) : bool :=
  match dict_get k d with Some _ => true | None => false end.
End Dict.

(** [x in l] on a list of strings *)
Definition str_in_list (x : string) (l : list string) : bool :=
  existsb (String.eqb x) l.

(** The newline character *)
Definition nl : string := String (ascii_of_nat 10) EmptyString.

(** ** The process and its world *)

Inductive exn :=
| ValueError (what : string)
| KeyError (key : string)
| IndexError
| TypeError
| OSError (path : string)
| CalledModuleError (prog : string)
| UnboundLocalError (var : string)
| ZeroDivisionError
| OverflowError
| UnicodeDecodeError.

(** How a piece of the script ends: with a value, through [grass.fatal]
    (the message is printed and the process exits with status 1), or with
    an uncaught exception. *)
Inductive result (A : Type) :=
| Ok (a : A)
| Fatal (msg : string)
| Raise (e : exn).

Arguments Ok {A} a.
Arguments Fatal {A} msg.
Arguments Raise {A} e.

(** What one import task does in its worker process.  A GRASS module and
    a shell command are recorded with the [GISRC] they run under. *)
Inductive task_event :=
| TkMessage (msg : string)
| TkPopen (gisrc cmd : string)
| TkWarning (msg : string)
| TkModule (gisrc prog : string) (args : list (string * string)).

(** What the script does to, or asks of, its environment.  The tasks of a
    worker pool run side by side: the pool is recorded as one event that
    holds the events of each task, in the order of the task list, and
    says nothing on how they interleave. *)
Inductive event :=
| EvMessage (msg : string)
| EvVerbose (msg : string)
| EvWarning (msg : string)
| EvModule (gisrc prog : string) (args : list (string * string))
| EvListdir (path : string)
| EvToday
| EvCpuCount
| EvVirtualMemory
| EvSwapMemory
| EvWrite (path content : string)
| EvUnlink (path : string)
| EvRmdir (path : string)
| EvPool (processes : Z) (runs : list (list task_event)).

Record gisenv_t := {
  LOCATION_NAME : string;
  MAPSET : string;
  env_GISDBASE : string
}.

(** The world: the answers the environment gives. *)
Record world := {
  w_getpid : Z;
  w_today : date;
  (** the n-th name [grass.tempfile()] hands out *)
  w_tempfile : nat -> string;
  (** [grass.gisenv()] under a [GISRC] *)
  w_gisenv : string -> gisenv_t;
  (** a GRASS module run under a [GISRC]: [None] when it fails, otherwise
      its output parsed as key and value pairs (a key that comes without
      a value carries the empty string) *)
  w_module : string -> string -> list (string * string)
             -> option (list (string * string));
  (** [grass.find_file(name, element)['file']] under a [GISRC] *)
  w_find_file : string -> string -> string -> bool;
  (** [os.listdir]: [None] when the path is not a readable directory *)
  w_listdir : string -> option (list string);
  w_cpu_count : Z;
  w_mem_available : Z;
  w_swap_free : Z;
  (** standard output and standard error of a shell command, as bytes *)
  w_popen : string -> string -> string * string
}.

(** The option values the GRASS parser hands to the script. *)
Record options_t := {
  opt_start : string;
  opt_end : string;
  opt_bands : string;
  opt_memory : string;
  opt_wfs_mgrs : string;
  opt_wfs_name : string;
  opt_output : string;
  opt_collection : string;
  opt_archive : string;
  opt_mountpoint : string;
  opt_nprocs : string
}.

(** The module-level globals, the [GISRC] entry of [os.environ], and the
    events so far. *)
Record state := {
  GISRC : string;
  rm_vectors : list string;
  rm_rasters : list string;
  TMPLOC : option string;
  SRCGISRC : option string;
  TGTGISRC : option string;
  GISDBASE : option string;
  tmp_count : nat;
  trace : list event
}.

Definition initial_state (gisrc : string) : state :=
  {| GISRC := gisrc; rm_vectors := []; rm_rasters := [];
     TMPLOC := None; SRCGISRC := None; TGTGISRC := None; GISDBASE := None;
     tmp_count := O; trace := [] |}.

Definition set_GISRC (v : string) (s : state) : state :=
  {| GISRC := v; rm_vectors := rm_vectors s; rm_rasters := rm_rasters s;
     TMPLOC := TMPLOC s; SRCGISRC := SRCGISRC s; TGTGISRC := TGTGISRC s;
     GISDBASE := GISDBASE s; tmp_count := tmp_count s; trace := trace s |}.

Definition set_rm_vectors (v : list string) (s : state) : state :=
  {| GISRC := GISRC s; rm_vectors := v; rm_rasters := rm_rasters s;
     TMPLOC := TMPLOC s; SRCGISRC := SRCGISRC s; TGTGISRC := TGTGISRC s;
     GISDBASE := GISDBASE s; tmp_count := tmp_count s; trace := trace s |}.

Definition set_rm_rasters (v : list string) (s : state) : state :=
  {| GISRC := GISRC s; rm_vectors := rm_vectors s; rm_rasters := v;
     TMPLOC := TMPLOC s; SRCGISRC := SRCGISRC s; TGTGISRC := TGTGISRC s;
     GISDBASE := GISDBASE s; tmp_count := tmp_count s; trace := trace s |}.

Definition set_TMPLOC (v : option string) (s : state) : state :=
  {| GISRC := GISRC s; rm_vectors := rm_vectors s; rm_rasters := rm_rasters s;
     TMPLOC := v; SRCGISRC := SRCGISRC s; TGTGISRC := TGTGISRC s;
     GISDBASE := GISDBASE s; tmp_count := tmp_count s; trace := trace s |}.

Definition set_SRCGISRC (v : option string) (s : state) : state :=
  {| GISRC := GISRC s; rm_vectors := rm_vectors s; rm_rasters := rm_rasters s;
     TMPLOC := TMPLOC s; SRCGISRC := v; TGTGISRC := TGTGISRC s;
     GISDBASE := GISDBASE s; tmp_count := tmp_count s; trace := trace s |}.

Definition set_TGTGISRC (v : option string) (s : state) : state :=
  {| GISRC := GISRC s; rm_vectors := rm_vectors s; rm_rasters := rm_rasters s;
     TMPLOC := TMPLOC s; SRCGISRC := SRCGISRC s; TGTGISRC := v;
     GISDBASE := GISDBASE s; tmp_count := tmp_count s; trace := trace s |}.

Definition set_GISDBASE (v : option string) (s : state) : state :=
  {| GISRC := GISRC s; rm_vectors := rm_vectors s; rm_rasters := rm_rasters s;
     TMPLOC := TMPLOC s; SRCGISRC := SRCGISRC s; TGTGISRC := TGTGISRC s;
     GISDBASE := v; tmp_count := tmp_count s; trace := trace s |}.

Definition set_tmp_count (v : nat) (s : state) : state :=
  {| GISRC := GISRC s; rm_vectors := rm_vectors s; rm_rasters := rm_rasters s;
     TMPLOC := TMPLOC s; SRCGISRC := SRCGISRC s; TGTGISRC := TGTGISRC s;
     GISDBASE := GISDBASE s; tmp_count := v; trace := trace s |}.

Definition add_event (e : event) (s : state) : state :=
  {| GISRC := GISRC s; rm_vectors := rm_vectors s; rm_rasters := rm_rasters s;
     TMPLOC := TMPLOC s; SRCGISRC := SRCGISRC s; TGTGISRC := TGTGISRC s;
     GISDBASE := GISDBASE s; tmp_count := tmp_count s;
     trace := trace s ++ [e] |}.

(** ** The monad of the script: state, [grass.fatal] and exceptions *)

Definition M (A : Type) : Type := state -> result A * state.

Definition ret {A : Type} (a : A) : M A := fun s => (Ok a, s).

Definition bind {A B : Type} (c : M A) (k : A -> M B) : M B :=
  fun s =>
    match c s with
    | (Ok a, s') => k a s'
    | (Fatal msg, s') => (Fatal msg, s')
    | (Raise e, s') => (Raise e, s')
    end.

Definition fatal {A : Type} (msg : string) : M A := fun s => (Fatal msg, s).
Definition raise {A : Type} (e : exn) : M A := fun s => (Raise e, s).
Definition gets {A : Type} (f : state -> A) : M A := fun s => (Ok (f s), s).
Definition modify (f : state -> state) : M unit := fun s => (Ok tt, f s).
Definition emit (e : event) : M unit := modify (add_event e).

Definition of_option {A : Type} (o : option A) (e : exn) : M A :=
  match o with
  | Some a => ret a
  | None => raise e
  end.

Declare Scope script_scope.
Delimit Scope script_scope with script.
Notation "x <- c ;; k" := (bind c (fun x => k))
  (at level 61, c at next level, right associativity) : script_scope.
Notation "' pat <- c ;; k" := (bind c (fun x => match x with pat => k end))
  (at level 61, pat pattern, c at next level, right associativity) : script_scope.
Notation "c ;; k" := (bind c (fun _ => k))
  (at level 61, right associativity) : script_scope.
Open Scope script_scope.

(** [for x in l: body(x)] *)
Fixpoint for_each {A : Type} (l : list A) (body : A -> M unit) : M unit :=
  match l with
  | [] => ret tt
  | x :: l' => body x ;; for_each l' body
  end.

(** [for x in l: acc = body(acc, x)] *)
Fixpoint for_fold {A B : Type} (l : list A) (acc : B) (body : B -> A -> M B)
  : M B :=
  match l with
  | [] => ret acc
  | x :: l' => acc' <- body acc x ;; for_fold l' acc' body
  end.

(** [[f(x) for x in l]] where [f] may raise *)
Fixpoint map_opt {A B : Type} (f : A -> option B) (l : list A) : option (list B) :=
  match l with
  | [] => Some []
  | x :: l' =>
      match f x with
      | Some y =>
          match map_opt f l' with
          | Some ys => Some (y :: ys)
          | None => None
          end
      | None => None
      end
  end.

(** Truth value of a global that holds [None] or a string *)
Definition truthy (o : option string) : bool :=
  match o with
  | Some s => negb (String.eqb s "")
  | None => false
  end.

(** [str(x)] of such a global *)
Definition str_of_global (o : option string) : string :=
  match o with
  | Some s => s
  | None => "None"
  end.

(** ** The script *)

Record collection_params_t := {
  basepath : string;
  file_format : string;
  bands_filesuffixes : list (string * string);
  CLM_dir : string;
  tile_system : string
}.

(** The parameters of the one supported collection *)
Definition maja : collection_params_t :=
  {| basepath := OsPath.join "Sentinel-2" ["MSI"; "L2A-MAJA"];
     file_format := ".tif";
     bands_filesuffixes :=
       [("S2_B2", "FRE_B2"); ("S2_B3", "FRE_B3"); ("S2_B4", "FRE_B4");
        ("S2_B5", "FRE_B5"); ("S2_B6", "FRE_B6"); ("S2_B7", "FRE_B7");
        ("S2_B8", "FRE_B8"); ("S2_B8A", "FRE_B8A"); ("S2_B11", "FRE_B11");
        ("S2_B12", "FRE_B12"); ("S2_CLM", "CLM_R1")];
     CLM_dir := "MASKS";
     tile_system := "MGRS" |}.

Definition eolab_collection_params : list (string * collection_params_t) :=
  [("S2-L2A-MAJA", maja)].

(** An entry of [scenes_to_import]; [sd_datetime] is [None] while the key
    ["datetime"] is not set. *)
Record scene_dir_t := {
  sd_scene : string;
  sd_path : string;
  sd_band_paths : list (string * string);
  sd_datetime : option datetime
}.

(** The argument of [import_raster] *)
Record paramdict_t := {
  p_input : string;
  p_name : string;
  p_memory : Z;
  p_semantic_label : string;
  p_datetime : datetime
}.

(** The value of [import_raster] *)
Record import_dict_t := {
  i_name : string;
  i_datetime : datetime;
  i_map_empty : bool;
  i_band : string
}.

Section Script.

Variable w : world.
Variable options : options_t.

(** [grass.run_command] and [grass.parse_command]: the module runs under
    the current [GISRC]; a failing module raises. *)
Definition parse_command (prog : string) (args : list (string * string))
  : M (list (string * string)) :=
  g <- gets GISRC ;;
  emit (EvModule g prog args) ;;
  of_option (w_module w g prog args) (CalledModuleError prog).

Definition run_command (prog : string) (args : list (string * string)) : M unit :=
  parse_command prog args ;; ret tt.

(** [grass.tempfile()] *)
Definition tempfile : M string :=
  n <- gets tmp_count ;;
  modify (set_tmp_count (S n)) ;;
  ret (w_tempfile w n).

(** [os.listdir(path)] *)
Definition listdir (path : string) : M (list string) :=
  emit (EvListdir path) ;;
  of_option (w_listdir w path) (OSError path).

Definition cleanup : M unit :=
  rmv <- gets rm_vectors ;;
  for_each rmv (fun v =>
    g <- gets GISRC ;;
    if w_find_file w g "vector" v
    then run_command "g.remove"
           [("type", "vector"); ("name", v); ("flags", "f"); ("quiet", "True")]
    else ret tt) ;;
  rmr <- gets rm_rasters ;;
  for_each rmr (fun r =>
    g <- gets GISRC ;;
    if w_find_file w g "raster" r
    then run_command "g.remove"
           [("type", "raster"); ("name", r); ("flags", "f"); ("quiet", "True")]
    else ret tt) ;;
  tgt <- gets TGTGISRC ;;
  (if truthy tgt then modify (set_GISRC (str_of_global tgt)) else ret tt) ;;
  tmploc <- gets TMPLOC ;;
  (if truthy tmploc
   then gdb <- gets GISDBASE ;;
        base <- of_option gdb TypeError ;;
        emit (EvRmdir (OsPath.join base [str_of_global tmploc]))
   else ret tt) ;;
  src <- gets SRCGISRC ;;
  (if truthy src then emit (EvUnlink (str_of_global src)) else ret tt).

(** The EPSG code that [g.proj -g] reports *)
Definition reported_epsg (proj : list (string * string)) : M string :=
  if dict_has "epsg" proj
  then of_option (dict_get "epsg" proj) (KeyError "epsg")
  else srid <- of_option (dict_get "srid" proj) (KeyError "srid") ;;
       of_option (nth_error (PyStr.split "EPSG:" srid) 1) IndexError.

Definition createTMPlocation (epsg : Z) : M unit :=
  src <- tempfile ;;
  modify (set_SRCGISRC (Some src)) ;;
  let tmploc := "temp_import_location_" ++ PyInt.str (w_getpid w) in
  modify (set_TMPLOC (Some tmploc)) ;;
  gdb <- gets GISDBASE ;;
  emit (EvWrite src
          ("MAPSET: PERMANENT" ++ nl ++
           "GISDBASE: " ++ str_of_global gdb ++ nl ++
           "LOCATION_NAME: " ++ tmploc ++ nl ++
           "GUI: text" ++ nl)) ;;
  proj_test <- parse_command "g.proj" [("flags", "g")] ;;
  let epsg_arg :=
    if dict_has "epsg" proj_test then ("epsg", PyInt.str epsg)
    else ("srid", "EPSG:" ++ PyInt.str epsg) in
  emit (EvVerbose ("Creating temporary location with EPSG:" ++
                   PyInt.str epsg ++ "...")) ;;
  run_command "g.proj"
    [("flags", "c"); ("location", tmploc); ("quiet", "True"); epsg_arg] ;;
  modify (set_GISRC src) ;;
  proj <- parse_command "g.proj" [("flags", "g")] ;;
  new_epsg <- reported_epsg proj ;;
  if negb (String.eqb new_epsg (PyInt.str epsg))
  then fatal "Creation of temporary location failed!"
  else ret tt.

Definition get_actual_location : M (string * string) :=
  g <- gets GISRC ;;
  let grassenv := w_gisenv w g in
  let tgtloc := LOCATION_NAME grassenv in
  let tgtmapset := MAPSET grassenv in
  modify (set_GISDBASE (Some (env_GISDBASE grassenv))) ;;
  g' <- gets GISRC ;;
  modify (set_TGTGISRC (Some g')) ;;
  ret (tgtloc, tgtmapset).

Definition get_utmcells : M (list string) :=
  let tmpregionname := "tmp_region_utmgrid_" ++ PyInt.str (w_getpid w) in
  run_command "v.in.region" [("output", tmpregionname); ("quiet", "True")] ;;
  rv <- gets rm_vectors ;;
  modify (set_rm_vectors (rv ++ [tmpregionname])) ;;
  ' (tgtloc, tgtmapset) <- get_actual_location ;;
  let epsg := 4326 in
  createTMPlocation epsg ;;
  run_command "v.proj"
    [("location", tgtloc); ("mapset", tgtmapset); ("input", tmpregionname);
     ("output", tmpregionname); ("quiet", "True")] ;;
  run_command "g.region" [("vector", tmpregionname); ("quiet", "True")] ;;
  run_command "v.in.wfs"
    [("url", opt_wfs_mgrs options); ("output", "tmp_s2tiles_area");
     ("srs", PyInt.str epsg); ("name", opt_wfs_name options);
     ("flags", "r"); ("quiet", "True")] ;;
  sel <- parse_command "v.db.select"
           [("map", "tmp_s2tiles_area"); ("column", "name"); ("flags", "c")] ;;
  let utm_tiles := map fst sel in
  tgt <- gets TGTGISRC ;;
  modify (set_GISRC (str_of_global tgt)) ;;
  ret utm_tiles.

(** The text of the exception that [date(y, m, d)] raises *)
Definition date_error (y m d : Z) : string :=
  if negb ((1 <=? y) && (y <=? 9999))
  then "year " ++ PyInt.str y ++ " is out of range"
  else if negb ((1 <=? m) && (m <=? 12)) then "month must be in 1..12"
  else "day is out of range for month".

(** [date(l[0], l[1], l[2])] inside the [try] of [check_start_end]: any
    exception ends in [grass.fatal]. *)
Definition date_of_list (l : list Z) : M date :=
  let bad e := fatal ("Start/End date is not defined in format YYYY-MM-DD: " ++ e) in
  match l with
  | y :: m :: d :: _ =>
      match PyDate.new y m d with
      | Some dd => ret dd
      | None => bad (date_error y m d)
      end
  | _ => bad "list index out of range"
  end.

(** [[int(x) for x in s.split('-')]] *)
Definition int_list (s : string) : M (list Z) :=
  of_option (map_opt PyInt.int (PyStr.split "-" s)) (ValueError s).

Definition maja_date : date := mkdate 2015 7 1.

Definition check_start_end (start end_ : string) : M (date * date) :=
  end_ <- (if String.eqb end_ "today"
           then emit EvToday ;; ret (PyDate.strftime_ymd (w_today w))
           else ret end_) ;;
  start_list <- int_list start ;;
  end_list <- int_list end_ ;;
  start_date <- date_of_list start_list ;;
  end_date <- date_of_list end_list ;;
  if PyDate.lt end_date maja_date
  then fatal ("End is before 2015-07-01, please select a later " ++
              "end date, as no data is available otherwise")
  else if PyDate.lt end_date start_date
  then fatal "End date is before start date"
  else ret (start_date, end_date).

Definition is_finite (x : spec_float) : bool :=
  match x with
  | S754_zero _ | S754_finite _ _ _ => true
  | _ => false
  end.

Definition freeRAM (unit_ : string) (percent : Z) : M Z :=
  emit EvVirtualMemory ;;
  let mem_available := w_mem_available w in
  emit EvSwapMemory ;;
  let swap_free := w_swap_free w in
  let total := PyFloat.of_int (mem_available + swap_free) in
  (if is_finite total then ret tt else raise OverflowError) ;;
  let memory_GB := PyFloat.div total (PyFloat.of_int (1024 ^ 3)) in
  let memory_MB := PyFloat.div total (PyFloat.of_int (1024 ^ 2)) in
  if String.eqb unit_ "MB"
  then
    let memory_MB_percent :=
      PyFloat.div (PyFloat.mul memory_MB (PyFloat.of_int percent))
                  (PyFloat.of_int 100) in
    of_option (PyFloat.round memory_MB_percent) OverflowError
  else if String.eqb unit_ "GB"
  then
    let memory_GB_percent :=
      PyFloat.div (PyFloat.mul memory_GB (PyFloat.of_int percent))
                  (PyFloat.of_int 100) in
    of_option (PyFloat.round memory_GB_percent) OverflowError
  else fatal ("Memory unit <" ++ unit_ ++ "> not supported").

Definition test_nprocs_memory : M (Z * Z) :=
  nprocs <- of_option (PyInt.int (opt_nprocs options))
                      (ValueError (opt_nprocs options)) ;;
  nprocs_real <-
    (if nprocs =? -2
     then emit EvCpuCount ;; ret (w_cpu_count w - 1)
     else
       emit EvCpuCount ;;
       let nprocs_real := w_cpu_count w in
       (if nprocs_real <? nprocs
        then emit (EvWarning ("Using " ++ PyInt.str nprocs ++
                              " parallel processes " ++ "but only " ++
                              PyInt.str nprocs_real ++ " CPUs available."))
        else ret tt) ;;
       ret nprocs_real) ;;
  memory <- of_option (PyInt.int (opt_memory options))
                      (ValueError (opt_memory options)) ;;
  free_ram <- freeRAM "MB" 100 ;;
  if free_ram <? memory
  then
    emit (EvWarning ("Using " ++ PyInt.str memory ++ " MB but only " ++
                     PyInt.str free_ram ++ " MB RAM available.")) ;;
    emit (EvWarning ("Set used memory to " ++ PyInt.str free_ram ++ " MB.")) ;;
    let used_ram := free_ram in
    ret (nprocs_real, used_ram)
  else
    let used_ram := memory in
    ret (nprocs_real, used_ram).

(** The loop over the files of a scene directory for one band: the last
    file whose name contains [file_ending] is kept. *)
Definition pick_band (file_ending bandname : string) (files : list string)
  (band_paths : list (string * string)) : list (string * string) :=
  fold_left (fun bp file =>
               if PyStr.contains file_ending file
               then dict_set bandname file bp else bp)
            files band_paths.

(** The same loop over the files of the cloud mask directory: the path is
    recorded relative to the scene directory. *)
Definition pick_mask (file_ending bandname clm_dir : string) (files : list string)
  (band_paths : list (string * string)) : list (string * string) :=
  fold_left (fun bp file =>
               if PyStr.contains file_ending file
               then dict_set bandname (OsPath.join clm_dir [file]) bp else bp)
            files band_paths.

(** [l[1:3]] *)
Definition slice_1_3 {A : Type} (l : list A) : list A := firstn 2 (skipn 1 l).

(** The body of the loop over the requested bands of a scene. *)
Definition browse_band (file_format clm_dir scene_path : string)
  (bands_in_scenedir : list string) (band_paths : list (string * string))
  (entry : string * string) : M (list (string * string)) :=
  let '(bandsuffix, bandname) := entry in
  let file_ending := bandsuffix ++ file_format in
  if negb (String.eqb bandname "S2_CLM")
  then ret (pick_band file_ending bandname bands_in_scenedir band_paths)
  else
    masks <- listdir (OsPath.join scene_path [clm_dir]) ;;
    ret (pick_mask file_ending bandname clm_dir masks band_paths).

(** The body of the loop over the scene directories of a day, for a scene
    whose name contains a tile. *)
Definition browse_scene (collection : string) (file_format clm_dir : string)
  (bands_filesuffixes : list (string * string)) (day_path scene : string)
  : M scene_dir_t :=
  let scene_path := OsPath.join day_path [scene] in
  items <- listdir scene_path ;;
  let bands_in_scenedir :=
    filter (fun item => PyStr.endswith item file_format) items in
  if String.eqb collection "S2-L2A-MAJA"
  then
    let scenedatetime_str :=
      PyStr.join "-"
        (slice_1_3 (PyStr.split "_" (PyStr.replace_char "-" "_" scene))) in
    scene_datetime <- of_option (PyDate.strptime_compact scenedatetime_str)
                                (ValueError scenedatetime_str) ;;
    band_paths <-
      for_fold bands_filesuffixes []
        (browse_band file_format clm_dir scene_path bands_in_scenedir) ;;
    ret {| sd_scene := scene; sd_path := scene_path;
           sd_band_paths := band_paths; sd_datetime := Some scene_datetime |}
  else
    ret {| sd_scene := scene; sd_path := scene_path;
           sd_band_paths := []; sd_datetime := None |}.

(** The body of the loop over the scene directories of a day: a scene
    whose name contains no tile is passed over. *)
Definition browse_candidate (collection : string) (file_format clm_dir : string)
  (tiles : option (list string)) (bands_filesuffixes : list (string * string))
  (day_path : string) (scenes_to_import : list scene_dir_t) (scene : string)
  : M (list scene_dir_t) :=
  tl <- of_option tiles (UnboundLocalError "tiles") ;;
  if existsb (fun tile => PyStr.contains tile scene) tl
  then
    scene_dir <- browse_scene collection file_format clm_dir
                   bands_filesuffixes day_path scene ;;
    ret (scenes_to_import ++ [scene_dir])%list
  else ret scenes_to_import.

(** The body of the loop over the day directories of a month. *)
Definition browse_day (collection : string) (file_format clm_dir : string)
  (tiles : option (list string)) (bands_filesuffixes : list (string * string))
  (month_path year month day : string) (start_date end_date : date)
  (scenes_to_import : list scene_dir_t) : M (list scene_dir_t) :=
  y <- of_option (PyInt.int year) (ValueError year) ;;
  m <- of_option (PyInt.int month) (ValueError month) ;;
  d <- of_option (PyInt.int day) (ValueError day) ;;
  folder_date <- of_option (PyDate.new y m d) (ValueError (date_error y m d)) ;;
  if PyDate.ge folder_date start_date && PyDate.lt folder_date end_date
  then
    let day_path := OsPath.join month_path [day] in
    scenes <- listdir day_path ;;
    for_fold scenes scenes_to_import
      (browse_candidate collection file_format clm_dir tiles
         bands_filesuffixes day_path)
  else ret scenes_to_import.

(** The body of the loop over the month directories of a year. *)
Definition browse_month (collection : string) (file_format clm_dir : string)
  (tiles : option (list string)) (bands_filesuffixes : list (string * string))
  (basepath year month : string) (start_date end_date : date)
  (scenes_to_import : list scene_dir_t) : M (list scene_dir_t) :=
  let month_path := OsPath.join basepath [year; month] in
  days <- listdir month_path ;;
  for_fold days scenes_to_import
    (fun acc day =>
       browse_day collection file_format clm_dir tiles bands_filesuffixes
         month_path year month day start_date end_date acc).

(** The body of the loop over the year directories of the archive. *)
Definition browse_year (collection : string) (file_format clm_dir : string)
  (tiles : option (list string)) (bands_filesuffixes : list (string * string))
  (basepath year : string) (start_date end_date : date)
  (scenes_to_import : list scene_dir_t) : M (list scene_dir_t) :=
  months <- listdir (OsPath.join basepath [year]) ;;
  for_fold months scenes_to_import
    (fun acc month =>
       browse_month collection file_format clm_dir tiles bands_filesuffixes
         basepath year month start_date end_date acc).

(** The traversal of the archive: years, months, days, scenes. *)
Definition browse_archive (collection : string) (file_format clm_dir : string)
  (tiles : option (list string)) (bands_filesuffixes : list (string * string))
  (basepath : string) (start_date end_date : date) : M (list scene_dir_t) :=
  years <- listdir basepath ;;
  for_fold years []
    (fun acc year =>
       browse_year collection file_format clm_dir tiles bands_filesuffixes
         basepath year start_date end_date acc).

(** The swapped dictionary of the requested bands: file suffix to band *)
Definition requested_suffixes (table : list (string * string))
  (bands : list string) : list (string * string) :=
  fold_left (fun d '(key, value) =>
               if str_in_list key bands then dict_set value key d else d)
            table [].

Definition browse_eolab_collection (collection : string) (bands : list string)
  (mountpoint : string) (start_date end_date : date) : M (list scene_dir_t) :=
  collection_dict <- of_option (dict_get collection eolab_collection_params)
                               (KeyError collection) ;;
  let basepath := OsPath.join mountpoint [basepath collection_dict] in
  let file_format := file_format collection_dict in
  let clm_dir := CLM_dir collection_dict in
  let tile_system := tile_system collection_dict in
  tiles <- (if String.eqb tile_system "MGRS"
            then t <- get_utmcells ;; ret (Some t)
            else ret None) ;;
  let bands_filesuffixes :=
    requested_suffixes (bands_filesuffixes collection_dict) bands in
  browse_archive collection file_format clm_dir tiles bands_filesuffixes
    basepath start_date end_date.

(** [import_raster] runs in a worker process, under the [GISRC] the pool
    was started with.  Its value and the events of the task.  The two
    streams of the importer are decoded before anything is looked for in
    them: bytes that are no UTF-8 end the task there. *)
Definition import_raster (gisrc : string) (paramdict : paramdict_t)
  : result import_dict_t * list task_event :=
  let name := p_name paramdict in
  let input := p_input paramdict in
  let memory := p_memory paramdict in
  let memory := if 100000 <=? memory then memory * 1000000 else memory in
  let semantic_label := p_semantic_label paramdict in
  let scene_datetime := p_datetime paramdict in
  let cmd_str :=
    "r.import --q input=" ++ input ++ " output=" ++ name ++
    " memory=" ++ PyInt.str memory ++ " " ++
    "extent=region resample=bilinear resolution=estimated -n" in
  let resp := w_popen w gisrc cmd_str in
  if negb (PyBytes.decodable (fst resp) && PyBytes.decodable (snd resp))
  then (Raise UnicodeDecodeError,
        [TkMessage ("Importing " ++ name ++ " ..."); TkPopen gisrc cmd_str])
  else
  let resp_text := fst resp ++ snd resp in
  let empty_strings :=
    ["<" ++ name ++ "> is empty";
     "Input raster does not overlap current computational region"] in
  let map_empty :=
    existsb (fun string => PyStr.contains string resp_text) empty_strings in
  let label_args :=
    [("map", name); ("semantic_label", semantic_label); ("operation", "add")] in
  let events :=
    ([TkMessage ("Importing " ++ name ++ " ..."); TkPopen gisrc cmd_str] ++
     (if map_empty
      then [TkWarning ("Only no-data values found in current region for input " ++
                       "raster <" ++ input ++ ">")]
      else []) ++
     [TkModule gisrc "r.semantic.label" label_args])%list in
  match w_module w gisrc "r.semantic.label" label_args with
  | Some _ =>
      (Ok {| i_name := name; i_datetime := scene_datetime;
             i_map_empty := map_empty; i_band := semantic_label |}, events)
  | None => (Raise (CalledModuleError "r.semantic.label"), events)
  end.

(** The values of the tasks of a pool, in the order of the task list; the
    exception of the first task that raised, if any did. *)
Fixpoint collect {A : Type} (l : list (result A)) : result (list A) :=
  match l with
  | [] => Ok []
  | r :: l' =>
      match r with
      | Ok a =>
          match collect l' with
          | Ok l'' => Ok (a :: l'')
          | Fatal msg => Fatal msg
          | Raise e => Raise e
          end
      | Fatal msg => Fatal msg
      | Raise e => Raise e
      end
  end.

(** [Pool(processes=n)] refuses [n < 1]; [pool.map] hands back the values
    in the order of its argument. *)
Definition import_parallel (import_parallel_list : list paramdict_t)
  (num_processes : Z) : M (list import_dict_t) :=
  if num_processes <? 1
  then raise (ValueError "Number of processes must be at least 1")
  else
    g <- gets GISRC ;;
    let runs := map (import_raster g) import_parallel_list in
    emit (EvPool num_processes (map snd runs)) ;;
    fun s => (collect (map fst runs), s).

(** The task of one band file of a scene *)
Definition make_paramdict (scene_path : string) (scene_datetime : datetime)
  (ram_per_proc : Z) (band filename : string) : paramdict_t :=
  let name_tmp := PyStr.replace_char "-" "_" (fst (OsPath.splitext filename)) in
  let name := last (PyStr.split "/" name_tmp) "" in
  let path := OsPath.join scene_path [filename] in
  {| p_input := path; p_name := name; p_memory := ram_per_proc;
     p_semantic_label := band; p_datetime := scene_datetime |}.

(** The loop of [main] that builds [import_parallel_list]: one task for
    every band path of every scene, in the order of the manifest. *)
Definition build_import_list (scenes_to_import : list scene_dir_t)
  (ram_per_proc : Z) : M (list paramdict_t) :=
  for_fold scenes_to_import []
    (fun acc scene_dict =>
       scene_datetime <- of_option (sd_datetime scene_dict) (KeyError "datetime") ;;
       ret (fold_left
              (fun acc '(band, filename) =>
                 (acc ++ [make_paramdict (sd_path scene_dict) scene_datetime
                            ram_per_proc band filename])%list)
              (sd_band_paths scene_dict) acc)).

(** The body of the loop of [main] that writes the registration file:
    the text written so far is threaded through, a raster that is not
    registered goes to [rm_rasters]. *)
Definition register_item (written : string) (item : import_dict_t) : M string :=
  let map := i_name item in
  let map_datetime := i_datetime item in
  let map_empty := i_map_empty item in
  let band := i_band item in
  if negb map_empty || String.eqb band "S2_CLM"
  then
    let str_timestamp := PyDate.strftime_ymd_hms map_datetime in
    ret (written ++ map ++ "|" ++ str_timestamp ++ nl)
  else
    rr <- gets rm_rasters ;;
    modify (set_rm_rasters (rr ++ [map])) ;;
    ret written.

Definition write_registration (maps_imported : list import_dict_t) : M string :=
  for_fold maps_imported "" register_item.

Definition main : M unit :=
  let start := opt_start options in
  let end_ := opt_end options in
  let mountpoint := opt_mountpoint options in
  let collection := opt_collection options in
  let bands := PyStr.split "," (opt_bands options) in
  let output := opt_output options in
  let archive := opt_archive options in
  ' (start_date, end_date) <- check_start_end start end_ ;;
  emit (EvMessage "Filtering available scenes...") ;;
  scenes <- (if String.eqb archive "eolab"
             then l <- browse_eolab_collection collection bands mountpoint
                         start_date end_date ;;
                  ret (Some l)
             else ret None) ;;
  scenes_to_import <- of_option scenes (UnboundLocalError "scenes_to_import") ;;
  (if (length scenes_to_import =? 0)%nat
   then fatal ("No scenes matching the spatial and temporal filter " ++
               "found. Exiting...")
   else ret tt) ;;
  ' (nprocs, used_ram) <- test_nprocs_memory ;;
  (if nprocs =? 0 then raise ZeroDivisionError else ret tt) ;;
  ram_per_proc <- of_option (PyFloatOps.trunc (PyFloatOps.truediv used_ram nprocs))
                            OverflowError ;;
  emit (EvMessage "Importing bands...") ;;
  import_parallel_list <- build_import_list scenes_to_import ram_per_proc ;;
  maps_imported <- import_parallel import_parallel_list nprocs ;;
  emit (EvMessage ("Creating STRDS " ++ output ++ " and registering bands...")) ;;
  run_command "t.create"
    [("output", output); ("type", "strds");
     ("title", collection ++ "_" ++ output);
     ("description", collection ++ "_" ++ output)] ;;
  tmp_file <- tempfile ;;
  written <- write_registration maps_imported ;;
  emit (EvWrite tmp_file written) ;;
  run_command "t.register"
    [("input", output); ("type", "raster"); ("file", tmp_file)] ;;
  emit (EvUnlink tmp_file).

(** The script as it is run: [main], then [cleanup], which [atexit] runs
    however [main] ends. *)
Definition script (gisrc : string) : result unit * state :=
  let '(r, s1) := main (initial_state gisrc) in
  let '(_, s2) := cleanup s1 in
  (r, s2).

End Script.

(** ** A small archive to run the script on *)

Module Sample.

Definition base : string := "/codede/Sentinel-2/MSI/L2A-MAJA".
Definition scene_a : string := "SENTINEL2A_20220701-103021-460_L2A_T32ULB_C_V1-0".
Definition scene_b : string := "SENTINEL2A_20220701-103021-460_L2A_T31UGS_C_V1-0".
Definition scene_c : string := "SENTINEL2B_20220702-104025-461_L2A_T32ULB_C_V1-0".

Definition files_of (scene : string) : list string :=
  [scene ++ "_MTD_ALL.xml"; scene ++ "_FRE_B4.tif"; scene ++ "_FRE_B8A.tif";
   scene ++ "_FRE_B8.tif"; "MASKS"].

Definition masks_of (scene : string) : list string :=
  [scene ++ "_CLM_R1.tif"; scene ++ "_CLM_R2.tif"].

Definition tree : list (string * list string) :=
  [(base, ["2022"]);
   (base ++ "/2022", ["07"]);
   (base ++ "/2022/07", ["01"; "02"; "20"]);
   (base ++ "/2022/07/01", [scene_a; scene_b]);
   (base ++ "/2022/07/02", [scene_c]);
   (base ++ "/2022/07/20", [scene_a]);
   (base ++ "/2022/07/01/" ++ scene_a, files_of scene_a);
   (base ++ "/2022/07/01/" ++ scene_a ++ "/MASKS", masks_of scene_a);
   (base ++ "/2022/07/01/" ++ scene_b, files_of scene_b);
   (base ++ "/2022/07/01/" ++ scene_b ++ "/MASKS", masks_of scene_b);
   (base ++ "/2022/07/02/" ++ scene_c, files_of scene_c);
   (base ++ "/2022/07/02/" ++ scene_c ++ "/MASKS", masks_of scene_c)].

(** The grid service answers with [tiles]; every module succeeds. *)
Definition module_out (tiles : list string) (gisrc prog : string)
  (args : list (string * string)) : option (list (string * string)) :=
  if String.eqb prog "g.proj"
  then Some (if String.eqb gisrc "/tmp/grass/0"
             then [("srid", "EPSG:4326")] else [("srid", "EPSG:25832")])
  else if String.eqb prog "v.db.select"
  then Some (map (fun t => (t, "")) tiles)
  else Some [].

(** The importer reports the B4 band of the second acquisition as empty,
    and its cloud mask as outside the region. *)
Definition popen_out (gisrc cmd : string) : string * string :=
  if PyStr.contains (scene_c ++ "_FRE_B4.tif") cmd
  then ("", "WARNING: Raster map <SENTINEL2B_20220702_104025_461_L2A_T32ULB_C_V1_0_FRE_B4> is empty")
  else if PyStr.contains (scene_c ++ "_CLM_R1.tif") cmd
  then ("", "ERROR: Input raster does not overlap current computational region.")
  else ("", "").

Definition the_world (tiles : list string) (cpus : Z) : world :=
  {| w_getpid := 4242;
     w_today := mkdate 2026 11 5;
     w_tempfile := fun n => "/tmp/grass/" ++ PyInt.str (Z.of_nat n);
     w_gisenv := fun _ =>
       {| LOCATION_NAME := "utm32n"; MAPSET := "user1";
          env_GISDBASE := "/grassdb" |};
     w_module := module_out tiles;
     w_find_file := fun _ _ _ => true;
     w_listdir := fun path => dict_get path tree;
     w_cpu_count := cpus;
     w_mem_available := 8 * 1024 ^ 3;
     w_swap_free := 2 * 1024 ^ 3;
     w_popen := popen_out |}.

Definition the_options (start end_ nprocs : string) : options_t :=
  {| opt_start := start; opt_end := end_;
     opt_bands := "S2_B4,S2_B8,S2_CLM"; opt_memory := "300";
     opt_wfs_mgrs := "https://geoserver.mundialis.de/geoserver/sentinel/wfs?";
     opt_wfs_name := "sentinel:mgrs"; opt_output := "s2_july";
     opt_collection := "S2-L2A-MAJA"; opt_archive := "eolab";
     opt_mountpoint := "/codede"; opt_nprocs := nprocs |}.

Definition july : options_t := the_options "2022-07-01" "2022-07-15" "-2".

Definition bonn : world := the_world ["32ULB"] 4.
Definition madrid : world := the_world [] 4.

End Sample.

(** ** Specification-side definitions

    The definitions below follow the words of the specification; the
    theorems compare them with the script. *)

(** The memory value the specification says reaches the importer *)
Definition normalized_memory (budget : Z) : Z :=
  if 100000 <=? budget then budget * 10 ^ 6 else budget.

(** The shell command of an import with a given memory value *)
Definition r_import_cmd (input name : string) (memory : Z) : string :=
  "r.import --q input=" ++ input ++ " output=" ++ name ++ " memory=" ++
  PyInt.str memory ++ " extent=region resample=bilinear resolution=estimated -n".

(** The importer's combined output for a task *)
Definition importer_text (w : world) (gisrc : string) (p : paramdict_t) : string :=
  let resp := w_popen w gisrc
                (r_import_cmd (p_input p) (p_name p) (normalized_memory (p_memory p))) in
  fst resp ++ snd resp.

(** Both streams of the importer are UTF-8. *)
Definition decodes (w : world) (gisrc : string) (p : paramdict_t) : bool :=
  let resp := w_popen w gisrc
                (r_import_cmd (p_input p) (p_name p) (normalized_memory (p_memory p))) in
  PyBytes.decodable (fst resp) && PyBytes.decodable (snd resp).

(** The output holds one of the two phrases that report an empty result. *)
Definition reports_empty (name text : string) : Prop :=
  PyStr.contains ("<" ++ name ++ "> is empty") text = true \/
  PyStr.contains "Input raster does not overlap current computational region"
    text = true.

Definition empty_warning (input : string) : task_event :=
  TkWarning ("Only no-data values found in current region for input raster <" ++
             input ++ ">").

(** The two phrases, as [import_raster] lists them *)
Definition empty_phrases (name : string) : list string :=
  ["<" ++ name ++ "> is empty";
   "Input raster does not overlap current computational region"].

Definition detects_empty (w : world) (gisrc : string) (p : paramdict_t) : bool :=
  existsb (fun phrase => PyStr.contains phrase (importer_text w gisrc p))
          (empty_phrases (p_name p)).

Definition label_args (p : paramdict_t) : list (string * string) :=
  [("map", p_name p); ("semantic_label", p_semantic_label p);
   ("operation", "add")].

(** The labelling of a task's raster succeeds. *)
Definition labels_ok (w : world) (gisrc : string) (p : paramdict_t) : Prop :=
  w_module w gisrc "r.semantic.label" (label_args p) <> None.

(** Retention: a result is registered when it is not empty or when it is a
    cloud mask. *)
Definition retained (r : import_dict_t) : bool :=
  negb (i_map_empty r) || String.eqb (i_band r) "S2_CLM".

(** The line of the registration file for a result *)
Definition registration_line (r : import_dict_t) : string :=
  i_name r ++ "|" ++ PyDate.strftime_ymd_hms (i_datetime r) ++ nl.

(** The events a piece of the script adds to the trace *)
Definition new_events (s s' : state) (evs : list event) : Prop :=
  trace s' = (trace s ++ evs)%list.

(** A date written as [YYYY-MM-DD], read the way [check_start_end] reads
    it *)
Definition parse_ymd (s : string) : option date :=
  match map_opt PyInt.int (PyStr.split "-" s) with
  | Some (y :: m :: d :: _) => PyDate.new y m d
  | _ => None
  end.

(** The end of the range, with the sentinel resolved to the current date *)
Definition resolved_end (w : world) (end_ : string) : option date :=
  if String.eqb end_ "today" then Some (w_today w) else parse_ymd end_.

Definition valid_date (d : date) : bool := PyDate.valid (year d) (month d) (day d).

(** Integers from [0] up to, not including, [n] *)
Definition below (n : Z) : list Z := map Z.of_nat (seq 0 (Z.to_nat n)).

(** A field of a written date reads back as the number it shows, and holds
    no hyphen. *)
Definition field_ok (width : nat) (n : Z) : bool :=
  negb (PyStr.has_char "-" (PyInt.zfill width n)) &&
  match PyInt.int (PyInt.zfill width n) with
  | Some k => k =? n
  | None => false
  end.

(** What validation answers for a start and an end date *)
Definition validation_outcome (start_date end_date : date) : result (date * date) :=
  if PyDate.lt end_date maja_date
  then Fatal ("End is before 2015-07-01, please select a later " ++
              "end date, as no data is available otherwise")
  else if PyDate.lt end_date start_date
  then Fatal "End date is before start date"
  else Ok (start_date, end_date).

(** The free memory in MB as [freeRAM('MB', 100)] computes it: available
    RAM plus free swap, divided by 1024^2, in binary64, rounded to an
    integer *)
Definition free_budget (w : world) : option Z :=
  let total := PyFloat.of_int (w_mem_available w + w_swap_free w) in
  let memory_MB := PyFloat.div total (PyFloat.of_int (1024 ^ 2)) in
  PyFloat.round (PyFloat.div (PyFloat.mul memory_MB (PyFloat.of_int 100))
                             (PyFloat.of_int 100)).

Definition cores_warning (nprocs cpus : Z) : event :=
  EvWarning ("Using " ++ PyInt.str nprocs ++ " parallel processes but only " ++
             PyInt.str cpus ++ " CPUs available.").

Definition memory_warnings (memory free : Z) : list event :=
  [EvWarning ("Using " ++ PyInt.str memory ++ " MB but only " ++
              PyInt.str free ++ " MB RAM available.");
   EvWarning ("Set used memory to " ++ PyInt.str free ++ " MB.")].

(** The events of a negotiation: the probes, and a warning for each
    request that exceeds what the host has *)
Definition negotiation_events (nprocs cpus memory free : Z) : list event :=
  ([EvCpuCount] ++
   (if negb (nprocs =? -2) && (cpus <? nprocs)
    then [cores_warning nprocs cpus] else []) ++
   [EvVirtualMemory; EvSwapMemory] ++
   (if free <? memory then memory_warnings memory free else []))%list.

(** The names of the transient objects of tile resolution *)
Definition tmpregionname (w : world) : string :=
  "tmp_region_utmgrid_" ++ PyInt.str (w_getpid w).

Definition tmplocname (w : world) : string :=
  "temp_import_location_" ++ PyInt.str (w_getpid w).

(** The snapshot of the region as a vector succeeds. *)
Definition region_saved (w : world) (s : state) : Prop :=
  w_module w (GISRC s) "v.in.region"
    [("output", tmpregionname w); ("quiet", "True")] <> None.

(** After tile resolution started in [s0]: the region vector, the
    transient location and its [GISRC] file are known to [cleanup], and so
    is the [GISRC] to go back to. *)
Definition registered_for_teardown (w : world) (s0 s : state) : Prop :=
  In (tmpregionname w) (rm_vectors s) /\
  TMPLOC s = Some (tmplocname w) /\
  SRCGISRC s = Some (w_tempfile w (tmp_count s0)) /\
  TGTGISRC s = Some (GISRC s0) /\
  GISDBASE s = Some (env_GISDBASE (w_gisenv w (GISRC s0))).

(** The [GISRC] an event of a task ran under, if it ran a program *)
Definition task_gisrc (e : task_event) : option string :=
  match e with
  | TkPopen g _ => Some g
  | TkModule g _ _ => Some g
  | _ => None
  end.

(** Every program of every task of a pool ran under [g]. *)
Definition pool_under (g : string) (e : event) : Prop :=
  match e with
  | EvPool _ runs =>
      Forall (Forall (fun t => forall g', task_gisrc t = Some g' -> g' = g)) runs
  | _ => True
  end.

(** The stages of a run, by the events that belong to them *)
Definition is_validation (e : event) : Prop := e = EvToday.

Definition tile_modules : list string :=
  ["v.in.region"; "g.proj"; "v.proj"; "g.region"; "v.in.wfs"; "v.db.select"].

Definition is_browsing (e : event) : Prop :=
  match e with
  | EvMessage msg => msg = "Filtering available scenes..."
  | EvVerbose _ => True
  | EvWrite _ _ => True
  | EvListdir _ => True
  | EvModule _ prog _ => In prog tile_modules
  | _ => False
  end.

Definition is_negotiation (e : event) : Prop :=
  match e with
  | EvCpuCount | EvVirtualMemory | EvSwapMemory | EvWarning _ => True
  | _ => False
  end.

Definition is_import (e : event) : Prop :=
  match e with
  | EvMessage _ => True
  | EvPool _ _ => True
  | EvModule _ prog _ => In prog ["t.create"; "t.register"]
  | EvWrite _ _ => True
  | EvUnlink _ => True
  | _ => False
  end.

(** A trace made of one stretch of events per stage, in order *)
Fixpoint staged (stages : list (event -> Prop)) (evs : list event) : Prop :=
  match stages with
  | [] => evs = []
  | P :: rest =>
      exists e1 e2, evs = (e1 ++ e2)%list /\ Forall P e1 /\ staged rest e2
  end.

(** The trace grows from [s] to [s'] by one stretch of events per stage. *)
Definition trace_staged (stages : list (event -> Prop)) (s s' : state) : Prop :=
  exists evs, trace s' = (trace s ++ evs)%list /\ staged stages evs.

(** The stages of [main]: validation, browsing, negotiation, and the import
    with the assembly of the time series, whose pool runs under [g] *)
Definition run_stages (g : string) : list (event -> Prop) :=
  [is_validation; is_browsing; is_negotiation;
   fun e => is_import e /\ pool_under g e].

Definition no_scenes_phrase : string :=
  "No scenes matching the spatial and temporal filter found.".


(** ** The archive, as the specification describes its traversal *)

(** A name a directory listing can hold: not empty, no slash *)
Definition wf_name (n : string) : bool :=
  negb (String.eqb n "") && negb (PyStr.has_char "/" n).

Definition wf_listings (w : world) : Prop :=
  forall path l n, w_listdir w path = Some l -> In n l -> wf_name n = true.

(** The entries of the directory [base/c1/.../cn]; none when it cannot be
    listed *)
Definition dir (w : world) (base : string) (cs : list string) : list string :=
  match w_listdir w (OsPath.join base cs) with
  | Some l => l
  | None => []
  end.

(** The date a day directory stands for *)
Definition folder_date (y m d : string) : option date :=
  match PyInt.int y, PyInt.int m, PyInt.int d with
  | Some a, Some b, Some c => PyDate.new a b c
  | _, _, _ => None
  end.

(** Start inclusive, end exclusive *)
Definition in_range (start_date end_date d : date) : bool :=
  PyDate.ge d start_date && PyDate.lt d end_date.

Definition day_qualifies (start_date end_date : date) (y m d : string) : bool :=
  match folder_date y m d with
  | Some fd => in_range start_date end_date fd
  | None => false
  end.

(** The name of a scene directory contains one of the tiles. *)
Definition matches_tile (tiles : list string) (scene : string) : bool :=
  existsb (fun tile => PyStr.contains tile scene) tiles.

Definition is_clm_entry (e : string * string) : bool := String.eqb (snd e) "S2_CLM".

(** The directories a traversal lists, as lists of path components below
    the base path, in the order of the traversal *)
Definition scene_visits (tiles : list string) (bfs : list (string * string))
  (clm y m d sc : string) : list (list string) :=
  if matches_tile tiles sc
  then [y; m; d; sc] :: map (fun _ => [y; m; d; sc; clm]) (filter is_clm_entry bfs)
  else [].

Definition day_visits (w : world) (base : string) (tiles : list string)
  (bfs : list (string * string)) (clm : string) (start_date end_date : date)
  (y m d : string) : list (list string) :=
  if day_qualifies start_date end_date y m d
  then [y; m; d] :: flat_map (scene_visits tiles bfs clm y m d) (dir w base [y; m; d])
  else [].

Definition month_visits (w : world) (base : string) (tiles : list string)
  (bfs : list (string * string)) (clm : string) (start_date end_date : date)
  (y m : string) : list (list string) :=
  [y; m] :: flat_map (day_visits w base tiles bfs clm start_date end_date y m)
                     (dir w base [y; m]).

Definition year_visits (w : world) (base : string) (tiles : list string)
  (bfs : list (string * string)) (clm : string) (start_date end_date : date)
  (y : string) : list (list string) :=
  [y] :: flat_map (month_visits w base tiles bfs clm start_date end_date y)
                  (dir w base [y]).

Definition archive_visits (w : world) (base : string) (tiles : list string)
  (bfs : list (string * string)) (clm : string) (start_date end_date : date)
  : list (list string) :=
  [] :: flat_map (year_visits w base tiles bfs clm start_date end_date) (dir w base []).

(** The scenes of the manifest, each as the path components of its
    directory *)
Definition day_scenes (w : world) (base : string) (tiles : list string)
  (start_date end_date : date) (y m d : string) : list (list string) :=
  if day_qualifies start_date end_date y m d
  then map (fun sc => [y; m; d; sc]) (filter (matches_tile tiles) (dir w base [y; m; d]))
  else [].

Definition archive_scenes (w : world) (base : string) (tiles : list string)
  (start_date end_date : date) : list (list string) :=
  flat_map (fun y =>
    flat_map (fun m =>
      flat_map (day_scenes w base tiles start_date end_date y m) (dir w base [y; m]))
      (dir w base [y]))
    (dir w base []).

(** The path components a manifest entry stands for: its path is that of
    the components, its name is the last of them. *)
Definition entry_of (base : string) (x : scene_dir_t) (cs : list string) : Prop :=
  sd_path x = OsPath.join base cs /\ last cs "" = sd_scene x.

(** The listing of the directory of some path components *)
Definition visit (base : string) (cs : list string) : event :=
  EvListdir (OsPath.join base cs).

(** What the browser records for a band of a scene *)
Definition band_path_ok (w : world) (bands : list string) (scene_path : string)
  (band path : string) : Prop :=
  exists suffix,
    In (band, suffix) (bands_filesuffixes maja) /\
    str_in_list band bands = true /\
    if String.eqb band "S2_CLM"
    then exists file,
           path = OsPath.join "MASKS" [file] /\
           (exists l, w_listdir w (OsPath.join scene_path ["MASKS"]) = Some l /\ In file l) /\
           PyStr.contains (suffix ++ ".tif") file = true
    else (exists l, w_listdir w scene_path = Some l /\ In path l) /\
         PyStr.endswith path ".tif" = true /\
         PyStr.contains (suffix ++ ".tif") path = true.

Definition band_paths_ok (w : world) (bands : list string) (x : scene_dir_t) : Prop :=
  forall band path, In (band, path) (sd_band_paths x) ->
                    band_path_ok w bands (sd_path x) band path.

(** A manifest entry stands for some path components and has its band
    paths right. *)
Definition entry_ok (w : world) (bands : list string) (base : string)
  (x : scene_dir_t) (cs : list string) : Prop :=
  entry_of base x cs /\ band_paths_ok w bands x.

(** One round of the loop over the requested bands of a scene, with the
    listings at hand *)
Definition band_step (files masks : list string) (bp : list (string * string))
  (entry : string * string) : list (string * string) :=
  if negb (String.eqb (snd entry) "S2_CLM")
  then pick_band (fst entry ++ ".tif") (snd entry) files bp
  else pick_mask (fst entry ++ ".tif") (snd entry) "MASKS" masks bp.

(** The band paths of a manifest entry are what the rounds over the
    requested bands leave, from the listing of its directory and of its
    [MASKS] directory. *)
Definition band_paths_exact (w : world) (bfs : list (string * string))
  (x : scene_dir_t) : Prop :=
  exists items,
    w_listdir w (sd_path x) = Some items /\
    ((exists suffix, In (suffix, "S2_CLM") bfs) ->
     w_listdir w (OsPath.join (sd_path x) ["MASKS"]) <> None) /\
    sd_band_paths x =
      fold_left (band_step (filter (fun item => PyStr.endswith item ".tif") items)
                           (dir w (sd_path x) ["MASKS"]))
                bfs [].

Definition entry_full (w : world) (bands : list string) (bfs : list (string * string))
  (base : string) (x : scene_dir_t) (cs : list string) : Prop :=
  entry_ok w bands base x cs /\ band_paths_exact w bfs x.

(** ** Definitions for further properties of the script *)

(** The end string that [check_start_end] splits *)
Definition end_string (w : world) (end_ : string) : string :=
  if String.eqb end_ "today" then PyDate.strftime_ymd (w_today w) else end_.

(** The fields of a date string, read as integers *)
Definition date_fields (s : string) : option (list Z) :=
  map_opt PyInt.int (PyStr.split "-" s).

(** The date of the first three fields, when there are three and they
    make a date *)
Definition date_of_fields (l : list Z) : option date :=
  match l with
  | y :: m :: d :: _ => PyDate.new y m d
  | _ => None
  end.

(** [GISRC] and the [GISRC] to go back to stay as they are. *)
Definition same_context (s s' : state) : Prop :=
  GISRC s' = GISRC s /\ TGTGISRC s' = TGTGISRC s.

(** Where a run that started in [s] can be found: as it started, or with
    the [GISRC] it started with put aside for [cleanup] *)
Definition context_known (s s' : state) : Prop :=
  (TGTGISRC s' = TGTGISRC s /\ GISRC s' = GISRC s) \/
  TGTGISRC s' = Some (GISRC s).

Definition bad_date_prefix : string :=
  "Start/End date is not defined in format YYYY-MM-DD: ".

(** The EPSG code read off the answer of [g.proj -g]: the [epsg] key when
    the answer has one, else what follows [EPSG:] in the [srid] key. *)
Definition reported_code (proj : list (string * string)) : option string :=
  if dict_has "epsg" proj then dict_get "epsg" proj
  else match dict_get "srid" proj with
       | Some srid => nth_error (PyStr.split "EPSG:" srid) 1
       | None => None
       end.

Definition location_failed : string := "Creation of temporary location failed!".

(** The part of a scene name that carries its time stamp *)
Definition scene_token (scene : string) : string :=
  PyStr.join "-" (slice_1_3 (PyStr.split "_" (PyStr.replace_char "-" "_" scene))).

(** A manifest entry carries the time stamp its name spells. *)
Definition dated (x : scene_dir_t) : Prop :=
  exists t, sd_datetime x = Some t /\
            PyDate.strptime_compact (scene_token (sd_scene x)) = Some t.

(** The import tasks of a manifest entry: one for each of its band paths,
    in their order *)
Definition tasks_of (ram_per_proc : Z) (x : scene_dir_t) : list paramdict_t :=
  match sd_datetime x with
  | Some t =>
      map (fun '(band, filename) =>
             make_paramdict (sd_path x) t ram_per_proc band filename)
          (sd_band_paths x)
  | None => []
  end.

Definition no_scenes_message : string :=
  "No scenes matching the spatial and temporal filter found. Exiting...".

(** A computation whose fatal errors all carry a message of [P] *)
Definition fatal_only {A : Type} (P : string -> Prop) (c : M A) : Prop :=
  forall s msg s', c s = (Fatal msg, s') -> P msg.

(** The messages of the fatal errors of the script *)
Definition script_fatal (msg : string) : Prop :=
  (exists detail, msg = bad_date_prefix ++ detail) \/
  msg = "End is before 2015-07-01, please select a later end date, as no data is available otherwise" \/
  msg = "End date is before start date" \/
  msg = location_failed \/
  msg = no_scenes_message.

(** The requested rows of a band table, each turned round: file suffix
    first, band name second *)
Definition requested_rows (table : list (string * string)) (bands : list string)
  : list (string * string) :=
  map (fun row => (snd row, fst row))
      (filter (fun row => str_in_list (fst row) bands) table).

(** All bytes of a text are ASCII. *)
Definition is_ascii (s : string) : bool :=
  forallb (fun c => (N_of_ascii c <? 128)%N) (list_ascii_of_string s).

(** A world in which one program fails whenever it is run *)
Definition with_failing (w : world) (prog : string) : world :=
  {| w_getpid := w_getpid w;
     w_today := w_today w;
     w_tempfile := w_tempfile w;
     w_gisenv := w_gisenv w;
     w_module := fun g p args => if String.eqb p prog then None else w_module w g p args;
     w_find_file := w_find_file w;
     w_listdir := w_listdir w;
     w_cpu_count := w_cpu_count w;
     w_mem_available := w_mem_available w;
     w_swap_free := w_swap_free w;
     w_popen := w_popen w |}.

(** An import task, to run the pool on *)
Definition sample_task : paramdict_t :=
  {| p_input := "/a/x_FRE_B4.tif"; p_name := "x_FRE_B4"; p_memory := 100;
     p_semantic_label := "S2_B4";
     p_datetime := mkdatetime (mkdate 2022 7 1) 10 30 21 |}.

(** A world in which one more directory listing is fixed *)
Definition with_listing (w : world) (path : string) (l : list string) : world :=
  {| w_getpid := w_getpid w;
     w_today := w_today w;
     w_tempfile := w_tempfile w;
     w_gisenv := w_gisenv w;
     w_module := w_module w;
     w_find_file := w_find_file w;
     w_listdir := fun p => if String.eqb p path then Some l else w_listdir w p;
     w_cpu_count := w_cpu_count w;
     w_mem_available := w_mem_available w;
     w_swap_free := w_swap_free w;
     w_popen := w_popen w |}.

(** ** Relations on states and paths used by the proofs *)

Definition steps {A : Type} (R : state -> state -> Prop) (c : M A) : Prop :=
  forall s, R s (snd (c s)).

(** What a step may append to the trace. *)
Definition appends (P : event -> Prop) (s s' : state) : Prop :=
  exists evs, trace s' = (trace s ++ evs)%list /\ Forall P evs.

Definition same {X : Type} (f : state -> X) (s s' : state) : Prop := f s' = f s.

(** The globals other than [GISRC] stay as they are. *)
Definition keeps_globals (s s' : state) : Prop :=
  rm_vectors s' = rm_vectors s /\ rm_rasters s' = rm_rasters s /\
  TMPLOC s' = TMPLOC s /\ SRCGISRC s' = SRCGISRC s /\
  TGTGISRC s' = TGTGISRC s /\ GISDBASE s' = GISDBASE s /\
  tmp_count s' = tmp_count s.

(** Nothing but the trace changes. *)
Definition only_trace (s s' : state) : Prop :=
  GISRC s' = GISRC s /\ keeps_globals s s'.

Definition prefix_of (s s' : state) : Prop := appends (fun _ => True) s s'.

Definition g_remove (gisrc type name : string) : event :=
  EvModule gisrc "g.remove"
    [("type", type); ("name", name); ("flags", "f"); ("quiet", "True")].

Definition unchanged (s s' : state) : Prop := s' = s.

(** A base path that [os.path.join] extends with a slash *)
Definition open_base (base : string) : Prop :=
  base <> "" /\ PyStr.endswith base "/" = false.

(** The path of a list of components below a base *)
Fixpoint path_of (base : string) (cs : list string) : string :=
  match cs with
  | [] => base
  | c :: cs' => path_of (base ++ "/" ++ c) cs'
  end.

Fixpoint tail_of (cs : list string) : string :=
  match cs with
  | [] => ""
  | c :: cs' => "/" ++ c ++ tail_of cs'
  end.

(** The state after some more events *)
Definition add_events (evs : list event) (s : state) : state :=
  fold_left (fun s e => add_event e s) evs s.

(** What [cleanup] removes with [g.remove], in its order: the vectors,
    then the rasters, that are registered and found, under the [GISRC]
    in force when [cleanup] begins *)
Definition removal_events (w : world) (s : state) : list event :=
  (map (g_remove (GISRC s) "vector")
       (filter (w_find_file w (GISRC s) "vector") (rm_vectors s)) ++
   map (g_remove (GISRC s) "raster")
       (filter (w_find_file w (GISRC s) "raster") (rm_rasters s)))%list.

(** What [cleanup] removes from the file system, in its order: the
    directory of the temporary location, then the temporary [GISRC]
    file *)
Definition file_removals (s : state) : list event :=
  ((if truthy (TMPLOC s)
    then match GISDBASE s with
         | Some base => [EvRmdir (OsPath.join base [str_of_global (TMPLOC s)])]
         | None => []
         end
    else []) ++
   (if truthy (SRCGISRC s) then [EvUnlink (str_of_global (SRCGISRC s))] else []))%list.


(** * Properties of the script *)

(** ** Running the monad *)

Lemma bind_Ok {A B : Type} (c : M A) (k : A -> M B) s b s2 :
  bind c k s = (Ok b, s2) ->
  exists a s1, c s = (Ok a, s1) /\ k a s1 = (Ok b, s2).
Proof.
  unfold bind. destruct (c s) as [[a | msg | e] s1]; intro H.
  - exists a, s1. split; [reflexivity | exact H].
  - discriminate H.
  - discriminate H.
Qed.

Lemma bind_run {A B : Type} (c : M A) (k : A -> M B) s a s1 :
  c s = (Ok a, s1) -> bind c k s = k a s1.
Proof. unfold bind. intros ->. reflexivity. Qed.

Lemma bind_stop {A B : Type} (c : M A) (k : A -> M B) s r s1 :
  c s = (r, s1) -> (forall a, r <> Ok a) ->
  snd (bind c k s) = s1 /\ (forall b, fst (bind c k s) <> Ok b).
Proof.
  unfold bind. intros -> Hr. destruct r as [a | msg | e]; simpl.
  - exfalso. exact (Hr a eq_refl).
  - split; [reflexivity | discriminate].
  - split; [reflexivity | discriminate].
Qed.

Lemma of_option_Ok {A : Type} (o : option A) e s a s' :
  of_option o e s = (Ok a, s') -> o = Some a /\ s' = s.
Proof.
  destruct o as [x |]; simpl; unfold ret, raise; intro H; inversion H; auto.
Qed.

(** Take a successful run of a sequence apart, one step at a time. *)
Ltac run_inv H :=
  let a := fresh "a" in
  let s := fresh "s" in
  let H1 := fresh "Hstep" in
  apply bind_Ok in H; destruct H as (a & s & H1 & H).

(** ** Strings *)

Lemma str_app_nil_r (s : string) : s ++ "" = s.
Proof. induction s as [| c s IH]; simpl; [reflexivity | now rewrite IH]. Qed.

Lemma str_app_assoc (a b c : string) : (a ++ b) ++ c = a ++ (b ++ c).
Proof. induction a as [| x a IH]; simpl; [reflexivity | now rewrite IH]. Qed.

(** ** The importer: emptiness, memory, alignment *)

(** The two ways of a task: its output is no UTF-8 and it ends there, or
    it goes on to the labelling. *)
Lemma import_raster_cases w g p :
  let start :=
    [TkMessage ("Importing " ++ p_name p ++ " ...")%string;
     TkPopen g (r_import_cmd (p_input p) (p_name p) (normalized_memory (p_memory p)))] in
  (decodes w g p = false /\
   import_raster w g p = (Raise UnicodeDecodeError, start)) \/
  (decodes w g p = true /\
   import_raster w g p =
     (match w_module w g "r.semantic.label" (label_args p) with
      | Some _ => Ok {| i_name := p_name p; i_datetime := p_datetime p;
                        i_map_empty := detects_empty w g p;
                        i_band := p_semantic_label p |}
      | None => Raise (CalledModuleError "r.semantic.label")
      end,
      start ++ (if detects_empty w g p then [empty_warning (p_input p)] else []) ++
      [TkModule g "r.semantic.label" (label_args p)])%list).
Proof.
  intro start. subst start.
  unfold import_raster.
  match goal with
  | |- context [negb ?c] => destruct c eqn:E
  end.
  - right. split; [exact E |]. cbn [negb]. cbv iota.
    unfold label_args.
    destruct (w_module w g "r.semantic.label" _); reflexivity.
  - left. split; [exact E |]. reflexivity.
Qed.

Lemma import_raster_events w g p :
  snd (import_raster w g p) =
  ([TkMessage ("Importing " ++ p_name p ++ " ...")%string;
    TkPopen g (r_import_cmd (p_input p) (p_name p) (normalized_memory (p_memory p)))] ++
   (if decodes w g p
    then (if detects_empty w g p then [empty_warning (p_input p)] else []) ++
         [TkModule g "r.semantic.label" (label_args p)]
    else []))%list.
Proof.
  destruct (import_raster_cases w g p) as [[Hd ->] | [Hd ->]]; rewrite Hd; reflexivity.
Qed.

Lemma import_raster_decoded w g p r :
  fst (import_raster w g p) = Ok r -> decodes w g p = true.
Proof.
  destruct (import_raster_cases w g p) as [[Hd ->] | [Hd ->]]; [discriminate | auto].
Qed.

Lemma import_raster_value w g p r :
  fst (import_raster w g p) = Ok r ->
  i_name r = p_name p /\ i_datetime r = p_datetime p /\
  i_band r = p_semantic_label p /\
  i_map_empty r = detects_empty w g p.
Proof.
  destruct (import_raster_cases w g p) as [[Hd ->] | [Hd ->]]; [discriminate |].
  cbn [fst]. destruct (w_module w g "r.semantic.label" _); intro H; inversion H.
  repeat split; reflexivity.
Qed.

Lemma import_raster_returns w g p :
  decodes w g p = true -> labels_ok w g p -> exists r, fst (import_raster w g p) = Ok r.
Proof.
  intros Hd H. unfold labels_ok in H.
  destruct (import_raster_cases w g p) as [[Hd' ->] | [_ ->]]; [congruence |].
  cbn [fst]. destruct (w_module w g "r.semantic.label" _).
  - eexists. reflexivity.
  - exfalso. apply H. reflexivity.
Qed.

(** A task hands back a result only when its output was UTF-8 and the
    labelling succeeded. *)
Lemma import_raster_Ok_needs w g p r :
  fst (import_raster w g p) = Ok r -> decodes w g p = true /\ labels_ok w g p.
Proof.
  unfold labels_ok.
  destruct (import_raster_cases w g p) as [[Hd ->] | [Hd ->]]; [discriminate |].
  cbn [fst]. destruct (w_module w g "r.semantic.label" _); [| discriminate].
  intros _. split; [exact Hd | discriminate].
Qed.

Lemma existsb_two {A : Type} (f : A -> bool) x y :
  existsb f [x; y] = true <-> f x = true \/ f y = true.
Proof.
  simpl. rewrite orb_false_r. apply orb_true_iff.
Qed.

(** C4. [import_raster] marks a result empty exactly when the importer's
    combined output holds one of the two phrases that report an empty
    result; it then warns about the source path, and otherwise marks the
    result populated and warns about nothing. *)
Theorem C4_empty_detection :
  forall w g p r,
    fst (import_raster w g p) = Ok r ->
    (i_map_empty r = true <-> reports_empty (p_name p) (importer_text w g p)) /\
    (reports_empty (p_name p) (importer_text w g p) ->
     In (empty_warning (p_input p)) (snd (import_raster w g p))) /\
    (~ reports_empty (p_name p) (importer_text w g p) ->
     i_map_empty r = false /\
     forall msg, ~ In (TkWarning msg) (snd (import_raster w g p))).
Proof.
  intros w g p r Hr.
  destruct (import_raster_value w g p r Hr) as (_ & _ & _ & He).
  rewrite import_raster_events, (import_raster_decoded w g p r Hr).
  assert (Hiff : detects_empty w g p = true <->
                 reports_empty (p_name p) (importer_text w g p)).
  { unfold detects_empty, empty_phrases, reports_empty.
    exact (existsb_two (fun phrase => PyStr.contains phrase (importer_text w g p)) _ _). }
  rewrite He. rewrite <- Hiff.
  destruct (detects_empty w g p) eqn:E.
  - split; [tauto |]. split.
    + intros _. simpl. auto.
    + intro H. exfalso. apply H. reflexivity.
  - split; [split; discriminate |]. split.
    + discriminate.
    + intros _. split; [reflexivity |].
      intros msg [H | [H | [H | []]]]; discriminate H.
Qed.

Lemma C4_empty_detection_witness :
  let p := {| p_input := "/codede/x_FRE_B4.tif";
              p_name := "SENTINEL2B_20220702_104025_461_L2A_T32ULB_C_V1_0_FRE_B4";
              p_memory := 100; p_semantic_label := "S2_B4";
              p_datetime := mkdatetime (mkdate 2022 7 2) 10 40 25 |} in
  exists r, fst (import_raster Sample.bonn "/home/u/.grassrc" p) = Ok r /\
            (i_map_empty r = true <->
             reports_empty (p_name p) (importer_text Sample.bonn "/home/u/.grassrc" p)).
Proof.
  intro p. eexists. split; [reflexivity |].
  apply (C4_empty_detection Sample.bonn "/home/u/.grassrc" p). reflexivity.
Defined.

(** C8. The memory value in the importer's command line is the task's
    budget times 10^6 when the budget is at least 100000, and the budget
    itself when it is smaller; the task starts no other shell command. *)
Theorem C8_memory_normalization :
  forall w g p,
    (100000 <= p_memory p ->
     In (TkPopen g (r_import_cmd (p_input p) (p_name p) (p_memory p * 10 ^ 6)))
        (snd (import_raster w g p))) /\
    (p_memory p < 100000 ->
     In (TkPopen g (r_import_cmd (p_input p) (p_name p) (p_memory p)))
        (snd (import_raster w g p))) /\
    (forall g' cmd,
       In (TkPopen g' cmd) (snd (import_raster w g p)) ->
       g' = g /\
       cmd = r_import_cmd (p_input p) (p_name p) (normalized_memory (p_memory p))).
Proof.
  intros w g p. rewrite import_raster_events. unfold normalized_memory.
  split; [| split].
  - intro H. apply Z.leb_le in H. rewrite H. simpl. auto.
  - intro H. apply Z.leb_gt in H. rewrite H. simpl. auto.
  - intros g' cmd Hin. simpl in Hin.
    destruct Hin as [H | [H | H]]; [discriminate H | inversion H; auto |].
    destruct (decodes w g p); [| destruct H].
    destruct (detects_empty w g p); simpl in H.
    + destruct H as [H | [H | []]]; discriminate H.
    + destruct H as [H | []]; discriminate H.
Qed.

Lemma C8_memory_normalization_witness :
  let big := {| p_input := "/a.tif"; p_name := "a"; p_memory := 100000;
                p_semantic_label := "S2_B4";
                p_datetime := mkdatetime (mkdate 2022 7 2) 10 40 25 |} in
  let small := {| p_input := "/a.tif"; p_name := "a"; p_memory := 99999;
                  p_semantic_label := "S2_B4";
                  p_datetime := mkdatetime (mkdate 2022 7 2) 10 40 25 |} in
  In (TkPopen "rc" "r.import --q input=/a.tif output=a memory=100000000000 extent=region resample=bilinear resolution=estimated -n")
     (snd (import_raster Sample.bonn "rc" big)) /\
  In (TkPopen "rc" "r.import --q input=/a.tif output=a memory=99999 extent=region resample=bilinear resolution=estimated -n")
     (snd (import_raster Sample.bonn "rc" small)).
Proof.
  intros big small. split.
  - apply (proj1 (C8_memory_normalization Sample.bonn "rc" big)). simpl. lia.
  - apply (proj1 (proj2 (C8_memory_normalization Sample.bonn "rc" small))). simpl. lia.
Defined.

Lemma collect_Ok {A : Type} (l : list (result A)) (out : list A) :
  collect l = Ok out -> Forall2 (fun r a => r = Ok a) l out.
Proof.
  revert out. induction l as [| r l IH]; intros out H; simpl in H.
  - inversion H. constructor.
  - destruct r as [a | msg | e]; try discriminate H.
    destruct (collect l) as [l2 | msg | e]; try discriminate H.
    inversion H. subst out. constructor; [reflexivity | apply IH; reflexivity].
Qed.

Lemma collect_total {A : Type} (l : list (result A)) :
  Forall (fun r => exists a, r = Ok a) l -> exists out, collect l = Ok out.
Proof.
  induction 1 as [| r l [a ->] _ [out IH]]; simpl.
  - eexists. reflexivity.
  - rewrite IH. eexists. reflexivity.
Qed.

Lemma import_parallel_run w tasks n s :
  1 <= n ->
  import_parallel w tasks n s =
  (collect (map fst (map (import_raster w (GISRC s)) tasks)),
   add_event (EvPool n (map snd (map (import_raster w (GISRC s)) tasks))) s).
Proof.
  intro Hn. unfold import_parallel.
  destruct (n <? 1) eqn:E; [apply Z.ltb_lt in E; lia |].
  reflexivity.
Qed.

Lemma Forall2_nth_error {A B : Type} (R : A -> B -> Prop) l1 l2 :
  Forall2 R l1 l2 ->
  forall i a b, nth_error l1 i = Some a -> nth_error l2 i = Some b -> R a b.
Proof.
  induction 1 as [| x y l1 l2 Hxy _ IH]; intros i a b Ha Hb.
  - destruct i; discriminate Ha.
  - destruct i as [| i]; simpl in Ha, Hb.
    + inversion Ha. inversion Hb. subst. exact Hxy.
    + exact (IH i a b Ha Hb).
Qed.

Lemma fold_left_grows {A X : Type} (g : list A -> X -> list A) (l : list X) :
  (forall acc x, length (g acc x) = S (length acc)) ->
  forall acc, length (fold_left g l acc) = (length acc + length l)%nat.
Proof.
  intro Hg. induction l as [| x l IH]; intro acc; simpl.
  - lia.
  - rewrite IH, Hg. lia.
Qed.

Lemma build_import_list_length scenes ram (K : nat) :
  (forall sd, In sd scenes -> length (sd_band_paths sd) = K) ->
  forall acc s tasks s',
    for_fold scenes acc
      (fun acc scene_dict =>
         scene_datetime <- of_option (sd_datetime scene_dict) (KeyError "datetime") ;;
         ret (fold_left
                (fun acc '(band, filename) =>
                   (acc ++ [make_paramdict (sd_path scene_dict) scene_datetime
                              ram band filename])%list)
                (sd_band_paths scene_dict) acc)) s = (Ok tasks, s') ->
    length tasks = (length acc + length scenes * K)%nat.
Proof.
  induction scenes as [| sd scenes IH]; intros HK acc s tasks s' H; simpl in H.
  - inversion H. simpl. lia.
  - run_inv H. run_inv Hstep.
    apply of_option_Ok in Hstep0. destruct Hstep0 as [Hdt ->].
    inversion Hstep. subst a s0. clear Hstep.
    apply IH in H; [| intros sd' Hin; apply HK; right; exact Hin].
    rewrite H.
    rewrite fold_left_grows.
    + rewrite (HK sd (or_introl eq_refl)). simpl. lia.
    + intros acc' [band filename]. rewrite length_app. simpl. lia.
Qed.

(** C10. For a pool of at least one worker, [import_parallel] hands back
    one result per task, in the order of the task list: the i-th result
    carries the name, the timestamp and the label of the i-th task.  It
    does hand back a result list whenever the importer's output of every
    task is UTF-8 and the labelling of every task succeeds.  For N scenes
    with K band paths each, the list has N times K results. *)
Theorem C10_results_aligned :
  forall w tasks n s,
    1 <= n ->
    (forall results s',
       import_parallel w tasks n s = (Ok results, s') ->
       length results = length tasks /\
       forall i t r,
         nth_error tasks i = Some t -> nth_error results i = Some r ->
         i_name r = p_name t /\ i_datetime r = p_datetime t /\
         i_band r = p_semantic_label t) /\
    ((forall t, In t tasks ->
                decodes w (GISRC s) t = true /\ labels_ok w (GISRC s) t) ->
     exists results s', import_parallel w tasks n s = (Ok results, s')) /\
    (forall scenes ram s0 K results s',
       build_import_list scenes ram s0 = (Ok tasks, s) ->
       (forall sd, In sd scenes -> length (sd_band_paths sd) = K) ->
       import_parallel w tasks n s = (Ok results, s') ->
       length results = (length scenes * K)%nat).
Proof.
  intros w tasks n s Hn.
  assert (Hlen : forall results s',
             import_parallel w tasks n s = (Ok results, s') ->
             Forall2 (fun t r => fst (import_raster w (GISRC s) t) = Ok r)
                     tasks results).
  { intros results s' H. rewrite (import_parallel_run w tasks n s Hn) in H.
    inversion H as [[Hc Hs]]. apply collect_Ok in Hc.
    rewrite map_map in Hc. clear -Hc.
    revert results Hc. induction tasks as [| t tasks IH]; intros results Hc.
    - inversion Hc. constructor.
    - inversion Hc. subst. constructor; [assumption | apply IH; assumption]. }
  split; [| split].
  - intros results s' H. specialize (Hlen results s' H). split.
    + symmetry. exact (Forall2_length Hlen).
    + intros i t r Ht Hr.
      pose proof (Forall2_nth_error _ _ _ Hlen i t r Ht Hr) as Hv.
      apply import_raster_value in Hv. tauto.
  - intro Hlab. rewrite (import_parallel_run w tasks n s Hn).
    destruct (collect_total (map fst (map (import_raster w (GISRC s)) tasks)))
      as [out Hout].
    + rewrite map_map. apply Forall_forall. intros r Hin.
      apply in_map_iff in Hin. destruct Hin as (t & <- & Hin).
      destruct (Hlab t Hin) as [Hd Hl]. apply import_raster_returns; assumption.
    + rewrite Hout. eexists. eexists. reflexivity.
  - intros scenes ram s0 K results s' Hb HK H.
    specialize (Hlen results s' H). rewrite <- (Forall2_length Hlen).
    unfold build_import_list in Hb.
    apply (build_import_list_length scenes ram K HK) in Hb. simpl in Hb. exact Hb.
Qed.

Lemma C10_results_aligned_witness :
  let t1 := {| p_input := "/a/x_FRE_B4.tif"; p_name := "x_FRE_B4"; p_memory := 100;
               p_semantic_label := "S2_B4";
               p_datetime := mkdatetime (mkdate 2022 7 1) 10 30 21 |} in
  let t2 := {| p_input := "/a/x_FRE_B8.tif"; p_name := "x_FRE_B8"; p_memory := 100;
               p_semantic_label := "S2_B8";
               p_datetime := mkdatetime (mkdate 2022 7 1) 10 30 21 |} in
  exists results s',
    import_parallel Sample.bonn [t1; t2] 3 (initial_state "rc") = (Ok results, s') /\
    length results = 2%nat.
Proof.
  intros t1 t2.
  destruct (proj1 (proj2 (C10_results_aligned Sample.bonn [t1; t2] 3
                            (initial_state "rc") ltac:(lia))))
    as (results & s' & H).
  - intros t [<- | [<- | []]]; (split; [reflexivity | unfold labels_ok; simpl; discriminate]).
  - exists results, s'. split; [exact H |].
    exact (proj1 (proj1 (C10_results_aligned Sample.bonn [t1; t2] 3
                           (initial_state "rc") ltac:(lia)) results s' H)).
Defined.

(** ** The registration file *)

Lemma retained_iff r :
  retained r = true <-> i_map_empty r = false \/ i_band r = "S2_CLM".
Proof.
  unfold retained. rewrite orb_true_iff, negb_true_iff, String.eqb_eq. tauto.
Qed.

Lemma concat_empty_cons (x : string) (l : list string) :
  String.concat "" (x :: l) = x ++ String.concat "" l.
Proof.
  destruct l as [| y l]; simpl.
  - symmetry. apply str_app_nil_r.
  - reflexivity.
Qed.

Lemma write_registration_run results :
  forall written s,
  exists s',
    for_fold results written register_item s =
    (Ok (written ++ String.concat "" (map registration_line (filter retained results))),
     s') /\
    rm_rasters s' =
      (rm_rasters s ++
       map i_name (filter (fun r => negb (retained r)) results))%list /\
    trace s' = trace s /\ GISRC s' = GISRC s /\ rm_vectors s' = rm_vectors s /\
    TMPLOC s' = TMPLOC s /\ SRCGISRC s' = SRCGISRC s /\
    TGTGISRC s' = TGTGISRC s /\ GISDBASE s' = GISDBASE s /\
    tmp_count s' = tmp_count s.
Proof.
  induction results as [| r results IH]; intros written s.
  - exists s. simpl. unfold ret. rewrite str_app_nil_r, app_nil_r.
    repeat split; reflexivity.
  - simpl for_fold. simpl filter. unfold register_item at 1.
    change (negb (i_map_empty r) || (i_band r =? "S2_CLM")%string) with (retained r).
    destruct (retained r) eqn:E; simpl negb; cbv iota.
    + destruct (IH (written ++ registration_line r) s) as (s' & Hrun & Hrest).
      exists s'. split; [| exact Hrest].
      unfold bind at 1. unfold ret at 1.
      change (i_name r ++ "|" ++ PyDate.strftime_ymd_hms (i_datetime r) ++ nl)
        with (registration_line r).
      rewrite Hrun. f_equal. f_equal.
      rewrite str_app_assoc. f_equal. simpl map. symmetry.
      apply concat_empty_cons.
    + destruct (IH written (set_rm_rasters (rm_rasters s ++ [i_name r]) s))
        as (s' & Hrun & Hrm & Hrest).
      exists s'. split; [| split; [| exact Hrest]].
      * unfold bind, gets, modify, ret. simpl. exact Hrun.
      * rewrite Hrm. simpl. rewrite <- app_assoc. reflexivity.
Qed.

(** ** Relations that every step of a computation keeps *)

Section Steps.
Context (R : state -> state -> Prop) {R_pre : PreOrder R}.

Lemma steps_ret {A : Type} (a : A) : steps R (ret a).
Proof. intro s. reflexivity. Qed.

Lemma steps_fatal {A : Type} msg : steps R (@fatal A msg).
Proof. intro s. reflexivity. Qed.

Lemma steps_raise {A : Type} e : steps R (@raise A e).
Proof. intro s. reflexivity. Qed.

Lemma steps_gets {A : Type} (f : state -> A) : steps R (gets f).
Proof. intro s. reflexivity. Qed.

Lemma steps_of_option {A : Type} (o : option A) e : steps R (of_option o e).
Proof. destruct o; [apply steps_ret | apply steps_raise]. Qed.

Lemma steps_bind {A B : Type} (c : M A) (k : A -> M B) :
  steps R c -> (forall a, steps R (k a)) -> steps R (bind c k).
Proof.
  intros Hc Hk s. unfold bind. specialize (Hc s).
  destruct (c s) as [[a | msg | e] s1]; simpl in *.
  - transitivity s1; [exact Hc | apply Hk].
  - exact Hc.
  - exact Hc.
Qed.

Lemma steps_for_each {A : Type} (l : list A) (body : A -> M unit) :
  (forall x, steps R (body x)) -> steps R (for_each l body).
Proof.
  intro Hb. induction l as [| x l IH]; simpl.
  - apply steps_ret.
  - apply steps_bind; [apply Hb | intros _; exact IH].
Qed.

Lemma steps_for_fold {A B : Type} (l : list A) (body : B -> A -> M B) :
  (forall acc x, steps R (body acc x)) ->
  forall acc, steps R (for_fold l acc body).
Proof.
  intro Hb. induction l as [| x l IH]; intro acc; simpl.
  - apply steps_ret.
  - apply steps_bind; [apply Hb | intro acc'; apply IH].
Qed.
End Steps.

Lemma steps_conj {A : Type} (R1 R2 : state -> state -> Prop) (c : M A) :
  steps R1 c -> steps R2 c -> steps (fun s s' => R1 s s' /\ R2 s s') c.
Proof. intros H1 H2 s. split; [apply H1 | apply H2]. Qed.

Lemma appends_refl P s : appends P s s.
Proof. exists []. split; [symmetry; apply app_nil_r | constructor]. Qed.

Lemma appends_trans P a b c : appends P a b -> appends P b c -> appends P a c.
Proof.
  intros (e1 & H1 & F1) (e2 & H2 & F2). exists (e1 ++ e2)%list. split.
  - rewrite H2, H1. symmetry. apply app_assoc.
  - apply Forall_app. split; assumption.
Qed.

#[export] Instance appends_pre P : PreOrder (appends P).
Proof. split; [exact (appends_refl P) | exact (appends_trans P)]. Qed.

Lemma appends_weaken (P Q : event -> Prop) s s' :
  (forall e, P e -> Q e) -> appends P s s' -> appends Q s s'.
Proof.
  intros HPQ (evs & H & F). exists evs. split; [exact H |].
  eapply Forall_impl; [exact HPQ | exact F].
Qed.

Lemma appends_event (P : event -> Prop) e s : P e -> appends P s (add_event e s).
Proof. intro H. exists [e]. split; [reflexivity | constructor; [exact H | constructor]]. Qed.

Lemma appends_same_trace (P : event -> Prop) s s' :
  trace s' = trace s -> appends P s s'.
Proof. intro H. exists []. split; [rewrite H; symmetry; apply app_nil_r | constructor]. Qed.

#[export] Instance same_pre {X : Type} (f : state -> X) : PreOrder (same f).
Proof. split; unfold same; [intro s; reflexivity | intros a b c; congruence]. Qed.

#[export] Instance keeps_globals_pre : PreOrder keeps_globals.
Proof.
  split.
  - intro s. repeat split.
  - intros a b c. unfold keeps_globals. intuition congruence.
Qed.

#[export] Instance only_trace_pre : PreOrder only_trace.
Proof.
  split.
  - intro s. split; reflexivity.
  - intros a b c [H1 H2] [H3 H4]. split; [congruence | now transitivity b].
Qed.

Lemma only_trace_event e s : only_trace s (add_event e s).
Proof. repeat split. Qed.

#[export] Instance prefix_of_pre : PreOrder prefix_of.
Proof. unfold prefix_of. apply appends_pre. Qed.

Lemma prefix_In e s s' : prefix_of s s' -> In e (trace s) -> In e (trace s').
Proof. intros (evs & H & _) Hin. rewrite H. apply in_or_app. left. exact Hin. Qed.

Lemma appends_prefix P s s' : appends P s s' -> prefix_of s s'.
Proof. apply appends_weaken. auto. Qed.

(** The primitives *)

Lemma steps_emit_appends (P : event -> Prop) e : P e -> steps (appends P) (emit e).
Proof. intros H s. apply appends_event. exact H. Qed.

Lemma steps_modify_appends (P : event -> Prop) f :
  (forall s, trace (f s) = trace s) -> steps (appends P) (modify f).
Proof. intros H s. apply appends_same_trace. apply H. Qed.

Lemma steps_emit_only_trace e : steps only_trace (emit e).
Proof. intro s. apply only_trace_event. Qed.

Lemma steps_emit_keeps e : steps keeps_globals (emit e).
Proof. intro s. repeat split. Qed.

Lemma steps_set_GISRC_keeps v : steps keeps_globals (modify (set_GISRC v)).
Proof. intro s. repeat split. Qed.

(** Break a goal [steps R c] down along the structure of [c]; [prim]
    closes the primitive steps. *)
Ltac steps_tac prim :=
  repeat first
    [ prim
    | apply steps_ret; exact _
    | apply steps_gets; exact _
    | apply steps_of_option; exact _
    | apply steps_fatal; exact _
    | apply steps_raise; exact _
    | apply steps_bind; [exact _ | | intro]
    | apply steps_for_each; [exact _ | intro]
    | apply steps_for_fold; [exact _ | intros ? ?]
    | match goal with
      | |- steps _ (if ?b then _ else _) => destruct b
      | |- steps _ (match ?x with _ => _ end) => destruct x
      end ].

Lemma steps_parse_command (P : event -> Prop) w prog args :
  (forall g, P (EvModule g prog args)) ->
  steps (appends P) (parse_command w prog args).
Proof.
  intro H. unfold parse_command. steps_tac ltac:(apply steps_emit_appends; apply H).
Qed.

Lemma steps_run_command (P : event -> Prop) w prog args :
  (forall g, P (EvModule g prog args)) ->
  steps (appends P) (run_command w prog args).
Proof.
  intro H. unfold run_command. steps_tac ltac:(apply steps_parse_command; exact H).
Qed.

Lemma steps_parse_command_only_trace w prog args :
  steps only_trace (parse_command w prog args).
Proof. unfold parse_command. steps_tac ltac:(apply steps_emit_only_trace). Qed.

Lemma steps_run_command_only_trace w prog args :
  steps only_trace (run_command w prog args).
Proof.
  unfold run_command. steps_tac ltac:(apply steps_parse_command_only_trace).
Qed.

Lemma steps_listdir (P : event -> Prop) w path :
  P (EvListdir path) -> steps (appends P) (listdir w path).
Proof.
  intro H. unfold listdir. steps_tac ltac:(apply steps_emit_appends; exact H).
Qed.

Lemma steps_listdir_only_trace w path : steps only_trace (listdir w path).
Proof. unfold listdir. steps_tac ltac:(apply steps_emit_only_trace). Qed.

(** ** Teardown *)

Lemma run_command_Ok w prog args s u s' :
  run_command w prog args s = (Ok u, s') ->
  s' = add_event (EvModule (GISRC s) prog args) s.
Proof.
  unfold run_command, parse_command, bind, gets, emit, modify, ret. simpl.
  destruct (w_module w (GISRC s) prog args); simpl; intro H; inversion H.
  reflexivity.
Qed.

Lemma remove_loop w (type : string) (l : list string) :
  forall s s',
    for_each l (fun v =>
      g <- gets GISRC ;;
      if w_find_file w g type v
      then run_command w "g.remove"
             [("type", type); ("name", v); ("flags", "f"); ("quiet", "True")]
      else ret tt) s = (Ok tt, s') ->
    only_trace s s' /\ prefix_of s s' /\
    forall name, In name l -> w_find_file w (GISRC s) type name = true ->
                 In (g_remove (GISRC s) type name) (trace s').
Proof.
  induction l as [| v l IH]; intros s s' H; simpl in H.
  - inversion H. subst. split; [reflexivity | split; [reflexivity | intros name []]].
  - run_inv H. unfold bind at 1, gets at 1 in Hstep.
    destruct (w_find_file w (GISRC s) type v) eqn:E.
    + apply run_command_Ok in Hstep. subst s0.
      apply IH in H. destruct H as (Ho & Hp & Hin). split; [| split].
      * transitivity (add_event (g_remove (GISRC s) type v) s);
          [apply only_trace_event | exact Ho].
      * transitivity (add_event (g_remove (GISRC s) type v) s);
          [apply appends_event; exact I | exact Hp].
      * intros name [-> | Hn] Hf.
        -- apply (prefix_In _ _ _ Hp). simpl. apply in_or_app. right. left. reflexivity.
        -- apply (Hin name Hn). exact Hf.
    + inversion Hstep. subst s0. apply IH in H. destruct H as (Ho & Hp & Hin).
      split; [exact Ho | split; [exact Hp |]].
      intros name [-> | Hn] Hf; [congruence | apply (Hin name Hn); exact Hf].
Qed.

Lemma cleanup_tail_prefix :
  steps prefix_of
    (tgt <- gets TGTGISRC ;;
     (if truthy tgt then modify (set_GISRC (str_of_global tgt)) else ret tt) ;;
     tmploc <- gets TMPLOC ;;
     (if truthy tmploc
      then gdb <- gets GISDBASE ;;
           base <- of_option gdb TypeError ;;
           emit (EvRmdir (OsPath.join base [str_of_global tmploc]))
      else ret tt) ;;
     src <- gets SRCGISRC ;;
     (if truthy src then emit (EvUnlink (str_of_global src)) else ret tt)).
Proof.
  steps_tac ltac:(first [ apply steps_emit_appends; exact I
                        | apply steps_modify_appends; reflexivity ]).
Qed.

Lemma cleanup_removes_rasters w s s' :
  cleanup w s = (Ok tt, s') ->
  forall name, In name (rm_rasters s) ->
               w_find_file w (GISRC s) "raster" name = true ->
               In (g_remove (GISRC s) "raster" name) (trace s').
Proof.
  unfold cleanup. intros H name Hin Hf.
  run_inv H. unfold gets in Hstep. inversion Hstep. subst a s0. clear Hstep.
  run_inv H. destruct a. apply remove_loop in Hstep. destruct Hstep as (Ho & _ & _).
  run_inv H. unfold gets in Hstep. inversion Hstep. subst a s1. clear Hstep.
  run_inv H. destruct a. apply remove_loop in Hstep. destruct Hstep as (_ & _ & Hrm).
  destruct Ho as (Hg & _ & Hrr & _).
  rewrite Hg in Hrm. rewrite Hrr in Hrm. specialize (Hrm name Hin Hf).
  pose proof (cleanup_tail_prefix s1) as Hp. rewrite H in Hp. simpl in Hp.
  exact (prefix_In _ _ _ Hp Hrm).
Qed.

(** C1. The loop that writes the registration file writes one line
    [name|YYYY-MM-DD HH:MM:SS] for every result that is not empty or is a
    cloud mask, in the order of the results, and nothing else; every
    other result has its name appended to [rm_rasters], and [cleanup]
    runs [g.remove] on every raster of [rm_rasters] that exists. *)
Theorem C1_retention_policy :
  forall results s,
  exists s',
    write_registration results s =
      (Ok (String.concat "" (map registration_line (filter retained results))), s') /\
    rm_rasters s' =
      (rm_rasters s ++ map i_name (filter (fun r => negb (retained r)) results))%list /\
    (forall r, retained r = true <-> i_map_empty r = false \/ i_band r = "S2_CLM") /\
    (forall r, In r results -> retained r = false -> In (i_name r) (rm_rasters s')) /\
    (forall r, registration_line r =
               i_name r ++ "|" ++ PyDate.strftime_ymd_hms (i_datetime r) ++ nl) /\
    (forall w s2 s3 name,
       cleanup w s2 = (Ok tt, s3) -> In name (rm_rasters s2) ->
       w_find_file w (GISRC s2) "raster" name = true ->
       In (g_remove (GISRC s2) "raster" name) (trace s3)).
Proof.
  intros results s.
  destruct (write_registration_run results "" s) as (s' & Hrun & Hrm & _).
  exists s'. split; [exact Hrun |]. split; [exact Hrm |].
  split; [exact retained_iff |]. split; [| split].
  - intros r Hin Hret. rewrite Hrm. apply in_or_app. right.
    apply in_map. apply filter_In. split; [exact Hin | now rewrite Hret].
  - reflexivity.
  - intros w s2 s3 name Hc Hin Hf. exact (cleanup_removes_rasters w s2 s3 Hc name Hin Hf).
Qed.

(** ** Date validation *)

Lemma below_forall (P : Z -> bool) (n : Z) :
  forallb P (below n) = true -> forall z, 0 <= z < n -> P z = true.
Proof.
  intros H z Hz. rewrite forallb_forall in H. apply H.
  unfold below. apply in_map_iff. exists (Z.to_nat z). split; [lia |].
  apply in_seq. lia.
Qed.

Lemma field_ok_2 n : 0 <= n < 100 -> field_ok 2 n = true.
Proof. apply (below_forall (field_ok 2) 100). vm_compute. reflexivity. Qed.

Lemma field_ok_4 n : 0 <= n < 10000 -> field_ok 4 n = true.
Proof. apply (below_forall (field_ok 4) 10000). vm_compute. reflexivity. Qed.

Lemma field_ok_inv width n :
  field_ok width n = true ->
  PyStr.has_char "-" (PyInt.zfill width n) = false /\
  PyInt.int (PyInt.zfill width n) = Some n.
Proof.
  unfold field_ok. intro H. apply andb_true_iff in H. destruct H as [H1 H2].
  apply negb_true_iff in H1. split; [exact H1 |].
  destruct (PyInt.int (PyInt.zfill width n)) as [k |]; [| discriminate H2].
  apply Z.eqb_eq in H2. now subst k.
Qed.

Lemma split_aux_piece (a rest cur : string) :
  PyStr.has_char "-" a = false ->
  PyStr.split_aux "-" 0 cur (a ++ String "-" rest) =
  (cur ++ a) :: PyStr.split_aux "-" 0 "" rest.
Proof.
  revert cur. induction a as [| c a IH]; intros cur Hno; simpl in *.
  - now rewrite str_app_nil_r.
  - apply orb_false_iff in Hno. destruct Hno as [Hc Ha].
    rewrite Hc. simpl. rewrite (IH _ Ha). rewrite str_app_assoc. reflexivity.
Qed.

Lemma split_aux_last (a cur : string) :
  PyStr.has_char "-" a = false -> PyStr.split_aux "-" 0 cur a = [cur ++ a].
Proof.
  revert cur. induction a as [| c a IH]; intros cur Hno; simpl in *.
  - now rewrite str_app_nil_r.
  - apply orb_false_iff in Hno. destruct Hno as [Hc Ha].
    rewrite Hc. simpl. rewrite (IH _ Ha). rewrite str_app_assoc. reflexivity.
Qed.

Lemma valid_bounds y m d :
  PyDate.valid y m d = true -> 1 <= y <= 9999 /\ 1 <= m <= 12 /\ 1 <= d <= 31.
Proof.
  unfold PyDate.valid. intro H.
  repeat (apply andb_true_iff in H; destruct H as [H ?]).
  repeat match goal with
         | H : (_ <=? _) = true |- _ => apply Z.leb_le in H
         end.
  assert (PyDate.days_in_month y m <= 31).
  { unfold PyDate.days_in_month.
    destruct m as [| p | p]; try lia.
    repeat (destruct p as [p | p |]; try lia);
      destruct (PyDate.is_leap y); lia. }
  lia.
Qed.

(** A date written by [strftime] reads back as itself. *)
Lemma parse_strftime (d : date) :
  valid_date d = true -> parse_ymd (PyDate.strftime_ymd d) = Some d.
Proof.
  destruct d as [y m dd]. unfold valid_date. simpl. intro Hv.
  destruct (valid_bounds y m dd Hv) as (Hy & Hm & Hd).
  destruct (field_ok_inv 4 y (field_ok_4 y ltac:(lia))) as [Ny Iy].
  destruct (field_ok_inv 2 m (field_ok_2 m ltac:(lia))) as [Nm Im].
  destruct (field_ok_inv 2 dd (field_ok_2 dd ltac:(lia))) as [Nd Id].
  unfold parse_ymd, PyDate.strftime_ymd, PyStr.split. simpl year. simpl month. simpl day.
  change (PyInt.zfill 4 y ++ "-" ++ PyInt.zfill 2 m ++ "-" ++ PyInt.zfill 2 dd)
    with (PyInt.zfill 4 y ++ String "-" (PyInt.zfill 2 m ++ String "-" (PyInt.zfill 2 dd))).
  rewrite (split_aux_piece _ _ _ Ny), (split_aux_piece _ _ _ Nm), (split_aux_last _ _ Nd).
  simpl map_opt. rewrite Iy, Im, Id. unfold PyDate.new. rewrite Hv. reflexivity.
Qed.

Lemma int_list_run s st :
  int_list s st = (match map_opt PyInt.int (PyStr.split "-" s) with
                     | Some l => Ok l
                     | None => Raise (ValueError s)
                     end, st).
Proof.
  unfold int_list. destruct (map_opt PyInt.int (PyStr.split "-" s)); reflexivity.
Qed.

Lemma date_of_list_run l d st :
  match l with
  | y :: m :: dd :: _ => PyDate.new y m dd
  | _ => None
  end = Some d ->
  date_of_list l st = (Ok d, st).
Proof.
  unfold date_of_list. destruct l as [| y [| m [| dd l]]]; try discriminate.
  intros ->. reflexivity.
Qed.

Lemma parse_ymd_inv s d :
  parse_ymd s = Some d ->
  exists l, map_opt PyInt.int (PyStr.split "-" s) = Some l /\
            match l with
            | y :: m :: dd :: _ => PyDate.new y m dd
            | _ => None
            end = Some d.
Proof.
  unfold parse_ymd. destruct (map_opt PyInt.int (PyStr.split "-" s)) as [l |];
    [| discriminate].
  intro H. exists l. split; [reflexivity |].
  destruct l as [| y [| m [| dd l]]]; try discriminate H. exact H.
Qed.

Lemma check_parsed w start end_ e st st1 start_date end_date :
  (if String.eqb end_ "today"
   then emit EvToday ;; ret (PyDate.strftime_ymd (w_today w))
   else ret end_) st = (Ok e, st1) ->
  parse_ymd start = Some start_date ->
  parse_ymd e = Some end_date ->
  check_start_end w start end_ st = (validation_outcome start_date end_date, st1).
Proof.
  intros Hres Hs He. unfold check_start_end.
  rewrite (bind_run _ _ _ _ _ Hres).
  destruct (parse_ymd_inv _ _ Hs) as (sl & Hsl & Hsd).
  destruct (parse_ymd_inv _ _ He) as (el & Hel & Hed).
  unfold bind at 1. rewrite int_list_run, Hsl.
  unfold bind at 1. rewrite int_list_run, Hel.
  unfold bind at 1. rewrite (date_of_list_run _ _ _ Hsd).
  unfold bind at 1. rewrite (date_of_list_run _ _ _ Hed).
  unfold validation_outcome.
  destruct (PyDate.lt end_date maja_date); [reflexivity |].
  destruct (PyDate.lt end_date start_date); reflexivity.
Qed.

(** C6. With the end of the range resolved (the sentinel [today] stands
    for the current date), validation ends in [grass.fatal] when the end
    is before 2015-07-01 and when the end is before the start, and
    otherwise answers the two dates as read. *)
Theorem C6_date_validation :
  forall w start end_ s start_date end_date,
    valid_date (w_today w) = true ->
    parse_ymd start = Some start_date ->
    resolved_end w end_ = Some end_date ->
    (PyDate.lt end_date maja_date = true ->
     exists msg, fst (check_start_end w start end_ s) = Fatal msg) /\
    (PyDate.lt end_date start_date = true ->
     exists msg, fst (check_start_end w start end_ s) = Fatal msg) /\
    (PyDate.lt end_date maja_date = false ->
     PyDate.lt end_date start_date = false ->
     fst (check_start_end w start end_ s) = Ok (start_date, end_date)) /\
    maja_date = mkdate 2015 7 1.
Proof.
  intros w start end_ s start_date end_date Hv Hs He.
  assert (Hrun : exists s1,
             check_start_end w start end_ s =
             (validation_outcome start_date end_date, s1)).
  { unfold resolved_end in He. destruct (String.eqb end_ "today") eqn:E.
    - inversion He. subst end_date. eexists.
      apply (check_parsed w start end_ (PyDate.strftime_ymd (w_today w))).
      + rewrite E. reflexivity.
      + exact Hs.
      + apply parse_strftime. exact Hv.
    - eexists. apply (check_parsed w start end_ end_).
      + rewrite E. reflexivity.
      + exact Hs.
      + exact He. }
  destruct Hrun as [s1 Hrun]. rewrite Hrun. unfold validation_outcome. simpl.
  split; [| split; [| split]].
  - intros ->. eexists. reflexivity.
  - intros ->. destruct (PyDate.lt end_date maja_date); eexists; reflexivity.
  - intros -> ->. reflexivity.
  - reflexivity.
Qed.

Lemma C6_date_validation_witness :
  (exists msg, fst (check_start_end Sample.bonn "2014-01-01" "2015-06-30"
                      (initial_state "rc")) = Fatal msg) /\
  (exists msg, fst (check_start_end Sample.bonn "2027-01-01" "today"
                      (initial_state "rc")) = Fatal msg) /\
  fst (check_start_end Sample.bonn "2022-07-01" "2022-07-15" (initial_state "rc")) =
  Ok (mkdate 2022 7 1, mkdate 2022 7 15).
Proof.
  split; [| split].
  - apply (proj1 (C6_date_validation Sample.bonn "2014-01-01" "2015-06-30"
                    (initial_state "rc") (mkdate 2014 1 1) (mkdate 2015 6 30)
                    eq_refl eq_refl eq_refl)).
    reflexivity.
  - apply (proj1 (proj2 (C6_date_validation Sample.bonn "2027-01-01" "today"
                           (initial_state "rc") (mkdate 2027 1 1) (mkdate 2026 11 5)
                           eq_refl eq_refl eq_refl))).
    reflexivity.
  - apply (proj1 (proj2 (proj2 (C6_date_validation Sample.bonn "2022-07-01" "2022-07-15"
                                  (initial_state "rc") (mkdate 2022 7 1) (mkdate 2022 7 15)
                                  eq_refl eq_refl eq_refl)))); reflexivity.
Defined.

(** ** Resource negotiation *)

Lemma free_budget_finite w free :
  free_budget w = Some free ->
  is_finite (PyFloat.of_int (w_mem_available w + w_swap_free w)) = true.
Proof.
  unfold free_budget.
  destruct (PyFloat.of_int (w_mem_available w + w_swap_free w)) as [b | b | | b m e];
    try reflexivity.
  - destruct b; vm_compute; discriminate.
  - vm_compute; discriminate.
Qed.

Lemma freeRAM_MB w s free :
  free_budget w = Some free ->
  freeRAM w "MB" 100 s = (Ok free, add_event EvSwapMemory (add_event EvVirtualMemory s)).
Proof.
  intro H. pose proof (free_budget_finite w free H) as Hf.
  unfold freeRAM. unfold bind, emit, modify. cbv beta iota.
  rewrite Hf. unfold ret. cbv beta iota.
  change (String.eqb "MB" "MB") with true. cbv beta iota.
  unfold free_budget in H. rewrite H. reflexivity.
Qed.

Lemma test_nprocs_memory_run w opts s nprocs memory free :
  PyInt.int (opt_nprocs opts) = Some nprocs ->
  PyInt.int (opt_memory opts) = Some memory ->
  free_budget w = Some free ->
  exists s',
    test_nprocs_memory w opts s =
      (Ok (if nprocs =? -2 then w_cpu_count w - 1 else w_cpu_count w,
           Z.min memory free), s') /\
    trace s' =
      (trace s ++ negotiation_events nprocs (w_cpu_count w) memory free)%list /\
    only_trace s s'.
Proof.
  intros Hn Hm Hf. unfold test_nprocs_memory, negotiation_events.
  rewrite Hn, Hm. unfold of_option. unfold bind at 1. unfold ret at 1.
  assert (Hmin : Z.min memory free = if free <? memory then free else memory).
  { destruct (free <? memory) eqn:E;
      [apply Z.ltb_lt in E | apply Z.ltb_ge in E]; lia. }
  rewrite Hmin.
  destruct (nprocs =? -2) eqn:E2; simpl negb; simpl andb.
  - unfold bind, emit, modify, ret. simpl.
    rewrite (freeRAM_MB w _ free Hf).
    destruct (free <? memory); simpl; eexists; split; try reflexivity;
      simpl; rewrite <- !app_assoc; split; try reflexivity; repeat split.
  - destruct (w_cpu_count w <? nprocs) eqn:E3;
      unfold bind, emit, modify, ret; simpl;
      rewrite (freeRAM_MB w _ free Hf);
      destruct (free <? memory); simpl; eexists; split; try reflexivity;
      simpl; rewrite <- !app_assoc; split; try reflexivity; repeat split.
Qed.

(** C5. The script at the inputs where it leaves the contract.  With the
    default request of [-2] on a host with one core, negotiation answers
    with no process at all, where the contract says [max(available - 1,
    1)], which is one; [main] then divides the memory by zero and ends
    in an exception.  With a request for two processes on a host with
    four cores, negotiation answers with four, and the pool is started
    with four. *)
Theorem C5_negotiation_defect :
  (fst (test_nprocs_memory (Sample.the_world ["32ULB"] 1) Sample.july (initial_state "rc")) =
     Ok (0, 300) /\
   Z.max (w_cpu_count (Sample.the_world ["32ULB"] 1) - 1) 1 = 1 /\
   fst (main (Sample.the_world ["32ULB"] 1) Sample.july (initial_state "rc")) =
     Raise ZeroDivisionError) /\
  (PyInt.int (opt_nprocs (Sample.the_options "2022-07-01" "2022-07-15" "2")) = Some 2 /\
   fst (test_nprocs_memory Sample.bonn (Sample.the_options "2022-07-01" "2022-07-15" "2")
          (initial_state "rc")) = Ok (4, 300) /\
   exists runs,
     In (EvPool 4 runs)
        (trace (snd (main Sample.bonn (Sample.the_options "2022-07-01" "2022-07-15" "2")
                       (initial_state "rc"))))).
Proof.
  split; [split; [| split] | split; [| split]]; try (vm_compute; reflexivity).
  eexists. vm_compute. do 42 (try (left; reflexivity); right).
Qed.

(** ** Tile resolution and the working context *)

Lemma keeps_of_only_trace s s' : only_trace s s' -> keeps_globals s s'.
Proof. intros [_ H]. exact H. Qed.

Lemma steps_weaken {A : Type} (R1 R2 : state -> state -> Prop) (c : M A) :
  (forall s s', R1 s s' -> R2 s s') -> steps R1 c -> steps R2 c.
Proof. intros H H1 s. apply H. apply H1. Qed.

Lemma steps_parse_command_keeps w prog args :
  steps keeps_globals (parse_command w prog args).
Proof.
  apply (steps_weaken only_trace); [exact keeps_of_only_trace |].
  apply steps_parse_command_only_trace.
Qed.

Lemma steps_run_command_keeps w prog args :
  steps keeps_globals (run_command w prog args).
Proof.
  apply (steps_weaken only_trace); [exact keeps_of_only_trace |].
  apply steps_run_command_only_trace.
Qed.

Ltac keeps_prim :=
  first [ apply steps_emit_keeps
        | apply steps_set_GISRC_keeps
        | apply steps_parse_command_keeps
        | apply steps_run_command_keeps ].

Ltac only_trace_prim :=
  first [ apply steps_emit_only_trace
        | apply steps_parse_command_only_trace
        | apply steps_run_command_only_trace
        | apply steps_listdir_only_trace ].

Lemma steps_reported_epsg (R : state -> state -> Prop) {HR : PreOrder R} proj :
  steps R (reported_epsg proj).
Proof. unfold reported_epsg. steps_tac fail. Qed.

(** Run the deterministic head of a sequence that is applied to a state. *)
Ltac run_head H :=
  unfold bind at 1 in H; cbv beta iota in H.

Lemma createTMPlocation_registers w epsg s r s' :
  createTMPlocation w epsg s = (r, s') ->
  SRCGISRC s' = Some (w_tempfile w (tmp_count s)) /\
  TMPLOC s' = Some (tmplocname w) /\
  rm_vectors s' = rm_vectors s /\ rm_rasters s' = rm_rasters s /\
  TGTGISRC s' = TGTGISRC s /\ GISDBASE s' = GISDBASE s.
Proof.
  unfold createTMPlocation. intro H.
  unfold bind at 1 in H. unfold tempfile at 1 in H. unfold bind at 1, gets at 1 in H.
  unfold bind at 1, modify at 1, ret at 1 in H.
  unfold bind at 1, modify at 1 in H. unfold bind at 1, modify at 1 in H.
  match type of H with
  | ?T ?s3 = _ =>
      assert (Hk : steps keeps_globals T)
        by (steps_tac ltac:(first [keeps_prim | apply steps_reported_epsg; exact _]));
      specialize (Hk s3); rewrite H in Hk
  end.
  unfold keeps_globals in Hk. simpl in Hk.
  destruct Hk as (H1 & H2 & H3 & H4 & H5 & H6 & _).
  rewrite H1, H2, H3, H4, H5, H6. repeat split; reflexivity.
Qed.

Lemma parse_command_Ok w prog args s kv s' :
  parse_command w prog args s = (Ok kv, s') ->
  s' = add_event (EvModule (GISRC s) prog args) s /\
  w_module w (GISRC s) prog args = Some kv.
Proof.
  unfold parse_command, bind, gets, emit, modify, ret. simpl.
  destruct (w_module w (GISRC s) prog args); simpl; intro H; inversion H.
  split; reflexivity.
Qed.

(** Take the first step off a successful run; a step whose effect is
    determined is carried out. *)
Ltac ok_step H :=
  let a := fresh "a" in
  let s := fresh "s" in
  let Hs := fresh "Hs" in
  apply bind_Ok in H; destruct H as (a & s & Hs & H);
  first
    [ apply run_command_Ok in Hs; subst s
    | apply parse_command_Ok in Hs; destruct Hs as [-> Hs]
    | cbv beta iota delta [tempfile get_actual_location gets modify emit ret bind] in Hs;
      inversion Hs; subst a s; clear Hs
    | idtac ].

Lemma createTMPlocation_switches w epsg s u s' :
  createTMPlocation w epsg s = (Ok u, s') ->
  GISRC s' = w_tempfile w (tmp_count s).
Proof.
  unfold createTMPlocation. intro H.
  do 9 (ok_step H).
  match type of H with
  | ?T ?s3 = _ =>
      assert (Hk : steps only_trace T)
        by (steps_tac ltac:(first [only_trace_prim | apply steps_reported_epsg; exact _]));
      specialize (Hk s3); rewrite H in Hk
  end.
  destruct Hk as [Hg _]. simpl in Hg. exact Hg.
Qed.

Lemma run_command_run w prog args s kv :
  w_module w (GISRC s) prog args = Some kv ->
  run_command w prog args s = (Ok tt, add_event (EvModule (GISRC s) prog args) s).
Proof.
  intro H. unfold run_command, parse_command, bind, gets, emit, modify, ret. simpl.
  rewrite H. reflexivity.
Qed.

Lemma get_utmcells_restores w opts s tiles s' :
  get_utmcells w opts s = (Ok tiles, s') -> GISRC s' = GISRC s.
Proof.
  unfold get_utmcells. intro H.
  do 4 (ok_step H). cbv beta iota in H.
  ok_step H. apply createTMPlocation_registers in Hs.
  destruct Hs as (_ & _ & _ & _ & Htgt & _). simpl in Htgt.
  do 4 (ok_step H). ok_step H. ok_step H.
  inversion H. simpl. rewrite Htgt. reflexivity.
Qed.

(** Rewriting rules that carry out the steps whose effect is determined *)

Lemma bind_ret {A B : Type} (a : A) (k : A -> M B) s : bind (ret a) k s = k a s.
Proof. reflexivity. Qed.

Lemma bind_gets {A B : Type} (f : state -> A) (k : A -> M B) s :
  bind (gets f) k s = k (f s) s.
Proof. reflexivity. Qed.

Lemma bind_modify {B : Type} f (k : unit -> M B) s :
  bind (modify f) k s = k tt (f s).
Proof. reflexivity. Qed.

Lemma bind_emit {B : Type} e (k : unit -> M B) s :
  bind (emit e) k s = k tt (add_event e s).
Proof. reflexivity. Qed.

Lemma bind_tempfile {B : Type} w (k : string -> M B) s :
  bind (tempfile w) k s = k (w_tempfile w (tmp_count s)) (set_tmp_count (S (tmp_count s)) s).
Proof. reflexivity. Qed.

Lemma bind_get_actual_location {B : Type} w (k : string * string -> M B) s :
  bind (get_actual_location w) k s =
  k (LOCATION_NAME (w_gisenv w (GISRC s)), MAPSET (w_gisenv w (GISRC s)))
    (set_TGTGISRC (Some (GISRC s))
       (set_GISDBASE (Some (env_GISDBASE (w_gisenv w (GISRC s)))) s)).
Proof. reflexivity. Qed.

Create Rewrite HintDb run.

#[export] Hint Rewrite @bind_ret @bind_gets @bind_modify @bind_emit
  @bind_tempfile @bind_get_actual_location : run.

(** Whatever the outcome of tile resolution, once the region vector is
    written everything transient is known to [cleanup]. *)
Lemma get_utmcells_registers w opts s r s' :
  get_utmcells w opts s = (r, s') ->
  region_saved w s -> registered_for_teardown w s s'.
Proof.
  unfold get_utmcells, region_saved. intros H Hreg.
  change ("tmp_region_utmgrid_" ++ PyInt.str (w_getpid w)) with (tmpregionname w) in *.
  destruct (w_module w (GISRC s) "v.in.region"
              [("output", tmpregionname w); ("quiet", "True")]) as [kv |] eqn:E;
    [clear Hreg | exfalso; apply Hreg; reflexivity].
  unfold bind at 1 in H. rewrite (run_command_run _ _ _ _ _ E) in H.
  autorewrite with run in H. cbv beta iota zeta in H.
  unfold bind at 1 in H.
  match type of H with
  | context [createTMPlocation w 4326 ?s3] =>
      destruct (createTMPlocation w 4326 s3) as [r4 s4] eqn:E4
  end.
  apply createTMPlocation_registers in E4. simpl in E4.
  destruct E4 as (Hsrc & Htmp & Hrv & _ & Htgt & Hgdb).
  assert (Hs4 : registered_for_teardown w s s4).
  { unfold registered_for_teardown. rewrite Hsrc, Htmp, Hrv, Htgt, Hgdb.
    repeat split. apply in_or_app. right. left. reflexivity. }
  destruct r4 as [u | msg | e]; try (inversion H; subst; exact Hs4).
  match type of H with
  | ?T ?s3 = _ =>
      assert (Hk : steps keeps_globals T)
        by (steps_tac ltac:(keeps_prim));
      specialize (Hk s3); rewrite H in Hk
  end.
  unfold keeps_globals in Hk. simpl in Hk.
  destruct Hk as (H1 & _ & H3 & H4 & H5 & H6 & _).
  unfold registered_for_teardown in *. rewrite H1, H3, H4, H5, H6. exact Hs4.
Qed.

(** ** What each function of the script does to the state *)

Ltac appends_prim :=
  first [ apply steps_emit_appends; simpl; tauto
        | apply steps_modify_appends; reflexivity
        | apply steps_run_command; intro; simpl; tauto
        | apply steps_parse_command; intro; simpl; tauto
        | apply steps_listdir; exact I
        | apply steps_reported_epsg; exact _ ].

Lemma check_start_end_only_trace w start end_ :
  steps only_trace (check_start_end w start end_).
Proof.
  unfold check_start_end, int_list, date_of_list. cbv zeta.
  steps_tac only_trace_prim.
Qed.

Lemma check_start_end_appends w start end_ :
  steps (appends is_validation) (check_start_end w start end_).
Proof.
  unfold check_start_end, int_list, date_of_list. cbv zeta.
  steps_tac ltac:(apply steps_emit_appends; reflexivity).
Qed.

Lemma get_utmcells_appends w opts : steps (appends is_browsing) (get_utmcells w opts).
Proof.
  unfold get_utmcells, createTMPlocation, get_actual_location. cbv zeta.
  steps_tac appends_prim.
Qed.

Lemma browse_scene_appends w collection ff clm bfs day_path scene :
  steps (appends is_browsing) (browse_scene w collection ff clm bfs day_path scene).
Proof. unfold browse_scene, browse_band. cbv zeta. steps_tac appends_prim. Qed.

Lemma browse_scene_only_trace w collection ff clm bfs day_path scene :
  steps only_trace (browse_scene w collection ff clm bfs day_path scene).
Proof. unfold browse_scene, browse_band. cbv zeta. steps_tac only_trace_prim. Qed.

Lemma browse_day_appends w collection ff clm tiles bfs mp y m d sd ed acc :
  steps (appends is_browsing)
        (browse_day w collection ff clm tiles bfs mp y m d sd ed acc).
Proof.
  unfold browse_day, browse_candidate. cbv zeta.
  steps_tac ltac:(first [appends_prim | apply browse_scene_appends]).
Qed.

Lemma browse_day_only_trace w collection ff clm tiles bfs mp y m d sd ed acc :
  steps only_trace (browse_day w collection ff clm tiles bfs mp y m d sd ed acc).
Proof.
  unfold browse_day, browse_candidate. cbv zeta.
  steps_tac ltac:(first [only_trace_prim | apply browse_scene_only_trace]).
Qed.

Lemma browse_archive_appends w collection ff clm tiles bfs base sd ed :
  steps (appends is_browsing) (browse_archive w collection ff clm tiles bfs base sd ed).
Proof.
  unfold browse_archive, browse_year, browse_month. cbv zeta.
  steps_tac ltac:(first [appends_prim | apply browse_day_appends]).
Qed.

Lemma browse_archive_only_trace w collection ff clm tiles bfs base sd ed :
  steps only_trace (browse_archive w collection ff clm tiles bfs base sd ed).
Proof.
  unfold browse_archive, browse_year, browse_month. cbv zeta.
  steps_tac ltac:(first [only_trace_prim | apply browse_day_only_trace]).
Qed.

Lemma browse_appends w opts collection bands mountpoint sd ed :
  steps (appends is_browsing)
        (browse_eolab_collection w opts collection bands mountpoint sd ed).
Proof.
  unfold browse_eolab_collection. cbv zeta.
  steps_tac ltac:(first [appends_prim | apply browse_archive_appends
                        | apply get_utmcells_appends]).
Qed.

(** A successful browse is a successful tile resolution followed by a
    successful traversal. *)
Lemma browse_anatomy w opts collection bands mountpoint sd ed s scenes s' :
  browse_eolab_collection w opts collection bands mountpoint sd ed s = (Ok scenes, s') ->
  collection = "S2-L2A-MAJA" /\
  exists tiles s1,
    get_utmcells w opts s = (Ok tiles, s1) /\
    browse_archive w collection ".tif" "MASKS" (Some tiles)
      (requested_suffixes (bands_filesuffixes maja) bands)
      (OsPath.join mountpoint [basepath maja]) sd ed s1 = (Ok scenes, s').
Proof.
  unfold browse_eolab_collection. intro H.
  ok_step H. apply of_option_Ok in Hs. destruct Hs as [Hd ->].
  unfold eolab_collection_params, dict_get in Hd.
  destruct (String.eqb_spec collection "S2-L2A-MAJA") as [-> | Hne];
    [| discriminate Hd].
  inversion Hd. subst a. clear Hd. split; [reflexivity |].
  cbv zeta in H.
  change (String.eqb (tile_system maja) "MGRS") with true in H. cbv iota in H.
  ok_step H. ok_step Hs. inversion Hs. subst a s0. clear Hs.
  eexists. eexists. split; [eassumption | exact H].
Qed.

Lemma browse_restores w opts collection bands mountpoint sd ed s scenes s' :
  browse_eolab_collection w opts collection bands mountpoint sd ed s = (Ok scenes, s') ->
  GISRC s' = GISRC s.
Proof.
  intro H. apply browse_anatomy in H. destruct H as (_ & tiles & s1 & Ht & Ha).
  apply get_utmcells_restores in Ht. rewrite <- Ht.
  pose proof (browse_archive_only_trace w collection ".tif" "MASKS" (Some tiles)
                (requested_suffixes (bands_filesuffixes maja) bands)
                (OsPath.join mountpoint [basepath maja]) sd ed s1) as Ho.
  rewrite Ha in Ho. destruct Ho as [Hg _]. exact Hg.
Qed.

Lemma freeRAM_only_trace w u p : steps only_trace (freeRAM w u p).
Proof. unfold freeRAM. cbv zeta. steps_tac only_trace_prim. Qed.

Lemma freeRAM_appends w u p : steps (appends is_negotiation) (freeRAM w u p).
Proof. unfold freeRAM. cbv zeta. steps_tac ltac:(apply steps_emit_appends; exact I). Qed.

Lemma test_nprocs_memory_only_trace w opts : steps only_trace (test_nprocs_memory w opts).
Proof.
  unfold test_nprocs_memory. cbv zeta.
  steps_tac ltac:(first [only_trace_prim | apply freeRAM_only_trace]).
Qed.

Lemma test_nprocs_memory_appends w opts :
  steps (appends is_negotiation) (test_nprocs_memory w opts).
Proof.
  unfold test_nprocs_memory. cbv zeta.
  steps_tac ltac:(first [apply steps_emit_appends; exact I | apply freeRAM_appends]).
Qed.

#[export] Instance unchanged_pre : PreOrder unchanged.
Proof. split; unfold unchanged; [intro s; reflexivity | intros a b c; congruence]. Qed.

Lemma build_import_list_unchanged scenes ram :
  steps unchanged (build_import_list scenes ram).
Proof. unfold build_import_list. steps_tac fail. Qed.

Lemma import_raster_under w g p :
  Forall (fun t => forall g', task_gisrc t = Some g' -> g' = g)
         (snd (import_raster w g p)).
Proof.
  rewrite import_raster_events.
  destruct (decodes w g p); [destruct (detects_empty w g p) |];
    repeat constructor; simpl; intros g' H; congruence.
Qed.

Lemma import_parallel_state w tasks n s :
  let s' := snd (import_parallel w tasks n s) in
  only_trace s s' /\
  appends (fun e => is_import e /\ pool_under (GISRC s) e) s s'.
Proof.
  unfold import_parallel. destruct (n <? 1).
  - simpl. split; reflexivity.
  - simpl. split; [apply only_trace_event |].
    apply appends_event. split; [exact I |].
    simpl. apply Forall_forall. intros run Hin.
    rewrite map_map in Hin. apply in_map_iff in Hin.
    destruct Hin as (p & <- & _). apply import_raster_under.
Qed.

Lemma register_item_appends P written item :
  steps (appends P) (register_item written item).
Proof.
  unfold register_item. cbv zeta.
  steps_tac ltac:(apply steps_modify_appends; reflexivity).
Qed.

Lemma register_item_GISRC written item :
  steps (same GISRC) (register_item written item).
Proof.
  unfold register_item. cbv zeta.
  steps_tac ltac:(intro s; reflexivity).
Qed.

(** ** The stages of a run *)

Lemma staged_nil stages : staged stages [].
Proof.
  induction stages as [| P stages IH]; simpl.
  - reflexivity.
  - exists [], []. split; [reflexivity | split; [constructor | exact IH]].
Qed.

Lemma staged_skip P stages evs : staged stages evs -> staged (P :: stages) evs.
Proof. intro H. exists [], evs. split; [reflexivity | split; [constructor | exact H]]. Qed.

Lemma staged_more P stages e1 evs :
  Forall P e1 -> staged (P :: stages) evs -> staged (P :: stages) (e1 ++ evs)%list.
Proof.
  intros H1 (e2 & e3 & -> & H2 & H3). exists (e1 ++ e2)%list, e3.
  split; [apply app_assoc | split; [apply Forall_app; split; assumption | exact H3]].
Qed.

Lemma ts_refl stages s : trace_staged stages s s.
Proof. exists []. split; [symmetry; apply app_nil_r | apply staged_nil]. Qed.

Lemma ts_skip P stages s s' :
  trace_staged stages s s' -> trace_staged (P :: stages) s s'.
Proof. intros (evs & H & Hs). exists evs. split; [exact H | apply staged_skip; exact Hs]. Qed.

Lemma ts_step P stages s s1 s' :
  appends P s s1 -> trace_staged (P :: stages) s1 s' -> trace_staged (P :: stages) s s'.
Proof.
  intros (e1 & H1 & F1) (evs & H & Hs). exists (e1 ++ evs)%list. split.
  - rewrite H, H1. symmetry. apply app_assoc.
  - apply staged_more; assumption.
Qed.

Lemma ts_done P stages s s' : appends P s s' -> trace_staged (P :: stages) s s'.
Proof. intro H. apply (ts_step P stages s s' s' H). apply ts_refl. Qed.

Lemma stage_bind {A B : Type} P stages (c : M A) (k : A -> M B) s :
  steps (appends P) c ->
  (forall a s1, c s = (Ok a, s1) -> trace_staged (P :: stages) s1 (snd (k a s1))) ->
  trace_staged (P :: stages) s (snd (bind c k s)).
Proof.
  intros Hc Hk. specialize (Hc s). unfold bind.
  destruct (c s) as [[a | msg | e] s1]; simpl in *.
  - apply (ts_step P stages s s1 _ Hc). apply Hk. reflexivity.
  - apply ts_done. exact Hc.
  - apply ts_done. exact Hc.
Qed.

Lemma only_trace_GISRC {A : Type} (c : M A) s r s1 :
  steps only_trace c -> c s = (r, s1) -> GISRC s1 = GISRC s.
Proof. intros H E. specialize (H s). rewrite E in H. exact (proj1 H). Qed.

Lemma main_tail_appends w (g output collection : string) maps_imported :
  steps (appends (fun e => is_import e /\ pool_under g e))
    (emit (EvMessage ("Creating STRDS " ++ output ++ " and registering bands...")) ;;
     run_command w "t.create"
       [("output", output); ("type", "strds");
        ("title", collection ++ "_" ++ output);
        ("description", collection ++ "_" ++ output)] ;;
     tmp_file <- tempfile w ;;
     written <- write_registration maps_imported ;;
     emit (EvWrite tmp_file written) ;;
     run_command w "t.register"
       [("input", output); ("type", "raster"); ("file", tmp_file)] ;;
     emit (EvUnlink tmp_file)).
Proof.
  unfold tempfile, write_registration.
  steps_tac ltac:(first
    [ apply steps_emit_appends; simpl; tauto
    | apply steps_modify_appends; reflexivity
    | apply steps_run_command; intro; simpl; tauto
    | apply register_item_appends ]).
Qed.

(** Every run of [main] goes through its stages in order. *)
Lemma main_staged w opts s0 :
  trace_staged (run_stages (GISRC s0)) s0 (snd (main w opts s0)).
Proof.
  unfold main, run_stages. cbv zeta.
  (* validation *)
  apply stage_bind; [apply check_start_end_appends |].
  intros [start_date end_date] s1 E1.
  pose proof (only_trace_GISRC _ _ _ _ (check_start_end_only_trace w _ _) E1) as G1.
  apply ts_skip.
  (* browsing *)
  apply stage_bind; [apply steps_emit_appends; reflexivity |].
  intros [] s2 E2. inversion E2 as [E2']. clear E2.
  apply stage_bind.
  { destruct (String.eqb (opt_archive opts) "eolab").
    - steps_tac ltac:(apply browse_appends).
    - apply steps_ret. exact _. }
  intros scenes s3 E3.
  assert (G3 : GISRC s3 = GISRC s0).
  { destruct (String.eqb (opt_archive opts) "eolab").
    - apply bind_Ok in E3. destruct E3 as (l & s3' & Hb & Hr).
      inversion Hr. subst. apply browse_restores in Hb. rewrite Hb. simpl. exact G1.
    - inversion E3. subst. simpl. exact G1. }
  apply stage_bind; [apply steps_of_option; exact _ |].
  intros scenes_to_import s4 E4. apply of_option_Ok in E4. destruct E4 as [_ ->].
  apply stage_bind.
  { destruct (length scenes_to_import =? 0)%nat;
      [apply steps_fatal | apply steps_ret]; exact _. }
  intros [] s5 E5.
  assert (s5 = s3) as ->.
  { destruct (length scenes_to_import =? 0)%nat; inversion E5. reflexivity. }
  clear E5. apply ts_skip.
  (* negotiation *)
  apply stage_bind; [apply test_nprocs_memory_appends |].
  intros [nprocs used_ram] s6 E6.
  pose proof (only_trace_GISRC _ _ _ _ (test_nprocs_memory_only_trace w opts) E6) as G6.
  apply stage_bind.
  { destruct (nprocs =? 0); [apply steps_raise | apply steps_ret]; exact _. }
  intros [] s7 E7.
  assert (s7 = s6) as ->.
  { destruct (nprocs =? 0); inversion E7. reflexivity. }
  clear E7.
  apply stage_bind; [apply steps_of_option; exact _ |].
  intros ram_per_proc s8 E8. apply of_option_Ok in E8. destruct E8 as [_ ->].
  apply ts_skip.
  (* import and assembly *)
  apply stage_bind; [apply steps_emit_appends; simpl; tauto |].
  intros [] s9 E9. inversion E9 as [E9']. clear E9.
  apply stage_bind.
  { apply (steps_weaken unchanged); [| apply build_import_list_unchanged].
    intros a b ->. reflexivity. }
  intros import_parallel_list s10 E10.
  assert (s10 = add_event (EvMessage "Importing bands...") s6) as ->.
  { pose proof (build_import_list_unchanged scenes_to_import ram_per_proc
                  (add_event (EvMessage "Importing bands...") s6)) as Hu.
    rewrite E10 in Hu. exact Hu. }
  unfold bind at 1.
  pose proof (import_parallel_state w import_parallel_list nprocs
                (add_event (EvMessage "Importing bands...") s6)) as [_ Hpool].
  simpl GISRC in Hpool. rewrite G6, G3 in Hpool.
  destruct (import_parallel w import_parallel_list nprocs
              (add_event (EvMessage "Importing bands...") s6))
    as [[maps_imported | msg | e] s11]; simpl in Hpool; cbv beta iota;
    try (apply ts_done; exact Hpool).
  apply (ts_step _ _ _ s11 _ Hpool). apply ts_done.
  apply main_tail_appends.
Qed.

Lemma staged_Forall (Q : event -> Prop) stages evs :
  Forall (fun P : event -> Prop => forall e, P e -> Q e) stages ->
  staged stages evs -> Forall Q evs.
Proof.
  intro HF. revert evs. induction HF as [| P stages HP _ IH]; intros evs H; simpl in H.
  - subst. constructor.
  - destruct H as (e1 & e2 & -> & H1 & H2). apply Forall_app. split.
    + eapply Forall_impl; [exact HP | exact H1].
    + apply IH. exact H2.
Qed.

Lemma staged_weaken_last (P Q : event -> Prop) stages evs :
  (forall e, P e -> Q e) ->
  staged (stages ++ [P]) evs -> staged (stages ++ [Q]) evs.
Proof.
  intro HPQ. revert evs. induction stages as [| R stages IH]; intros evs H; simpl in *.
  - destruct H as (e1 & e2 & -> & H1 & H2). exists e1, e2.
    split; [reflexivity | split; [| exact H2]].
    eapply Forall_impl; [exact HPQ | exact H1].
  - destruct H as (e1 & e2 & -> & H1 & H2). exists e1, e2.
    split; [reflexivity | split; [exact H1 | apply IH; exact H2]].
Qed.

Lemma cleanup_restores w s s' :
  cleanup w s = (Ok tt, s') ->
  truthy (TGTGISRC s) = true ->
  GISRC s' = str_of_global (TGTGISRC s).
Proof.
  unfold cleanup. intros H Ht.
  ok_step H. ok_step H. destruct a. apply remove_loop in Hs. destruct Hs as (Ho1 & _ & _).
  ok_step H. ok_step H. destruct a. apply remove_loop in Hs. destruct Hs as (Ho2 & _ & _).
  ok_step H.
  assert (Htgt : TGTGISRC s1 = TGTGISRC s).
  { destruct Ho1 as (_ & _ & _ & _ & _ & E1 & _).
    destruct Ho2 as (_ & _ & _ & _ & _ & E2 & _). congruence. }
  rewrite Htgt in H. rewrite Ht in H.
  ok_step H.
  match type of H with
  | ?T ?s3 = _ =>
      assert (Hk : steps (same GISRC) T)
        by (steps_tac ltac:(intro; reflexivity));
      specialize (Hk s3); rewrite H in Hk
  end.
  exact Hk.
Qed.

(** C9. Tile resolution hands the caller's [GISRC] back when it returns;
    whatever its outcome, once the region vector is written the vector,
    the transient location and its [GISRC] file are known to [cleanup],
    which goes back to the caller's [GISRC]; and every program of every
    import task of a run is started under the [GISRC] the run began
    with. *)
Theorem C9_context_restored :
  forall w opts s,
    (forall tiles s', get_utmcells w opts s = (Ok tiles, s') -> GISRC s' = GISRC s) /\
    (forall r s', get_utmcells w opts s = (r, s') -> region_saved w s ->
                  registered_for_teardown w s s') /\
    (forall s', cleanup w s = (Ok tt, s') -> truthy (TGTGISRC s) = true ->
                GISRC s' = str_of_global (TGTGISRC s)) /\
    (forall n runs task t g',
       trace s = [] ->
       In (EvPool n runs) (trace (snd (main w opts s))) ->
       In task runs -> In t task -> task_gisrc t = Some g' -> g' = GISRC s).
Proof.
  intros w opts s. split; [| split; [| split]].
  - intros tiles s' H. exact (get_utmcells_restores w opts s tiles s' H).
  - intros r s' H Hr. exact (get_utmcells_registers w opts s r s' H Hr).
  - intros s' H Ht. exact (cleanup_restores w s s' H Ht).
  - intros n runs task t g' Hnil Hin Htask Ht Hg.
    destruct (main_staged w opts s) as (evs & Htr & Hst).
    rewrite Hnil in Htr. simpl in Htr. rewrite Htr in Hin.
    assert (HF : Forall (pool_under (GISRC s)) evs).
    { apply (staged_Forall (pool_under (GISRC s)) (run_stages (GISRC s))); [| exact Hst].
      unfold run_stages. repeat constructor.
      - intros e ->. exact I.
      - intros [] He; simpl in *; try exact I; contradiction.
      - intros [] He; simpl in *; try exact I; contradiction.
      - intros e [_ He]. exact He. }
    rewrite Forall_forall in HF. specialize (HF _ Hin). simpl in HF.
    rewrite Forall_forall in HF. specialize (HF _ Htask).
    rewrite Forall_forall in HF. exact (HF _ Ht g' Hg).
Qed.

Lemma C9_context_restored_witness :
  exists tiles s',
    get_utmcells Sample.bonn Sample.july (initial_state "/home/u/.grassrc") =
      (Ok tiles, s') /\
    GISRC s' = "/home/u/.grassrc" /\
    registered_for_teardown Sample.bonn (initial_state "/home/u/.grassrc") s'.
Proof.
  eexists. eexists. split; [vm_compute; reflexivity |]. split.
  - eapply (proj1 (C9_context_restored Sample.bonn Sample.july
                     (initial_state "/home/u/.grassrc"))).
    vm_compute. reflexivity.
  - eapply (proj1 (proj2 (C9_context_restored Sample.bonn Sample.july
                            (initial_state "/home/u/.grassrc")))).
    + vm_compute. reflexivity.
    + unfold region_saved. vm_compute. discriminate.
Defined.

(** ** The order of the stages *)

(** C7, as the script has it.  Every run goes through validation,
    browsing, negotiation and import in this order: resource negotiation
    comes after the browsing pass, before any import task and before the
    time series is created.  A run whose validation fails does nothing
    else; a run whose browsing pass finds no scene ends in [grass.fatal]
    with the message of the specification, before any negotiation, import
    or creation. *)
Theorem C7_stage_order :
  forall w opts s0,
    trace_staged [is_validation; is_browsing; is_negotiation; is_import]
                 s0 (snd (main w opts s0)) /\
    (forall r s1,
       check_start_end w (opt_start opts) (opt_end opts) s0 = (r, s1) ->
       (forall d, r <> Ok d) ->
       snd (main w opts s0) = s1 /\ appends is_validation s0 s1) /\
    (forall dates s1 s2,
       check_start_end w (opt_start opts) (opt_end opts) s0 = (Ok dates, s1) ->
       opt_archive opts = "eolab" ->
       browse_eolab_collection w opts (opt_collection opts)
         (PyStr.split "," (opt_bands opts)) (opt_mountpoint opts)
         (fst dates) (snd dates)
         (add_event (EvMessage "Filtering available scenes...") s1) = (Ok [], s2) ->
       (exists msg, main w opts s0 = (Fatal msg, s2) /\
                    PyStr.contains no_scenes_phrase msg = true) /\
       appends (fun e => is_validation e \/ is_browsing e) s0 s2).
Proof.
  intros w opts s0. split; [| split].
  - destruct (main_staged w opts s0) as (evs & Htr & Hst).
    exists evs. split; [exact Htr |].
    apply (staged_weaken_last
             (fun e => is_import e /\ pool_under (GISRC s0) e) is_import
             [is_validation; is_browsing; is_negotiation]);
      [intros e [He _]; exact He | exact Hst].
  - intros r s1 E Hr. split.
    + unfold main. cbv zeta.
      exact (proj1 (bind_stop _ _ _ _ _ E Hr)).
    + pose proof (check_start_end_appends w (opt_start opts) (opt_end opts) s0) as Ha.
      rewrite E in Ha. exact Ha.
  - intros [start_date end_date] s1 s2 E Harch Hb. simpl fst in Hb. simpl snd in Hb.
    split.
    + eexists. split.
      * unfold main. cbv zeta. rewrite (bind_run _ _ _ _ _ E). cbv beta iota.
        rewrite bind_emit. rewrite Harch.
        change (String.eqb "eolab" "eolab") with true. cbv iota.
        unfold bind at 1. unfold bind at 1. rewrite Hb. unfold ret at 1.
        cbv beta iota. reflexivity.
      * vm_compute. reflexivity.
    + apply (appends_trans _ s0 s1).
      * apply (appends_weaken is_validation); [tauto |].
        pose proof (check_start_end_appends w (opt_start opts) (opt_end opts) s0) as Ha.
        rewrite E in Ha. exact Ha.
      * apply (appends_trans _ s1 (add_event (EvMessage "Filtering available scenes...") s1)).
        -- apply appends_event. right. reflexivity.
        -- apply (appends_weaken is_browsing); [tauto |].
           pose proof (browse_appends w opts (opt_collection opts)
                         (PyStr.split "," (opt_bands opts)) (opt_mountpoint opts)
                         start_date end_date
                         (add_event (EvMessage "Filtering available scenes...") s1)) as Ha.
           rewrite Hb in Ha. exact Ha.
Qed.

Lemma C7_stage_order_witness :
  exists s2 msg,
    main Sample.madrid Sample.july (initial_state "/home/u/.grassrc") = (Fatal msg, s2) /\
    PyStr.contains no_scenes_phrase msg = true.
Proof.
  destruct (proj2 (proj2 (C7_stage_order Sample.madrid Sample.july
                            (initial_state "/home/u/.grassrc")))
              (mkdate 2022 7 1, mkdate 2022 7 15)
              (initial_state "/home/u/.grassrc")
              (snd (browse_eolab_collection Sample.madrid Sample.july "S2-L2A-MAJA"
                      ["S2_B4"; "S2_B8"; "S2_CLM"] "/codede"
                      (mkdate 2022 7 1) (mkdate 2022 7 15)
                      (add_event (EvMessage "Filtering available scenes...")
                         (initial_state "/home/u/.grassrc")))))
    as [(msg & Hm & Hc) _].
  - vm_compute. reflexivity.
  - reflexivity.
  - vm_compute. reflexivity.
  - eexists. exists msg. split; [exact Hm | exact Hc].
Defined.

(** In a run on the sample archive the archive is listed before the
    cores are counted: resource negotiation does not come before the
    browsing pass. *)
Lemma C7_counterexample :
  let t := trace (snd (main Sample.bonn Sample.july (initial_state "/home/u/.grassrc"))) in
  nth_error t 11 = Some (EvListdir "/codede/Sentinel-2/MSI/L2A-MAJA") /\
  nth_error t 20 = Some EvCpuCount /\
  (forall i, (i < 20)%nat -> nth_error t i <> Some EvCpuCount).
Proof.
  split; [vm_compute; reflexivity |]. split; [vm_compute; reflexivity |].
  intros i Hi.
  do 20 (destruct i as [| i]; [vm_compute; discriminate |]). lia.
Qed.

Section PathFacts.
(** ** Paths *)

#[local] Arguments Ascii.eqb : simpl never.
#[local] Arguments String.eqb : simpl never.

Lemma str_app_inv_head (a b c : string) : a ++ b = a ++ c -> b = c.
Proof.
  induction a as [| x a IH]; simpl; intro H; [exact H |].
  inversion H. apply IH. assumption.
Qed.

Lemma endswith_no_slash (c : string) :
  PyStr.has_char "/" c = false -> PyStr.endswith c "/" = false.
Proof.
  induction c as [| x c IH]; simpl; intro H; [reflexivity |].
  apply orb_false_iff in H. destruct H as [Hx Hc].
  rewrite (IH Hc), orb_false_r.
  destruct (String.eqb_spec (String x c) "/") as [E | _]; [| reflexivity].
  inversion E. subst x. rewrite Ascii.eqb_refl in Hx. discriminate Hx.
Qed.

Lemma endswith_app (a c p : string) :
  (String.length p <= String.length c)%nat ->
  PyStr.endswith (a ++ c) p = PyStr.endswith c p.
Proof.
  intro Hlen. induction a as [| x a IH]; simpl; [reflexivity |].
  rewrite IH.
  destruct (String.eqb_spec (String x (a ++ c)) p) as [E | _]; [| reflexivity].
  exfalso. subst p. simpl in Hlen.
  assert (L : forall u v : string, String.length (u ++ v) = (String.length u + String.length v)%nat).
  { clear. induction u as [| y u IHu]; intro v; simpl; [reflexivity | now rewrite IHu]. }
  rewrite L in Hlen. lia.
Qed.

Lemma wf_name_inv n :
  wf_name n = true -> n <> "" /\ PyStr.has_char "/" n = false.
Proof.
  unfold wf_name. intro H. apply andb_true_iff in H. destruct H as [H1 H2].
  apply negb_true_iff in H1, H2. split; [| exact H2].
  intro E. subst n. discriminate H1.
Qed.

Lemma wf_name_no_leading_slash n : wf_name n = true -> PyStr.startswith n "/" = false.
Proof.
  intro H. apply wf_name_inv in H. destruct H as [Hne Hs].
  destruct n as [| c n]; [reflexivity |]. simpl in *.
  apply orb_false_iff in Hs. destruct Hs as [Hc _]. rewrite Hc. reflexivity.
Qed.

Lemma join2_wf base n :
  open_base base -> wf_name n = true ->
  OsPath.join2 base n = base ++ "/" ++ n /\ open_base (base ++ "/" ++ n).
Proof.
  intros [Hne He] Hn. unfold OsPath.join2.
  rewrite (wf_name_no_leading_slash n Hn), He, orb_false_r.
  destruct (String.eqb_spec base "") as [E | _]; [contradiction |].
  split; [reflexivity |]. split.
  - destruct base; [contradiction | discriminate].
  - apply wf_name_inv in Hn. destruct Hn as [Hn Hs].
    change (base ++ "/" ++ n) with (base ++ (String "/" n)).
    replace (base ++ String "/" n) with ((base ++ "/") ++ n)
      by (rewrite str_app_assoc; reflexivity).
    rewrite endswith_app.
    + apply endswith_no_slash. exact Hs.
    + destruct n; [contradiction | simpl; lia].
Qed.

Lemma join_wf base cs :
  open_base base -> Forall (fun n => wf_name n = true) cs ->
  OsPath.join base cs = path_of base cs.
Proof.
  intros Hb Hcs. revert base Hb. induction Hcs as [| c cs Hc _ IH]; intros base Hb.
  - reflexivity.
  - unfold OsPath.join. simpl.
    destruct (join2_wf base c Hb Hc) as [-> Hb'].
    apply (IH _ Hb').
Qed.

Lemma path_of_tail base cs : path_of base cs = base ++ tail_of cs.
Proof.
  revert base. induction cs as [| c cs IH]; intro base; simpl.
  - symmetry. apply str_app_nil_r.
  - rewrite IH. rewrite str_app_assoc. reflexivity.
Qed.

Lemma component_split (c c' r r' : string) :
  PyStr.has_char "/" c = false -> PyStr.has_char "/" c' = false ->
  (r = "" \/ exists t, r = String "/" t) ->
  (r' = "" \/ exists t, r' = String "/" t) ->
  c ++ r = c' ++ r' -> c = c' /\ r = r'.
Proof.
  revert c'. induction c as [| x c IH]; intros c' Hc Hc' Hr Hr' E.
  - destruct c' as [| y c']; simpl in *.
    + split; [reflexivity | exact E].
    + apply orb_false_iff in Hc'. destruct Hc' as [Hy _].
      destruct Hr as [-> | [t ->]]; [discriminate E |].
      inversion E. subst y. rewrite Ascii.eqb_refl in Hy. discriminate Hy.
  - simpl in Hc. apply orb_false_iff in Hc. destruct Hc as [Hx Hc].
    destruct c' as [| y c']; simpl in *.
    + destruct Hr' as [-> | [t ->]]; [discriminate E |].
      inversion E. subst x. rewrite Ascii.eqb_refl in Hx. discriminate Hx.
    + apply orb_false_iff in Hc'. destruct Hc' as [_ Hc'].
      inversion E. subst y.
      destruct (IH c' Hc Hc' Hr Hr' H1) as [-> ->]. split; reflexivity.
Qed.

Lemma tail_shape cs : tail_of cs = "" \/ exists t, tail_of cs = String "/" t.
Proof. destruct cs as [| c cs]; simpl; [left; reflexivity | right; eexists; reflexivity]. Qed.

Lemma tail_of_inj cs cs' :
  Forall (fun n => wf_name n = true) cs ->
  Forall (fun n => wf_name n = true) cs' ->
  tail_of cs = tail_of cs' -> cs = cs'.
Proof.
  intro H. revert cs'. induction H as [| c cs Hc _ IH]; intros cs' H' E.
  - destruct cs' as [| c' cs']; [reflexivity | discriminate E].
  - destruct H' as [| c' cs' Hc' H']; [discriminate E |].
    simpl in E. inversion E as [E'].
    apply wf_name_inv in Hc, Hc'.
    destruct (component_split c c' _ _ (proj2 Hc) (proj2 Hc')
                (tail_shape cs) (tail_shape cs') E') as [-> Et].
    f_equal. apply IH; assumption.
Qed.

(** Two paths below one base are equal only when their components are. *)
Lemma join_inj base cs cs' :
  open_base base ->
  Forall (fun n => wf_name n = true) cs ->
  Forall (fun n => wf_name n = true) cs' ->
  OsPath.join base cs = OsPath.join base cs' -> cs = cs'.
Proof.
  intros Hb H H' E.
  rewrite (join_wf base cs Hb H), (join_wf base cs' Hb H') in E.
  rewrite !path_of_tail in E. apply str_app_inv_head in E.
  apply tail_of_inj; assumption.
Qed.

Lemma open_base_app a c :
  c <> "" -> PyStr.endswith c "/" = false -> open_base (a ++ c).
Proof.
  intros Hc He. split.
  - destruct a; [exact Hc | discriminate].
  - rewrite endswith_app; [exact He |].
    destruct c; [contradiction | simpl; lia].
Qed.

Lemma maja_base_open mountpoint :
  open_base (OsPath.join mountpoint [basepath maja]).
Proof.
  change (basepath maja) with "Sentinel-2/MSI/L2A-MAJA".
  unfold OsPath.join, OsPath.join2. simpl fold_left.
  change (PyStr.startswith "Sentinel-2/MSI/L2A-MAJA" "/") with false. cbv iota.
  destruct (String.eqb mountpoint "" || PyStr.endswith mountpoint "/").
  - apply open_base_app; [discriminate | reflexivity].
  - change (mountpoint ++ "/" ++ "Sentinel-2/MSI/L2A-MAJA")
      with (mountpoint ++ "/Sentinel-2/MSI/L2A-MAJA").
    apply open_base_app; [discriminate | reflexivity].
Qed.

End PathFacts.

Section TraversalFacts.
(** ** The traversal of the archive *)

#[local] Arguments Ascii.eqb : simpl never.
#[local] Arguments String.eqb : simpl never.

Lemma listdir_Ok w path s l s' :
  listdir w path s = (Ok l, s') ->
  s' = add_event (EvListdir path) s /\ w_listdir w path = Some l.
Proof.
  unfold listdir, bind, emit, modify, of_option. simpl.
  destruct (w_listdir w path); simpl; unfold ret, raise; intro H; inversion H.
  split; reflexivity.
Qed.

Lemma flat_map_map {A B C : Type} (h : B -> C) (v : A -> list B) (l : list A) :
  flat_map (fun x => map h (v x)) l = map h (flat_map v l).
Proof.
  induction l as [| x l IH]; simpl; [reflexivity |].
  rewrite IH, map_app. reflexivity.
Qed.

(** A loop that appends to its accumulator what each element gives, and
    to the trace the events of each element *)
Lemma for_fold_flat {A X C : Type} (R : X -> C -> Prop)
  (f : A -> list C) (g : A -> list event)
  (body : list X -> A -> M (list X)) (l : list A) :
  (forall x acc s acc' s',
     In x l -> body acc x s = (Ok acc', s') ->
     exists n, acc' = (acc ++ n)%list /\ Forall2 R n (f x) /\
               trace s' = (trace s ++ g x)%list) ->
  forall acc s acc' s',
    for_fold l acc body s = (Ok acc', s') ->
    exists n, acc' = (acc ++ n)%list /\ Forall2 R n (flat_map f l) /\
              trace s' = (trace s ++ flat_map g l)%list.
Proof.
  induction l as [| x l IH]; intros Hb acc s acc' s' H; simpl in H.
  - inversion H. subst. exists []. simpl. rewrite !app_nil_r.
    repeat split. constructor.
  - apply bind_Ok in H. destruct H as (acc1 & s1 & H1 & H).
    apply (Hb x acc s acc1 s1 (or_introl eq_refl)) in H1.
    destruct H1 as (n1 & -> & F1 & T1).
    apply IH in H; [| intros y a t a' t' Hy; apply Hb; right; exact Hy].
    destruct H as (n2 & -> & F2 & T2).
    exists (n1 ++ n2)%list. simpl. split; [symmetry; apply app_assoc |]. split.
    + apply Forall2_app; assumption.
    + rewrite T2, T1. symmetry. apply app_assoc.
Qed.

(** *** The band files of a scene *)

Lemma dict_set_in {V : Type} k (v : V) d k' v' :
  In (k', v') (dict_set k v d) -> (k', v') = (k, v) \/ In (k', v') d.
Proof.
  induction d as [| [a b] d IH]; simpl.
  - intros [H | []]. left. symmetry. exact H.
  - destruct (String.eqb k a).
    + intros [H | H]; [left; symmetry; exact H | right; right; exact H].
    + intros [H | H]; [right; left; exact H |].
      destruct (IH H) as [E | E]; [left; exact E | right; right; exact E].
Qed.

Lemma requested_suffixes_in table bands suffix band :
  In (suffix, band) (requested_suffixes table bands) ->
  In (band, suffix) table /\ str_in_list band bands = true.
Proof.
  unfold requested_suffixes.
  assert (H : forall d,
             (forall s b, In (s, b) d -> In (b, s) table /\ str_in_list b bands = true) ->
             forall t, incl t table ->
             forall s b,
               In (s, b) (fold_left (fun d '(key, value) =>
                                       if str_in_list key bands
                                       then dict_set value key d else d) t d) ->
               In (b, s) table /\ str_in_list b bands = true).
  { intros d Hd t. revert d Hd. induction t as [| [key value] t IH]; intros d Hd Ht s b Hin.
    - simpl in Hin. apply Hd. exact Hin.
    - simpl in Hin. apply (IH _) in Hin; [exact Hin | | intros x Hx; apply Ht; right; exact Hx].
      intros s' b' Hin'. destruct (str_in_list key bands) eqn:E; [| apply Hd; exact Hin'].
      apply dict_set_in in Hin'. destruct Hin' as [Heq | Hold]; [| apply Hd; exact Hold].
      inversion Heq. subst. split; [apply Ht; left; reflexivity | exact E]. }
  apply (H [] (fun s b (F : In (s, b) []) => match F with end) table (incl_refl table)).
Qed.

Lemma pick_band_in fe bn files bp b p :
  In (b, p) (pick_band fe bn files bp) ->
  In (b, p) bp \/ (b = bn /\ In p files /\ PyStr.contains fe p = true).
Proof.
  unfold pick_band. revert bp. induction files as [| f files IH]; intros bp H; simpl in H.
  - left. exact H.
  - apply IH in H. destruct H as [H | (-> & Hin & Hc)].
    + destruct (PyStr.contains fe f) eqn:E; [| left; exact H].
      apply dict_set_in in H. destruct H as [Heq | Hold]; [| left; exact Hold].
      inversion Heq. subst. right. split; [reflexivity |]. split; [left; reflexivity | exact E].
    + right. split; [reflexivity |]. split; [right; exact Hin | exact Hc].
Qed.

Lemma pick_mask_in fe bn clm files bp b p :
  In (b, p) (pick_mask fe bn clm files bp) ->
  In (b, p) bp \/
  (b = bn /\ exists f, p = OsPath.join clm [f] /\ In f files /\ PyStr.contains fe f = true).
Proof.
  unfold pick_mask. revert bp. induction files as [| f files IH]; intros bp H; simpl in H.
  - left. exact H.
  - apply IH in H. destruct H as [H | (-> & g & -> & Hin & Hc)].
    + destruct (PyStr.contains fe f) eqn:E; [| left; exact H].
      apply dict_set_in in H. destruct H as [Heq | Hold]; [| left; exact Hold].
      inversion Heq. subst. right. split; [reflexivity |].
      exists f. split; [reflexivity |]. split; [left; reflexivity | exact E].
    + right. split; [reflexivity |]. exists g. split; [reflexivity |].
      split; [right; exact Hin | exact Hc].
Qed.

Lemma browse_band_Ok w bands scene_path items bfs :
  (forall suffix band, In (suffix, band) bfs ->
                       In (band, suffix) (bands_filesuffixes maja) /\
                       str_in_list band bands = true) ->
  w_listdir w scene_path = Some items ->
  forall bp s bp' s',
    for_fold bfs bp
      (browse_band w ".tif" "MASKS" scene_path
         (filter (fun item => PyStr.endswith item ".tif") items)) s = (Ok bp', s') ->
    (forall b p, In (b, p) bp -> band_path_ok w bands scene_path b p) ->
    (forall b p, In (b, p) bp' -> band_path_ok w bands scene_path b p) /\
    trace s' =
      (trace s ++ map (fun _ => EvListdir (OsPath.join scene_path ["MASKS"]))
                      (filter is_clm_entry bfs))%list.
Proof.
  intros Hbfs Hitems. induction bfs as [| [suffix band] bfs IH];
    intros bp s bp' s' H Hbp; simpl in H.
  - inversion H. subst. simpl. rewrite app_nil_r. split; [exact Hbp | reflexivity].
  - apply bind_Ok in H. destruct H as (bp1 & s1 & H1 & H).
    destruct (Hbfs suffix band (or_introl eq_refl)) as [Htab Hreq].
    assert (Hbfs' : forall suffix0 band0, In (suffix0, band0) bfs ->
                      In (band0, suffix0) (bands_filesuffixes maja) /\
                      str_in_list band0 bands = true).
    { intros a b Hin. apply Hbfs. right. exact Hin. }
    unfold browse_band in H1. simpl filter.
    change (is_clm_entry (suffix, band)) with (String.eqb band "S2_CLM").
    destruct (String.eqb band "S2_CLM") eqn:E; simpl negb in H1; cbv iota in H1.
    + apply bind_Ok in H1. destruct H1 as (masks & s2 & Hl & H1).
      apply listdir_Ok in Hl. destruct Hl as [-> Hmasks].
      inversion H1. subst bp1 s1. clear H1.
      apply (IH Hbfs') in H.
      * destruct H as [Hok Htr]. split; [exact Hok |].
        rewrite Htr. simpl. rewrite <- app_assoc. reflexivity.
      * intros b p Hin. apply pick_mask_in in Hin.
        destruct Hin as [Hold | (-> & f & -> & Hf & Hc)]; [apply Hbp; exact Hold |].
        exists suffix. split; [exact Htab |]. split; [exact Hreq |].
        rewrite E. exists f. split; [reflexivity |]. split; [| exact Hc].
        exists masks. split; [exact Hmasks | exact Hf].
    + inversion H1. subst bp1 s1. clear H1.
      apply (IH Hbfs') in H.
      * exact H.
      * intros b p Hin. apply pick_band_in in Hin.
        destruct Hin as [Hold | (-> & Hf & Hc)]; [apply Hbp; exact Hold |].
        exists suffix. split; [exact Htab |]. split; [exact Hreq |].
        rewrite E. apply filter_In in Hf. destruct Hf as [Hf He].
        split; [exists items; split; [exact Hitems | exact Hf] |].
        split; [exact He | exact Hc].
Qed.

Lemma browse_band_exact w scene_path files bfs :
  forall bp s bp' s',
    for_fold bfs bp (browse_band w ".tif" "MASKS" scene_path files) s = (Ok bp', s') ->
    bp' = fold_left (band_step files (dir w scene_path ["MASKS"])) bfs bp /\
    ((exists suffix, In (suffix, "S2_CLM") bfs) ->
     w_listdir w (OsPath.join scene_path ["MASKS"]) <> None).
Proof.
  induction bfs as [| [suffix band] bfs IH]; intros bp s bp' s' H; simpl in H.
  - inversion H. split; [reflexivity |]. intros [suffix []].
  - apply bind_Ok in H. destruct H as (bp1 & s1 & H1 & H).
    apply IH in H. destruct H as [-> Hm]. cbn [fold_left].
    assert (Hstep : band_step files (dir w scene_path ["MASKS"]) bp (suffix, band) = bp1 /\
                    (band = "S2_CLM" ->
                     w_listdir w (OsPath.join scene_path ["MASKS"]) <> None)).
    { unfold browse_band in H1. unfold band_step. cbn [fst snd].
      destruct (String.eqb_spec band "S2_CLM") as [-> | Hne]; cbn [negb] in *; cbv iota in H1.
      - apply bind_Ok in H1. destruct H1 as (masks & s2 & Hl & H1).
        apply listdir_Ok in Hl. destruct Hl as [-> Hmasks].
        inversion H1. subst bp1 s1.
        change (OsPath.join2 scene_path "MASKS")
          with (OsPath.join scene_path ["MASKS"]) in Hmasks.
        unfold dir. rewrite Hmasks. split; [reflexivity |].
        intros _. discriminate.
      - inversion H1. split; [reflexivity | intro Hc; contradiction]. }
    destruct Hstep as [-> Hclm]. split; [reflexivity |].
    intros [sfx [Heq | Hin]]; [inversion Heq; subst; apply Hclm; reflexivity |].
    apply Hm. exists sfx. exact Hin.
Qed.

Lemma browse_scene_Ok w bands bfs day_path sc s x s' :
  (forall suffix band, In (suffix, band) bfs ->
                       In (band, suffix) (bands_filesuffixes maja) /\
                       str_in_list band bands = true) ->
  browse_scene w "S2-L2A-MAJA" ".tif" "MASKS" bfs day_path sc s = (Ok x, s') ->
  sd_scene x = sc /\ sd_path x = OsPath.join day_path [sc] /\
  band_paths_ok w bands x /\ band_paths_exact w bfs x /\
  trace s' =
    (trace s ++ EvListdir (OsPath.join day_path [sc]) ::
       map (fun _ => EvListdir (OsPath.join day_path [sc; "MASKS"]))
           (filter is_clm_entry bfs))%list.
Proof.
  intros Hbfs H. unfold browse_scene in H. cbv zeta in H.
  apply bind_Ok in H. destruct H as (items & s1 & Hl & H).
  apply listdir_Ok in Hl. destruct Hl as [-> Hitems].
  change (String.eqb "S2-L2A-MAJA" "S2-L2A-MAJA") with true in H. cbv iota in H.
  apply bind_Ok in H. destruct H as (dt & s2 & Hdt & H).
  apply of_option_Ok in Hdt. destruct Hdt as [_ ->].
  apply bind_Ok in H. destruct H as (bp & s3 & Hloop & H).
  inversion H. subst x s3. clear H. simpl.
  pose proof (browse_band_exact w _ _ bfs _ _ _ _ Hloop) as [Hex Hmasks].
  apply (browse_band_Ok w bands _ items bfs Hbfs Hitems) in Hloop.
  - destruct Hloop as [Hok Htr]. repeat split.
    + exact Hok.
    + exists items. cbn [sd_path sd_band_paths].
      split; [exact Hitems |]. split; [exact Hmasks | exact Hex].
    + rewrite Htr. simpl. rewrite <- app_assoc. reflexivity.
  - intros b p [].
Qed.

(** *** Scenes, days, months, years *)

Lemma flat_map_filter {A B : Type} (p : A -> bool) (h : A -> B) (l : list A) :
  flat_map (fun x => if p x then [h x] else []) l = map h (filter p l).
Proof.
  induction l as [| x l IH]; simpl; [reflexivity |].
  rewrite IH. destruct (p x); reflexivity.
Qed.

Section Traversal.
Variable w : world.
Variable bands : list string.
Variable base : string.
Variable tl : list string.
Variable bfs : list (string * string).
Variables start_date end_date : date.
Hypothesis Hbfs :
  forall suffix band, In (suffix, band) bfs ->
                      In (band, suffix) (bands_filesuffixes maja) /\
                      str_in_list band bands = true.

Let R := entry_full w bands bfs base.

Lemma browse_candidate_Ok y m d acc sc s acc' s' :
  browse_candidate w "S2-L2A-MAJA" ".tif" "MASKS" (Some tl) bfs
    (OsPath.join base [y; m; d]) acc sc s = (Ok acc', s') ->
  exists n, acc' = (acc ++ n)%list /\
            Forall2 R n (if matches_tile tl sc then [[y; m; d; sc]] else []) /\
            trace s' = (trace s ++ map (visit base) (scene_visits tl bfs "MASKS" y m d sc))%list.
Proof.
  unfold browse_candidate, scene_visits. intro H.
  unfold of_option in H. rewrite bind_ret in H.
  change (existsb (fun tile => PyStr.contains tile sc) tl) with (matches_tile tl sc) in H.
  destruct (matches_tile tl sc).
  - apply bind_Ok in H. destruct H as (x & s1 & Hx & H).
    inversion H. subst acc' s1. clear H.
    apply (browse_scene_Ok w bands bfs _ _ _ _ _ Hbfs) in Hx.
    destruct Hx as (Hn & Hp & Hok & Hex & Htr).
    exists [x]. split; [reflexivity |]. split.
    + constructor; [| constructor].
      split; [| exact Hex]. split; [split |]; [exact Hp | | exact Hok].
      simpl. symmetry. exact Hn.
    + rewrite Htr. simpl. rewrite map_map. reflexivity.
  - inversion H. subst. exists []. rewrite !app_nil_r.
    split; [reflexivity |]. split; [constructor | reflexivity].
Qed.

Lemma browse_day_Ok y m d acc s acc' s' :
  browse_day w "S2-L2A-MAJA" ".tif" "MASKS" (Some tl) bfs
    (OsPath.join base [y; m]) y m d start_date end_date acc s = (Ok acc', s') ->
  exists n, acc' = (acc ++ n)%list /\
            Forall2 R n (day_scenes w base tl start_date end_date y m d) /\
            trace s' =
              (trace s ++ map (visit base)
                            (day_visits w base tl bfs "MASKS" start_date end_date y m d))%list.
Proof.
  unfold browse_day, day_scenes, day_visits, day_qualifies, folder_date, in_range.
  intro H.
  apply bind_Ok in H. destruct H as (a & s1 & Ha & H).
  apply of_option_Ok in Ha. destruct Ha as [-> ->].
  apply bind_Ok in H. destruct H as (b & s1 & Hb & H).
  apply of_option_Ok in Hb. destruct Hb as [-> ->].
  apply bind_Ok in H. destruct H as (c & s1 & Hc & H).
  apply of_option_Ok in Hc. destruct Hc as [-> ->].
  apply bind_Ok in H. destruct H as (fd & s1 & Hfd & H).
  apply of_option_Ok in Hfd. destruct Hfd as [-> ->].
  destruct (PyDate.ge fd start_date && PyDate.lt fd end_date).
  - cbv zeta in H. apply bind_Ok in H. destruct H as (scenes & s1 & Hl & H).
    apply listdir_Ok in Hl. destruct Hl as [-> Hdir].
    change (OsPath.join (OsPath.join base [y; m]) [d])
      with (OsPath.join base [y; m; d]) in *.
    apply (for_fold_flat R
             (fun sc => if matches_tile tl sc then [[y; m; d; sc]] else [])
             (fun sc => map (visit base) (scene_visits tl bfs "MASKS" y m d sc)))
      in H.
    + destruct H as (n & -> & HF & Htr). exists n. split; [reflexivity |].
      unfold dir. rewrite Hdir. split.
      * rewrite <- (flat_map_filter (matches_tile tl) (fun sc => [y; m; d; sc])).
        exact HF.
      * rewrite Htr. simpl. rewrite <- app_assoc. rewrite flat_map_map. reflexivity.
    + intros sc a0 t a' t' _ Hc. apply browse_candidate_Ok. exact Hc.
  - inversion H. subst. exists []. rewrite !app_nil_r.
    split; [reflexivity |]. split; [constructor | reflexivity].
Qed.

Lemma browse_month_Ok y m acc s acc' s' :
  browse_month w "S2-L2A-MAJA" ".tif" "MASKS" (Some tl) bfs base y m
    start_date end_date acc s = (Ok acc', s') ->
  exists n, acc' = (acc ++ n)%list /\
            Forall2 R n (flat_map (day_scenes w base tl start_date end_date y m)
                                  (dir w base [y; m])) /\
            trace s' =
              (trace s ++ map (visit base)
                            (month_visits w base tl bfs "MASKS" start_date end_date y m))%list.
Proof.
  unfold browse_month, month_visits. cbv zeta. intro H.
  apply bind_Ok in H. destruct H as (days & s1 & Hl & H).
  apply listdir_Ok in Hl. destruct Hl as [-> Hdir].
  apply (for_fold_flat R
           (day_scenes w base tl start_date end_date y m)
           (fun d => map (visit base)
                       (day_visits w base tl bfs "MASKS" start_date end_date y m d)))
    in H.
  - destruct H as (n & -> & HF & Htr). exists n. split; [reflexivity |].
    unfold dir. rewrite Hdir. split; [exact HF |].
    rewrite Htr, flat_map_map. simpl trace. rewrite <- app_assoc. reflexivity.
  - intros d a0 t a' t' _ Hc. apply browse_day_Ok. exact Hc.
Qed.

Lemma browse_year_Ok y acc s acc' s' :
  browse_year w "S2-L2A-MAJA" ".tif" "MASKS" (Some tl) bfs base y
    start_date end_date acc s = (Ok acc', s') ->
  exists n, acc' = (acc ++ n)%list /\
            Forall2 R n
              (flat_map (fun m =>
                 flat_map (day_scenes w base tl start_date end_date y m)
                          (dir w base [y; m])) (dir w base [y])) /\
            trace s' =
              (trace s ++ map (visit base)
                            (year_visits w base tl bfs "MASKS" start_date end_date y))%list.
Proof.
  unfold browse_year, year_visits. intro H.
  apply bind_Ok in H. destruct H as (months & s1 & Hl & H).
  apply listdir_Ok in Hl. destruct Hl as [-> Hdir].
  apply (for_fold_flat R
           (fun m => flat_map (day_scenes w base tl start_date end_date y m)
                              (dir w base [y; m]))
           (fun m => map (visit base)
                       (month_visits w base tl bfs "MASKS" start_date end_date y m)))
    in H.
  - destruct H as (n & -> & HF & Htr). exists n. split; [reflexivity |].
    assert (Hd : dir w base [y] = months) by (unfold dir; rewrite Hdir; reflexivity).
    rewrite Hd. split; [exact HF |].
    rewrite Htr, flat_map_map. simpl trace. rewrite <- app_assoc. reflexivity.
  - intros m a0 t a' t' _ Hc. apply browse_month_Ok. exact Hc.
Qed.

(** A traversal that returns a manifest returns the scenes of the
    specification, and lists the directories of the specification, in
    its order. *)
Lemma browse_archive_Ok s scenes s' :
  browse_archive w "S2-L2A-MAJA" ".tif" "MASKS" (Some tl) bfs base
    start_date end_date s = (Ok scenes, s') ->
  Forall2 R scenes (archive_scenes w base tl start_date end_date) /\
  trace s' =
    (trace s ++ map (visit base)
                  (archive_visits w base tl bfs "MASKS" start_date end_date))%list.
Proof.
  unfold browse_archive, archive_visits, archive_scenes. intro H.
  apply bind_Ok in H. destruct H as (years & s1 & Hl & H).
  apply listdir_Ok in Hl. destruct Hl as [-> Hdir].
  apply (for_fold_flat R
           (fun y => flat_map (fun m =>
                       flat_map (day_scenes w base tl start_date end_date y m)
                                (dir w base [y; m])) (dir w base [y]))
           (fun y => map (visit base)
                       (year_visits w base tl bfs "MASKS" start_date end_date y)))
    in H.
  - destruct H as (n & -> & HF & Htr). simpl app.
    assert (Hd : dir w base [] = years).
    { unfold dir. change (OsPath.join base []) with base. rewrite Hdir. reflexivity. }
    rewrite Hd. split; [exact HF |].
    rewrite Htr, flat_map_map. simpl trace. rewrite <- app_assoc. reflexivity.
  - intros y a0 t a' t' _ Hc. apply browse_year_Ok. exact Hc.
Qed.
End Traversal.

End TraversalFacts.

(** *** Which directories a traversal lists *)

Section Visits.
Variable w : world.
Variable base : string.
Variable tl : list string.
Variable bfs : list (string * string).
Variable clm : string.
Variables start_date end_date : date.

Lemma in_scene_visits y m d sc cs :
  In cs (scene_visits tl bfs clm y m d sc) <->
  matches_tile tl sc = true /\
  (cs = [y; m; d; sc] \/
   (cs = [y; m; d; sc; clm] /\ exists e, In e bfs /\ is_clm_entry e = true)).
Proof.
  unfold scene_visits. destruct (matches_tile tl sc).
  - simpl. rewrite in_map_iff. split.
    + intros [H | (e & H & He)].
      * split; [reflexivity | left; symmetry; exact H].
      * split; [reflexivity | right]. split; [symmetry; exact H |].
        apply filter_In in He. exists e. exact He.
    + intros [_ [H | (H & e & He)]].
      * left. symmetry. exact H.
      * right. exists e. split; [symmetry; exact H | apply filter_In; exact He].
  - simpl. split; [intros [] | intros [H _]; discriminate H].
Qed.

Lemma in_day_visits y m d cs :
  In cs (day_visits w base tl bfs clm start_date end_date y m d) <->
  day_qualifies start_date end_date y m d = true /\
  (cs = [y; m; d] \/
   exists sc, In sc (dir w base [y; m; d]) /\ In cs (scene_visits tl bfs clm y m d sc)).
Proof.
  unfold day_visits. destruct (day_qualifies start_date end_date y m d).
  - simpl. rewrite in_flat_map. split.
    + intros [H | H]; (split; [reflexivity |]); [left; symmetry; exact H | right; exact H].
    + intros [_ [H | H]]; [left; symmetry; exact H | right; exact H].
  - simpl. split; [intros [] | intros [H _]; discriminate H].
Qed.

Lemma in_month_visits y m cs :
  In cs (month_visits w base tl bfs clm start_date end_date y m) <->
  cs = [y; m] \/
  exists d, In d (dir w base [y; m]) /\
            In cs (day_visits w base tl bfs clm start_date end_date y m d).
Proof.
  unfold month_visits. simpl. rewrite in_flat_map.
  split; (intros [H | H]; [left; symmetry; exact H | right; exact H]).
Qed.

Lemma in_year_visits y cs :
  In cs (year_visits w base tl bfs clm start_date end_date y) <->
  cs = [y] \/
  exists m, In m (dir w base [y]) /\
            In cs (month_visits w base tl bfs clm start_date end_date y m).
Proof.
  unfold year_visits. simpl. rewrite in_flat_map.
  split; (intros [H | H]; [left; symmetry; exact H | right; exact H]).
Qed.

Lemma in_archive_visits cs :
  In cs (archive_visits w base tl bfs clm start_date end_date) <->
  cs = [] \/
  exists y, In y (dir w base []) /\
            In cs (year_visits w base tl bfs clm start_date end_date y).
Proof.
  unfold archive_visits. simpl. rewrite in_flat_map.
  split; (intros [H | H]; [left; symmetry; exact H | right; exact H]).
Qed.

(** A day directory is listed exactly when it qualifies. *)
Lemma day_visited y m d :
  In [y; m; d] (archive_visits w base tl bfs clm start_date end_date) <->
  In y (dir w base []) /\ In m (dir w base [y]) /\ In d (dir w base [y; m]) /\
  day_qualifies start_date end_date y m d = true.
Proof.
  rewrite in_archive_visits. split.
  - intros [H | (y' & Hy & H)]; [discriminate H |].
    apply in_year_visits in H. destruct H as [H | (m' & Hm & H)]; [discriminate H |].
    apply in_month_visits in H. destruct H as [H | (d' & Hd & H)]; [discriminate H |].
    apply in_day_visits in H. destruct H as [Hq [H | (sc & _ & H)]].
    + inversion H. subst. tauto.
    + apply in_scene_visits in H. destruct H as [_ [H | [H _]]]; discriminate H.
  - intros (Hy & Hm & Hd & Hq). right. exists y. split; [exact Hy |].
    apply in_year_visits. right. exists m. split; [exact Hm |].
    apply in_month_visits. right. exists d. split; [exact Hd |].
    apply in_day_visits. split; [exact Hq | left; reflexivity].
Qed.

(** A scene directory is listed exactly when its day qualifies and its
    name contains a tile. *)
Lemma scene_visited y m d sc :
  In [y; m; d; sc] (archive_visits w base tl bfs clm start_date end_date) <->
  In y (dir w base []) /\ In m (dir w base [y]) /\ In d (dir w base [y; m]) /\
  day_qualifies start_date end_date y m d = true /\
  In sc (dir w base [y; m; d]) /\ matches_tile tl sc = true.
Proof.
  rewrite in_archive_visits. split.
  - intros [H | (y' & Hy & H)]; [discriminate H |].
    apply in_year_visits in H. destruct H as [H | (m' & Hm & H)]; [discriminate H |].
    apply in_month_visits in H. destruct H as [H | (d' & Hd & H)]; [discriminate H |].
    apply in_day_visits in H. destruct H as [Hq [H | (sc' & Hsc & H)]]; [discriminate H |].
    apply in_scene_visits in H. destruct H as [Hm' [H | [H _]]]; [| discriminate H].
    inversion H. subst. tauto.
  - intros (Hy & Hm & Hd & Hq & Hsc & Hmt). right. exists y. split; [exact Hy |].
    apply in_year_visits. right. exists m. split; [exact Hm |].
    apply in_month_visits. right. exists d. split; [exact Hd |].
    apply in_day_visits. split; [exact Hq | right]. exists sc. split; [exact Hsc |].
    apply in_scene_visits. split; [exact Hmt | left; reflexivity].
Qed.

Lemma in_archive_scenes cs :
  In cs (archive_scenes w base tl start_date end_date) <->
  exists y m d sc,
    cs = [y; m; d; sc] /\
    In y (dir w base []) /\ In m (dir w base [y]) /\ In d (dir w base [y; m]) /\
    day_qualifies start_date end_date y m d = true /\
    In sc (dir w base [y; m; d]) /\ matches_tile tl sc = true.
Proof.
  unfold archive_scenes. rewrite in_flat_map. split.
  - intros (y & Hy & H). apply in_flat_map in H. destruct H as (m & Hm & H).
    apply in_flat_map in H. destruct H as (d & Hd & H).
    unfold day_scenes in H.
    destruct (day_qualifies start_date end_date y m d) eqn:Hq; [| destruct H].
    apply in_map_iff in H. destruct H as (sc & <- & H).
    apply filter_In in H. destruct H as [Hsc Hmt].
    exists y, m, d, sc. tauto.
  - intros (y & m & d & sc & -> & Hy & Hm & Hd & Hq & Hsc & Hmt).
    exists y. split; [exact Hy |]. apply in_flat_map. exists m. split; [exact Hm |].
    apply in_flat_map. exists d. split; [exact Hd |].
    unfold day_scenes. rewrite Hq. apply in_map_iff. exists sc.
    split; [reflexivity | apply filter_In; split; assumption].
Qed.

Hypothesis Hwf : wf_listings w.
Hypothesis Hclm : wf_name clm = true.

Lemma dir_wf cs n : In n (dir w base cs) -> wf_name n = true.
Proof.
  unfold dir. destruct (w_listdir w (OsPath.join base cs)) as [l |] eqn:E.
  - intro H. exact (Hwf _ _ _ E H).
  - intros [].
Qed.

Lemma visits_wf cs :
  In cs (archive_visits w base tl bfs clm start_date end_date) ->
  Forall (fun n => wf_name n = true) cs.
Proof.
  intro H. apply in_archive_visits in H.
  destruct H as [-> | (y & Hy & H)]; [constructor |].
  apply dir_wf in Hy.
  apply in_year_visits in H. destruct H as [-> | (m & Hm & H)]; [repeat constructor; assumption |].
  apply dir_wf in Hm.
  apply in_month_visits in H. destruct H as [-> | (d & Hd & H)]; [repeat constructor; assumption |].
  apply dir_wf in Hd.
  apply in_day_visits in H. destruct H as [_ [-> | (sc & Hsc & H)]]; [repeat constructor; assumption |].
  apply dir_wf in Hsc.
  apply in_scene_visits in H. destruct H as [_ [-> | [-> _]]]; repeat constructor; assumption.
Qed.

Hypothesis Hbase : open_base base.

(** The listing of a path is in the trace of the traversal exactly when
    its components are among the visits. *)
Lemma visit_in cs :
  Forall (fun n => wf_name n = true) cs ->
  (In (visit base cs)
      (map (visit base) (archive_visits w base tl bfs clm start_date end_date)) <->
   In cs (archive_visits w base tl bfs clm start_date end_date)).
Proof.
  intro Hcs. rewrite in_map_iff. split.
  - intros (cs' & E & Hin). unfold visit in E. inversion E as [E'].
    apply (join_inj base cs' cs Hbase (visits_wf cs' Hin) Hcs) in E'.
    subst cs'. exact Hin.
  - intro Hin. exists cs. split; [reflexivity | exact Hin].
Qed.
End Visits.

Section ManifestFacts.
(** *** The manifest *)

Lemma matches_tile_iff tiles sc :
  matches_tile tiles sc = true <->
  exists tile, In tile tiles /\ PyStr.contains tile sc = true.
Proof. unfold matches_tile. apply existsb_exists. Qed.

Lemma day_qualifies_iff start_date end_date y m d fd :
  folder_date y m d = Some fd ->
  (day_qualifies start_date end_date y m d = true <->
   PyDate.ge fd start_date = true /\ PyDate.lt fd end_date = true).
Proof.
  intro H. unfold day_qualifies, in_range. rewrite H. apply andb_true_iff.
Qed.

Lemma Forall2_In_l {A B : Type} (R : A -> B -> Prop) l1 l2 a :
  Forall2 R l1 l2 -> In a l1 -> exists b, In b l2 /\ R a b.
Proof.
  induction 1 as [| x y l1 l2 Hxy _ IH]; intros Hin; [destruct Hin |].
  destruct Hin as [-> | Hin].
  - exists y. split; [left; reflexivity | exact Hxy].
  - destruct (IH Hin) as (b & Hb & Hr). exists b. split; [right; exact Hb | exact Hr].
Qed.

Lemma Forall2_In_r {A B : Type} (R : A -> B -> Prop) l1 l2 b :
  Forall2 R l1 l2 -> In b l2 -> exists a, In a l1 /\ R a b.
Proof.
  induction 1 as [| x y l1 l2 Hxy _ IH]; intros Hin; [destruct Hin |].
  destruct Hin as [-> | Hin].
  - exists x. split; [left; reflexivity | exact Hxy].
  - destruct (IH Hin) as (a & Ha & Hr). exists a. split; [right; exact Ha | exact Hr].
Qed.

(** A browse that returns a manifest: the tiles it resolved, the scenes of
    the manifest and the directories it listed. *)
Lemma browse_Ok_exact w opts collection bands mountpoint start_date end_date s scenes s' :
  browse_eolab_collection w opts collection bands mountpoint start_date end_date s =
    (Ok scenes, s') ->
  let base := OsPath.join mountpoint [basepath maja] in
  exists tiles s1,
    get_utmcells w opts s = (Ok tiles, s1) /\
    Forall2 (entry_full w bands (requested_suffixes (bands_filesuffixes maja) bands) base)
            scenes (archive_scenes w base tiles start_date end_date) /\
    trace s' =
      (trace s1 ++
       map (visit base)
           (archive_visits w base tiles
              (requested_suffixes (bands_filesuffixes maja) bands) "MASKS"
              start_date end_date))%list.
Proof.
  intros H base. apply browse_anatomy in H.
  destruct H as (-> & tiles & s1 & Ht & Ha).
  exists tiles, s1. split; [exact Ht |].
  apply (browse_archive_Ok w bands) in Ha; [exact Ha |].
  intros suffix band Hin. apply requested_suffixes_in in Hin. exact Hin.
Qed.

Lemma browse_Ok w opts collection bands mountpoint start_date end_date s scenes s' :
  browse_eolab_collection w opts collection bands mountpoint start_date end_date s =
    (Ok scenes, s') ->
  let base := OsPath.join mountpoint [basepath maja] in
  exists tiles s1,
    get_utmcells w opts s = (Ok tiles, s1) /\
    Forall2 (entry_ok w bands base) scenes
            (archive_scenes w base tiles start_date end_date) /\
    trace s' =
      (trace s1 ++
       map (visit base)
           (archive_visits w base tiles
              (requested_suffixes (bands_filesuffixes maja) bands) "MASKS"
              start_date end_date))%list.
Proof.
  intros H base. apply browse_Ok_exact in H.
  destruct H as (tiles & s1 & Ht & HF & Htr).
  exists tiles, s1. split; [exact Ht |]. split; [| exact Htr].
  revert HF. apply Forall2_impl. intros x cs [Hxy _]. exact Hxy.
Qed.

(** C2. In a browse that returns a manifest, the scene directories of a
    day directory are listed exactly when the date of the day is on or
    after the start and before the end; in such a day, a scene directory
    is in the manifest exactly when its name contains one of the resolved
    tiles, and the contents of a scene directory are listed exactly then;
    and the manifest holds nothing else. *)
Theorem C2_manifest_membership :
  forall w opts collection bands mountpoint start_date end_date s scenes s',
    wf_listings w ->
    browse_eolab_collection w opts collection bands mountpoint start_date end_date s =
      (Ok scenes, s') ->
    let base := OsPath.join mountpoint [basepath maja] in
    exists tiles s1 evs,
      get_utmcells w opts s = (Ok tiles, s1) /\
      trace s' = (trace s1 ++ evs)%list /\
      (forall y m d fd,
         In y (dir w base []) -> In m (dir w base [y]) -> In d (dir w base [y; m]) ->
         folder_date y m d = Some fd ->
         (In (EvListdir (OsPath.join base [y; m; d])) evs <->
          PyDate.ge fd start_date = true /\ PyDate.lt fd end_date = true)) /\
      (forall y m d fd sc,
         In y (dir w base []) -> In m (dir w base [y]) -> In d (dir w base [y; m]) ->
         folder_date y m d = Some fd ->
         PyDate.ge fd start_date = true -> PyDate.lt fd end_date = true ->
         In sc (dir w base [y; m; d]) ->
         ((exists x, In x scenes /\ sd_scene x = sc /\
                     sd_path x = OsPath.join base [y; m; d; sc]) <->
          exists tile, In tile tiles /\ PyStr.contains tile sc = true) /\
         (In (EvListdir (OsPath.join base [y; m; d; sc])) evs <->
          exists tile, In tile tiles /\ PyStr.contains tile sc = true)) /\
      (forall x,
         In x scenes ->
         exists y m d fd,
           In y (dir w base []) /\ In m (dir w base [y]) /\ In d (dir w base [y; m]) /\
           folder_date y m d = Some fd /\
           PyDate.ge fd start_date = true /\ PyDate.lt fd end_date = true /\
           In (sd_scene x) (dir w base [y; m; d]) /\
           (exists tile, In tile tiles /\ PyStr.contains tile (sd_scene x) = true) /\
           sd_path x = OsPath.join base [y; m; d; sd_scene x]).
Proof.
  intros w opts collection bands mountpoint start_date end_date s scenes s' Hwf H base.
  destruct (browse_Ok _ _ _ _ _ _ _ _ _ _ H) as (tiles & s1 & Ht & HF & Htr).
  fold base in HF, Htr.
  set (bfs := requested_suffixes (bands_filesuffixes maja) bands) in *.
  exists tiles, s1,
    (map (visit base) (archive_visits w base tiles bfs "MASKS" start_date end_date)).
  split; [exact Ht |]. split; [exact Htr |].
  assert (Hbase : open_base base) by apply maja_base_open.
  assert (Hin : forall cs, Forall (fun n => wf_name n = true) cs ->
                  (In (EvListdir (OsPath.join base cs))
                      (map (visit base)
                           (archive_visits w base tiles bfs "MASKS" start_date end_date)) <->
                   In cs (archive_visits w base tiles bfs "MASKS" start_date end_date))).
  { intros cs Hcs.
    exact (visit_in w base tiles bfs "MASKS" start_date end_date Hwf eq_refl Hbase cs Hcs). }
  assert (Hd : forall cs n, In n (dir w base cs) -> wf_name n = true).
  { intros cs n. apply (dir_wf w base Hwf). }
  split; [| split].
  - intros y m d fd Hy Hm Hdd Hfd.
    rewrite Hin by (repeat constructor; eauto).
    rewrite day_visited. rewrite (day_qualifies_iff _ _ _ _ _ _ Hfd). tauto.
  - intros y m d fd sc Hy Hm Hdd Hfd Hge Hlt Hsc.
    assert (Hq : day_qualifies start_date end_date y m d = true).
    { apply (day_qualifies_iff _ _ _ _ _ _ Hfd). split; assumption. }
    rewrite <- matches_tile_iff. split.
    + split.
      * intros (x & Hx & Hn & Hp).
        destruct (Forall2_In_l _ _ _ _ HF Hx) as (cs & Hcs & [[Hpath Hlast] _]).
        apply in_archive_scenes in Hcs.
        destruct Hcs as (y' & m' & d' & sc' & -> & _ & _ & _ & _ & _ & Hmt).
        simpl in Hlast. congruence.
      * intro Hmt.
        assert (Hcs : In [y; m; d; sc] (archive_scenes w base tiles start_date end_date)).
        { apply in_archive_scenes. exists y, m, d, sc. tauto. }
        destruct (Forall2_In_r _ _ _ _ HF Hcs) as (x & Hx & [[Hpath Hlast] _]).
        exists x. split; [exact Hx |]. split; [symmetry; exact Hlast | exact Hpath].
    + rewrite Hin by (repeat constructor; eauto).
      rewrite scene_visited. tauto.
  - intros x Hx.
    destruct (Forall2_In_l _ _ _ _ HF Hx) as (cs & Hcs & [[Hpath Hlast] _]).
    apply in_archive_scenes in Hcs.
    destruct Hcs as (y & m & d & sc & -> & Hy & Hm & Hdd & Hq & Hsc & Hmt).
    simpl in Hlast. subst sc.
    unfold day_qualifies in Hq. destruct (folder_date y m d) as [fd |] eqn:Hfd;
      [| discriminate Hq].
    unfold in_range in Hq. apply andb_true_iff in Hq.
    exists y, m, d, fd. rewrite <- matches_tile_iff. tauto.
Qed.

(** ** Band files *)

#[local] Arguments Ascii.eqb : simpl never.

Lemma startswith_B8_app (p : string) :
  PyStr.startswith (p ++ "FRE_B8A.tif") "FRE_B8.tif" = PyStr.startswith p "FRE_B8.tif".
Proof.
  do 10 (destruct p as [| ?c p]; [vm_compute; reflexivity |];
         cbn [PyStr.startswith append];
         match goal with
         | |- (Ascii.eqb ?a ?b && _) = _ => destruct (Ascii.eqb a b); cbn [andb]
         end; [| reflexivity]).
  reflexivity.
Qed.

(** A file name made of a text without [FRE_B8.tif] and the ending
    [FRE_B8A.tif] does not contain [FRE_B8.tif]. *)
Lemma contains_B8_app (p : string) :
  PyStr.contains "FRE_B8.tif" (p ++ "FRE_B8A.tif") = PyStr.contains "FRE_B8.tif" p.
Proof.
  induction p as [| c p IH].
  - vm_compute. reflexivity.
  - change (String c p ++ "FRE_B8A.tif") with (String c (p ++ "FRE_B8A.tif")).
    cbn [PyStr.contains].
    change (String c (p ++ "FRE_B8A.tif")) with (String c p ++ "FRE_B8A.tif").
    rewrite startswith_B8_app, IH. reflexivity.
Qed.

Lemma suffix_of_band band suffix :
  In (band, suffix) (bands_filesuffixes maja) ->
  (band = "S2_CLM" -> suffix = "CLM_R1") /\ (band = "S2_B8" -> suffix = "FRE_B8").
Proof.
  intro H. simpl in H.
  repeat (destruct H as [H | H];
          [inversion H; subst; split; intro E; (reflexivity || discriminate E) |]).
  destruct H.
Qed.

(** What a manifest records is right: the path recorded for a requested
    band other than the cloud mask is a file of the scene directory that
    ends in [.tif] and whose name contains the band's suffix followed by
    [.tif], so a file of band 8A is not taken for band 8; the path
    recorded for the cloud mask is a file of the [MASKS] directory of the
    scene, written with that directory in front. *)
Lemma recorded_paths_sound :
  forall w opts collection bands mountpoint start_date end_date s scenes s' x band path,
    wf_listings w ->
    browse_eolab_collection w opts collection bands mountpoint start_date end_date s =
      (Ok scenes, s') ->
    In x scenes ->
    In (band, path) (sd_band_paths x) ->
    exists suffix,
      In (band, suffix) (bands_filesuffixes maja) /\
      str_in_list band bands = true /\
      (band <> "S2_CLM" ->
       (exists l, w_listdir w (sd_path x) = Some l /\ In path l) /\
       PyStr.endswith path ".tif" = true /\
       PyStr.contains (suffix ++ ".tif") path = true) /\
      (band = "S2_CLM" ->
       exists file,
         path = "MASKS/" ++ file /\
         (exists l, w_listdir w (OsPath.join (sd_path x) ["MASKS"]) = Some l /\ In file l) /\
         PyStr.contains "CLM_R1.tif" file = true) /\
      (band = "S2_B8" ->
       PyStr.contains "FRE_B8.tif" path = true /\
       forall p, PyStr.contains "FRE_B8.tif" p = false -> path <> p ++ "FRE_B8A.tif").
Proof.
  intros w opts collection bands mountpoint start_date end_date s scenes s' x band path
         Hwf H Hx Hbp.
  destruct (browse_Ok _ _ _ _ _ _ _ _ _ _ H) as (tiles & s1 & _ & HF & _).
  destruct (Forall2_In_l _ _ _ _ HF Hx) as (cs & _ & [_ Hok]).
  destruct (Hok band path Hbp) as (suffix & Htab & Hreq & Hcase).
  destruct (suffix_of_band band suffix Htab) as [Hclm Hb8].
  exists suffix. split; [exact Htab |]. split; [exact Hreq |].
  destruct (String.eqb_spec band "S2_CLM") as [E | E].
  - split; [intro Hn; contradiction |]. split.
    + intros _. rewrite (Hclm E) in Hcase.
      destruct Hcase as (file & Hp & (l & Hl & Hin) & Hc).
      exists file. split; [| split; [exists l; split; assumption | exact Hc]].
      rewrite Hp. unfold OsPath.join. simpl fold_left. unfold OsPath.join2.
      rewrite (wf_name_no_leading_slash file (Hwf _ _ _ Hl Hin)). reflexivity.
    + intro E8. rewrite E8 in E. discriminate E.
  - split; [intros _; exact Hcase |]. split; [intro Hc; contradiction |].
    intro E8. rewrite (Hb8 E8) in Hcase. destruct Hcase as (_ & _ & Hc).
    change ("FRE_B8" ++ ".tif") with "FRE_B8.tif" in Hc.
    split; [exact Hc |].
    intros p Hp Heq. rewrite Heq, contains_B8_app, Hp in Hc. discriminate Hc.
Qed.

Lemma sample_listings_wf : wf_listings Sample.bonn.
Proof.
  intros path l n Hl Hin. simpl in Hl. unfold Sample.tree in Hl.
  repeat (simpl dict_get in Hl;
          match type of Hl with
          | (if ?b then _ else _) = _ =>
              destruct b;
              [inversion Hl; subst l; simpl in Hin;
               repeat (destruct Hin as [<- | Hin]; [vm_compute; reflexivity |]);
               destruct Hin |]
          end).
  discriminate Hl.
Qed.

End ManifestFacts.

(** ** The claims on the sample archive *)

Lemma C1_retention_policy_witness :
  let t := mkdatetime (mkdate 2022 7 2) 10 40 25 in
  let results :=
    [ {| i_name := "a_FRE_B4"; i_datetime := t; i_map_empty := true; i_band := "S2_B4" |};
      {| i_name := "a_CLM_R1"; i_datetime := t; i_map_empty := true; i_band := "S2_CLM" |};
      {| i_name := "a_FRE_B8"; i_datetime := t; i_map_empty := false; i_band := "S2_B8" |} ] in
  exists s',
    write_registration results (initial_state "rc") =
      (Ok ("a_CLM_R1|2022-07-02 10:40:25" ++ nl ++ "a_FRE_B8|2022-07-02 10:40:25" ++ nl),
       s') /\
    rm_rasters s' = ["a_FRE_B4"].
Proof.
  intros t results.
  destruct (C1_retention_policy results (initial_state "rc")) as (s' & Hrun & Hrm & _).
  exists s'. split; [exact Hrun | exact Hrm].
Defined.

Lemma C2_manifest_membership_witness :
  exists scenes s' tiles s1 evs,
    browse_eolab_collection Sample.bonn Sample.july "S2-L2A-MAJA"
      ["S2_B4"; "S2_B8"; "S2_CLM"] "/codede" (mkdate 2022 7 1) (mkdate 2022 7 15)
      (initial_state "/home/u/.grassrc") = (Ok scenes, s') /\
    get_utmcells Sample.bonn Sample.july (initial_state "/home/u/.grassrc") =
      (Ok tiles, s1) /\
    trace s' = (trace s1 ++ evs)%list /\
    (In (EvListdir "/codede/Sentinel-2/MSI/L2A-MAJA/2022/07/02") evs <->
     PyDate.ge (mkdate 2022 7 2) (mkdate 2022 7 1) = true /\
     PyDate.lt (mkdate 2022 7 2) (mkdate 2022 7 15) = true).
Proof.
  eexists. eexists.
  assert (H : browse_eolab_collection Sample.bonn Sample.july "S2-L2A-MAJA"
                ["S2_B4"; "S2_B8"; "S2_CLM"] "/codede" (mkdate 2022 7 1) (mkdate 2022 7 15)
                (initial_state "/home/u/.grassrc") = (Ok _, _))
    by (vm_compute; reflexivity).
  destruct (C2_manifest_membership _ _ _ _ _ _ _ _ _ _ sample_listings_wf H)
    as (tiles & s1 & evs & Ht & Htr & Hday & _).
  exists tiles, s1, evs. split; [exact H |]. split; [exact Ht |]. split; [exact Htr |].
  apply (Hday "2022" "07" "02" (mkdate 2022 7 2)).
  - vm_compute. left. reflexivity.
  - vm_compute. left. reflexivity.
  - vm_compute. right. left. reflexivity.
  - reflexivity.
Defined.

(** * Further properties *)

(** ** Malformed dates *)

Lemma map_opt_None {A B : Type} (f : A -> option B) (l : list A) :
  map_opt f l = None <-> exists x, In x l /\ f x = None.
Proof.
  induction l as [| a l IH]; simpl.
  - split; [discriminate | intros (x & [] & _)].
  - destruct (f a) as [b |] eqn:E.
    + destruct (map_opt f l) as [bs |].
      * split; [discriminate |]. intros (x & [-> | Hx] & Hn); [congruence |].
        assert (Hc : Some bs = None) by (apply (proj2 IH); exists x; split; assumption).
        discriminate Hc.
      * split; [| reflexivity]. intros _. destruct (proj1 IH eq_refl) as (x & Hx & Hn).
        exists x. split; [right; exact Hx | exact Hn].
    + split; [| reflexivity]. intros _. exists a. split; [left; reflexivity | exact E].
Qed.

Lemma check_start_end_resolve w end_ s :
  exists s1,
    (if String.eqb end_ "today"
     then emit EvToday ;; ret (PyDate.strftime_ymd (w_today w))
     else ret end_) s = (Ok (end_string w end_), s1) /\
    only_trace s s1.
Proof.
  unfold end_string. destruct (String.eqb end_ "today").
  - eexists. split; [reflexivity | apply only_trace_event].
  - exists s. split; [reflexivity | reflexivity].
Qed.

(** A field of the start or of the end, written in ASCII, that is no
    integer literal is not caught: the list comprehensions of
    [check_start_end] run before its [try], so the run ends with an
    uncaught exception and not through [grass.fatal]. *)
Theorem check_start_end_not_a_number :
  forall w start end_ s field,
    (In field (PyStr.split "-" start) \/
     (date_fields start <> None /\ In field (PyStr.split "-" (end_string w end_)))) ->
    is_ascii field = true ->
    PyInt.int field = None ->
    exists e, fst (check_start_end w start end_ s) = Raise e.
Proof.
  intros w start end_ s field Hin _ Hbad.
  destruct (check_start_end_resolve w end_ s) as (s1 & Hres & _).
  unfold check_start_end. rewrite (bind_run _ _ _ _ _ Hres).
  unfold bind at 1. rewrite int_list_run.
  destruct Hin as [Hin | [Hs Hin]].
  - assert (Hn : map_opt PyInt.int (PyStr.split "-" start) = None).
    { apply map_opt_None. exists field. split; assumption. }
    rewrite Hn. eexists. reflexivity.
  - unfold date_fields in Hs.
    destruct (map_opt PyInt.int (PyStr.split "-" start)) as [sl |]; [| contradiction].
    unfold bind at 1. rewrite int_list_run.
    assert (Hn : map_opt PyInt.int (PyStr.split "-" (end_string w end_)) = None).
    { apply map_opt_None. exists field. split; assumption. }
    rewrite Hn. eexists. reflexivity.
Qed.

Lemma check_start_end_not_a_number_witness :
  exists e, fst (check_start_end Sample.bonn "2022-07-xx" "2022-07-15"
                   (initial_state "rc")) = Raise e.
Proof.
  apply (check_start_end_not_a_number Sample.bonn "2022-07-xx" "2022-07-15"
           (initial_state "rc") "xx").
  - left. vm_compute. right. right. left. reflexivity.
  - reflexivity.
  - reflexivity.
Defined.

Lemma date_of_list_bad l s :
  date_of_fields l = None ->
  exists detail, date_of_list l s = (Fatal (bad_date_prefix ++ detail), s).
Proof.
  unfold date_of_fields, date_of_list, bad_date_prefix.
  destruct l as [| y [| m [| d l]]]; try (intros _; eexists; reflexivity).
  destruct (PyDate.new y m d); [discriminate |]. intros _. eexists. reflexivity.
Qed.

(** Integer fields that are too few, or that make no date, end in
    [grass.fatal] with the message on the expected format, for the start
    as for the end. *)
Theorem check_start_end_bad_date :
  forall w start end_ s sl el,
    date_fields start = Some sl ->
    date_fields (end_string w end_) = Some el ->
    date_of_fields sl = None \/ date_of_fields el = None ->
    exists detail,
      fst (check_start_end w start end_ s) = Fatal (bad_date_prefix ++ detail).
Proof.
  intros w start end_ s sl el Hs He Hbad.
  destruct (check_start_end_resolve w end_ s) as (s1 & Hres & _).
  unfold check_start_end. rewrite (bind_run _ _ _ _ _ Hres).
  unfold date_fields in Hs, He.
  unfold bind at 1. rewrite int_list_run, Hs.
  unfold bind at 1. rewrite int_list_run, He.
  destruct (date_of_fields sl) as [sd |] eqn:Esd.
  - destruct Hbad as [Hbad | Hbad]; [discriminate Hbad |].
    unfold bind at 1. rewrite (date_of_list_run sl sd s1 Esd).
    destruct (date_of_list_bad el s1 Hbad) as (detail & Hd).
    unfold bind at 1. rewrite Hd. exists detail. reflexivity.
  - destruct (date_of_list_bad sl s1 Esd) as (detail & Hd).
    unfold bind at 1. rewrite Hd. exists detail. reflexivity.
Qed.

Lemma check_start_end_bad_date_witness :
  exists detail,
    fst (check_start_end Sample.bonn "2022-07" "2022-02-30" (initial_state "rc")) =
    Fatal (bad_date_prefix ++ detail).
Proof.
  apply (check_start_end_bad_date Sample.bonn "2022-07" "2022-02-30"
           (initial_state "rc") [2022; 7] [2022; 2; 30]).
  - reflexivity.
  - reflexivity.
  - left. reflexivity.
Defined.

(** ** Teardown on every exit path *)

#[export] Instance same_context_pre : PreOrder same_context.
Proof.
  split.
  - intro s. split; reflexivity.
  - intros a b c [H1 H2] [H3 H4]. split; congruence.
Qed.

Lemma add_events_fields evs :
  forall s,
    GISRC (add_events evs s) = GISRC s /\
    rm_vectors (add_events evs s) = rm_vectors s /\
    rm_rasters (add_events evs s) = rm_rasters s /\
    TMPLOC (add_events evs s) = TMPLOC s /\
    SRCGISRC (add_events evs s) = SRCGISRC s /\
    TGTGISRC (add_events evs s) = TGTGISRC s /\
    GISDBASE (add_events evs s) = GISDBASE s /\
    trace (add_events evs s) = (trace s ++ evs)%list.
Proof.
  induction evs as [| e evs IH]; intro s; simpl.
  - rewrite app_nil_r. repeat split; reflexivity.
  - destruct (IH (add_event e s)) as (H1 & H2 & H3 & H4 & H5 & H6 & H7 & H8).
    unfold add_events in *. rewrite H1, H2, H3, H4, H5, H6, H7, H8. simpl.
    rewrite <- app_assoc. repeat split; reflexivity.
Qed.

Lemma add_events_app a b s : add_events (a ++ b) s = add_events b (add_events a s).
Proof. unfold add_events. apply fold_left_app. Qed.

Lemma run_command_outcome w prog args s :
  run_command w prog args s =
  (match w_module w (GISRC s) prog args with
   | Some _ => Ok tt
   | None => Raise (CalledModuleError prog)
   end, add_event (EvModule (GISRC s) prog args) s).
Proof.
  unfold run_command, parse_command, bind, gets, emit, modify, of_option, ret, raise.
  simpl. destruct (w_module w (GISRC s) prog args); reflexivity.
Qed.

Lemma remove_loop_step w (type v : string) (l : list string) s :
  for_each (v :: l) (fun v =>
    g <- gets GISRC ;;
    if w_find_file w g type v
    then run_command w "g.remove"
           [("type", type); ("name", v); ("flags", "f"); ("quiet", "True")]
    else ret tt) s =
  if w_find_file w (GISRC s) type v
  then match w_module w (GISRC s) "g.remove"
               [("type", type); ("name", v); ("flags", "f"); ("quiet", "True")] with
       | Some _ =>
           for_each l (fun v =>
             g <- gets GISRC ;;
             if w_find_file w g type v
             then run_command w "g.remove"
                    [("type", type); ("name", v); ("flags", "f"); ("quiet", "True")]
             else ret tt) (add_event (g_remove (GISRC s) type v) s)
       | None => (Raise (CalledModuleError "g.remove"),
                  add_event (g_remove (GISRC s) type v) s)
       end
  else for_each l (fun v =>
         g <- gets GISRC ;;
         if w_find_file w g type v
         then run_command w "g.remove"
                [("type", type); ("name", v); ("flags", "f"); ("quiet", "True")]
         else ret tt) s.
Proof.
  cbn [for_each]. unfold bind at 1. rewrite bind_gets.
  destruct (w_find_file w (GISRC s) type v).
  - rewrite run_command_outcome.
    destruct (w_module w (GISRC s) "g.remove" _); reflexivity.
  - reflexivity.
Qed.

(** A loop of [cleanup] runs [g.remove] on the names that are found, in
    the order of the list, up to the first removal that fails. *)
Lemma remove_loop_run w (type : string) (l : list string) :
  forall s,
  exists done rest,
    map (g_remove (GISRC s) type) (filter (w_find_file w (GISRC s) type) l) =
      (done ++ rest)%list /\
    snd (for_each l (fun v =>
           g <- gets GISRC ;;
           if w_find_file w g type v
           then run_command w "g.remove"
                  [("type", type); ("name", v); ("flags", "f"); ("quiet", "True")]
           else ret tt) s) = add_events done s /\
    ((exists u, fst (for_each l (fun v =>
           g <- gets GISRC ;;
           if w_find_file w g type v
           then run_command w "g.remove"
                  [("type", type); ("name", v); ("flags", "f"); ("quiet", "True")]
           else ret tt) s) = Ok u) -> rest = []).
Proof.
  induction l as [| v l IH]; intro s.
  - exists [], []. simpl. repeat split; reflexivity.
  - rewrite remove_loop_step. cbn [filter].
    destruct (w_find_file w (GISRC s) type v) eqn:E.
    + destruct (w_module w (GISRC s) "g.remove" _).
      * destruct (IH (add_event (g_remove (GISRC s) type v) s)) as (done & rest & Hm & Hs & Hr).
        simpl GISRC in Hm.
        exists (g_remove (GISRC s) type v :: done), rest.
        split; [simpl; rewrite Hm; reflexivity |].
        split; [exact Hs | exact Hr].
      * exists [g_remove (GISRC s) type v],
               (map (g_remove (GISRC s) type) (filter (w_find_file w (GISRC s) type) l)).
        split; [reflexivity |]. split; [reflexivity |].
        intros [u Hu]. discriminate Hu.
    + exact (IH s).
Qed.

Lemma cleanup_tail_run s :
  exists tail rest,
    file_removals s = (tail ++ rest)%list /\
    trace (snd ((tgt <- gets TGTGISRC ;;
                 (if truthy tgt then modify (set_GISRC (str_of_global tgt)) else ret tt) ;;
                 tmploc <- gets TMPLOC ;;
                 (if truthy tmploc
                  then gdb <- gets GISDBASE ;;
                       base <- of_option gdb TypeError ;;
                       emit (EvRmdir (OsPath.join base [str_of_global tmploc]))
                  else ret tt) ;;
                 src <- gets SRCGISRC ;;
                 (if truthy src then emit (EvUnlink (str_of_global src)) else ret tt)) s)) =
      (trace s ++ tail)%list /\
    (fst ((tgt <- gets TGTGISRC ;;
           (if truthy tgt then modify (set_GISRC (str_of_global tgt)) else ret tt) ;;
           tmploc <- gets TMPLOC ;;
           (if truthy tmploc
            then gdb <- gets GISDBASE ;;
                 base <- of_option gdb TypeError ;;
                 emit (EvRmdir (OsPath.join base [str_of_global tmploc]))
            else ret tt) ;;
           src <- gets SRCGISRC ;;
           (if truthy src then emit (EvUnlink (str_of_global src)) else ret tt)) s) = Ok tt ->
     rest = []).
Proof.
  unfold file_removals, bind, gets, modify, emit, of_option, ret, raise.
  destruct (truthy (TGTGISRC s)); simpl;
    (destruct (truthy (TMPLOC s)); simpl;
     [destruct (GISDBASE s) as [base |]; simpl |]);
    try (destruct (truthy (SRCGISRC s)); simpl);
    first
      [ eexists; exists [];
        split; [rewrite app_nil_r; reflexivity |];
        split; [rewrite <- ?app_assoc, ?app_nil_r; reflexivity | reflexivity]
      | exists []; eexists;
        split; [reflexivity |];
        split; [symmetry; apply app_nil_r | discriminate] ].
Qed.

(** [cleanup], event by event.  It first runs [g.remove], under the
    [GISRC] in force when it begins, on the registered vectors and then
    on the registered rasters that are found, in the order of the lists;
    only when all of these are done does it remove the directory of the
    temporary location and then the temporary [GISRC] file; it records
    nothing else.  A [cleanup] that completes has done all of that. *)
Theorem cleanup_removes_before_switching :
  forall w s,
  exists removed tail,
    trace (snd (cleanup w s)) = (trace s ++ removed ++ tail)%list /\
    (exists rest, removal_events w s = (removed ++ rest)%list /\
                  (tail <> [] -> rest = [])) /\
    (exists rest, file_removals s = (tail ++ rest)%list) /\
    (fst (cleanup w s) = Ok tt ->
     removed = removal_events w s /\ tail = file_removals s).
Proof.
  intros w s. unfold removal_events.
  destruct (cleanup w s) as [r s'] eqn:E. cbn [fst snd].
  unfold cleanup in E. rewrite bind_gets in E. unfold bind at 1 in E.
  destruct (remove_loop_run w "vector" (rm_vectors s) s) as (d1 & r1 & Hm1 & Hs1 & Hr1).
  destruct (for_each (rm_vectors s) _ s) as [res1 s1] eqn:E1.
  cbn [fst snd] in Hs1, Hr1. subst s1.
  destruct (add_events_fields d1 s) as (G1 & V1 & R1 & T1 & S1 & TG1 & D1 & Tr1).
  destruct res1 as [[] | msg | e].
  - rewrite (Hr1 (ex_intro _ tt eq_refl)), app_nil_r in Hm1.
    rewrite bind_gets in E. unfold bind at 1 in E.
    destruct (remove_loop_run w "raster" (rm_rasters (add_events d1 s)) (add_events d1 s))
      as (d2 & r2 & Hm2 & Hs2 & Hr2).
    destruct (for_each (rm_rasters (add_events d1 s)) _ (add_events d1 s))
      as [res2 s2] eqn:E2.
    cbn [fst snd] in Hs2, Hr2. subst s2. rewrite G1, R1 in Hm2.
    destruct (add_events_fields d2 (add_events d1 s))
      as (G2 & V2 & R2 & T2 & S2 & TG2 & D2 & Tr2).
    destruct res2 as [[] | msg | e].
    + rewrite (Hr2 (ex_intro _ tt eq_refl)), app_nil_r in Hm2.
      destruct (cleanup_tail_run (add_events d2 (add_events d1 s)))
        as (tail & rest & Hf & Htr & Hok).
      assert (Hfr : file_removals (add_events d2 (add_events d1 s)) = file_removals s).
      { unfold file_removals. rewrite T2, T1, D2, D1, S2, S1. reflexivity. }
      rewrite Hfr in Hf. rewrite E in Htr, Hok. cbn [fst snd] in Htr, Hok.
      exists (d1 ++ d2)%list, tail. rewrite Hm1, Hm2.
      split; [rewrite Htr, Tr2, Tr1, <- !app_assoc; reflexivity |].
      split; [exists []; split; [symmetry; apply app_nil_r | reflexivity] |].
      split; [exists rest; exact Hf |].
      intro H. split; [reflexivity |].
      rewrite (Hok H), app_nil_r in Hf. symmetry. exact Hf.
    + inversion E. subst r s'.
      exists (d1 ++ d2)%list, []. rewrite Hm1, Hm2.
      split; [rewrite Tr2, Tr1, app_nil_r, <- app_assoc; reflexivity |].
      split; [exists r2; split; [rewrite <- app_assoc; reflexivity |
                                 intro H; contradiction H; reflexivity] |].
      split; [exists (file_removals s); reflexivity | discriminate].
    + inversion E. subst r s'.
      exists (d1 ++ d2)%list, []. rewrite Hm1, Hm2.
      split; [rewrite Tr2, Tr1, app_nil_r, <- app_assoc; reflexivity |].
      split; [exists r2; split; [rewrite <- app_assoc; reflexivity |
                                 intro H; contradiction H; reflexivity] |].
      split; [exists (file_removals s); reflexivity | discriminate].
  - inversion E. subst r s'. exists d1, []. rewrite Hm1.
    split; [rewrite Tr1, app_nil_r; reflexivity |].
    split; [eexists; split; [rewrite <- app_assoc; reflexivity |
                             intro H; contradiction H; reflexivity] |].
    split; [exists (file_removals s); reflexivity | discriminate].
  - inversion E. subst r s'. exists d1, []. rewrite Hm1.
    split; [rewrite Tr1, app_nil_r; reflexivity |].
    split; [eexists; split; [rewrite <- app_assoc; reflexivity |
                             intro H; contradiction H; reflexivity] |].
    split; [exists (file_removals s); reflexivity | discriminate].
Qed.

Lemma cleanup_removes_before_switching_witness :
  exists s2,
    cleanup Sample.madrid
      (snd (main Sample.madrid Sample.july (initial_state "/home/u/.grassrc"))) =
      (Ok tt, s2) /\
    exists before,
      trace s2 =
        (before ++
         [g_remove "/home/u/.grassrc" "vector" "tmp_region_utmgrid_4242";
          EvRmdir "/grassdb/temp_import_location_4242";
          EvUnlink "/tmp/grass/0"])%list.
Proof.
  pose (s1 := snd (main Sample.madrid Sample.july (initial_state "/home/u/.grassrc"))).
  destruct (cleanup Sample.madrid s1) as [r s2] eqn:E.
  assert (Hr : r = Ok tt).
  { apply (f_equal fst) in E. vm_compute in E. symmetry. exact E. }
  subst r. exists s2. split; [exact E |].
  destruct (cleanup_removes_before_switching Sample.madrid s1)
    as (removed & tail & Htr & _ & _ & Hok).
  rewrite E in Htr, Hok. cbn [fst snd] in Htr, Hok.
  destruct (Hok eq_refl) as [-> ->].
  exists (trace s1). rewrite Htr. vm_compute. reflexivity.
Defined.

Lemma get_utmcells_context w opts s :
  context_known s (snd (get_utmcells w opts s)).
Proof.
  destruct (get_utmcells w opts s) as [r s'] eqn:E. simpl.
  destruct (w_module w (GISRC s) "v.in.region"
              [("output", tmpregionname w); ("quiet", "True")]) as [kv |] eqn:Em.
  - right.
    assert (Hr : region_saved w s) by (unfold region_saved; rewrite Em; discriminate).
    destruct (get_utmcells_registers w opts s r s' E Hr) as (_ & _ & _ & Ht & _).
    exact Ht.
  - left. unfold get_utmcells in E.
    change ("tmp_region_utmgrid_" ++ PyInt.str (w_getpid w)) with (tmpregionname w) in E.
    unfold bind at 1, run_command at 1, bind at 1, parse_command at 1 in E.
    rewrite bind_gets, bind_emit in E. simpl GISRC in E. rewrite Em in E.
    inversion E. split; reflexivity.
Qed.

Lemma context_known_only_trace s s1 s2 :
  context_known s s1 -> only_trace s1 s2 -> context_known s s2.
Proof.
  intros [[H1 H2] | H] (Hg & _ & _ & _ & _ & Ht & _).
  - left. split; congruence.
  - right. congruence.
Qed.

Lemma browse_context w opts collection bands mountpoint sd ed s :
  context_known s
    (snd (browse_eolab_collection w opts collection bands mountpoint sd ed s)).
Proof.
  unfold browse_eolab_collection. unfold eolab_collection_params, dict_get.
  destruct (String.eqb collection "S2-L2A-MAJA").
  - unfold of_option. rewrite bind_ret. cbv zeta.
    change (String.eqb (tile_system maja) "MGRS") with true. cbv iota.
    unfold bind at 1. unfold bind at 1.
    pose proof (get_utmcells_context w opts s) as Hc.
    destruct (get_utmcells w opts s) as [[tiles | msg | e] s1]; simpl in Hc;
      try exact Hc.
    unfold ret at 1. cbv beta iota.
    apply (context_known_only_trace s s1 _ Hc).
    apply browse_archive_only_trace.
  - left. split; reflexivity.
Qed.

Lemma same_context_of_only_trace s s' : only_trace s s' -> same_context s s'.
Proof. intros (Hg & _ & _ & _ & _ & Ht & _). split; assumption. Qed.

Lemma register_item_same_context written item :
  steps same_context (register_item written item).
Proof.
  unfold register_item. cbv zeta.
  steps_tac ltac:(let s := fresh "s" in intro s; split; reflexivity).
Qed.

Ltac same_context_prim :=
  first [ apply (steps_weaken only_trace same_context same_context_of_only_trace);
          first [ apply test_nprocs_memory_only_trace
                | apply steps_run_command_only_trace
                | apply steps_emit_only_trace ]
        | apply register_item_same_context
        | apply (steps_weaken unchanged same_context);
          [ intros ? ? ->; reflexivity | apply build_import_list_unchanged ]
        | let s := fresh "s" in
          intro s; apply same_context_of_only_trace;
          apply (proj1 (import_parallel_state _ _ _ s))
        | let s := fresh "s" in intro s; split; reflexivity ].

(** However [main] ends, the state it leaves is either at the [GISRC] the
    run started with, with nothing put aside, or has that [GISRC] put
    aside for [cleanup]. *)
Lemma main_context w opts s0 : context_known s0 (snd (main w opts s0)).
Proof.
  unfold main. cbv zeta. unfold bind at 1.
  pose proof (check_start_end_only_trace w (opt_start opts) (opt_end opts) s0) as H1.
  destruct (check_start_end w (opt_start opts) (opt_end opts) s0)
    as [[[start_date end_date] | msg | e] s1]; simpl in H1;
    try (apply (context_known_only_trace s0 s0);
         [left; split; reflexivity | exact H1]).
  rewrite bind_emit. unfold bind at 1.
  assert (Hb : forall x,
             x = (if String.eqb (opt_archive opts) "eolab"
                  then l <- browse_eolab_collection w opts (opt_collection opts)
                              (PyStr.split "," (opt_bands opts)) (opt_mountpoint opts)
                              start_date end_date ;;
                       ret (Some l)
                  else ret None)
                   (add_event (EvMessage "Filtering available scenes...") s1) ->
             context_known s0 (snd x)).
  { intros x ->.
    assert (Hs : context_known s0 (add_event (EvMessage "Filtering available scenes...") s1)).
    { apply (context_known_only_trace s0 s0); [left; split; reflexivity |].
      transitivity s1; [exact H1 | apply only_trace_event]. }
    destruct (String.eqb (opt_archive opts) "eolab"); [| exact Hs].
    unfold bind.
    pose proof (browse_context w opts (opt_collection opts)
                  (PyStr.split "," (opt_bands opts)) (opt_mountpoint opts)
                  start_date end_date
                  (add_event (EvMessage "Filtering available scenes...") s1)) as Hc.
    destruct H1 as (G1 & _ & _ & _ & _ & T1 & _).
    destruct (browse_eolab_collection w opts _ _ _ _ _ _) as [[l | msg | e] s2];
      unfold context_known in Hc |- *; simpl in Hc |- *;
      (destruct Hc as [[Ht Hg] | Ht]; [left; split; congruence | right; congruence]). }
  match goal with
  | |- context_known s0 (snd (let (r, s') := ?X in _)) =>
      specialize (Hb X eq_refl); destruct X as [[scenes | msg | e] s2]
  end; simpl in Hb; try exact Hb.
  match goal with
  | |- context_known s0 (snd (?T s2)) =>
      assert (Hk : steps same_context T)
        by (unfold write_registration, tempfile; steps_tac same_context_prim);
      specialize (Hk s2); destruct Hk as [Hg Ht]
  end.
  destruct Hb as [[Ht' Hg'] | Ht']; [left; split; congruence | right; congruence].
Qed.

Lemma remove_loop_only_trace w (type : string) (l : list string) :
  steps only_trace
    (for_each l (fun v =>
       g <- gets GISRC ;;
       if w_find_file w g type v
       then run_command w "g.remove"
              [("type", type); ("name", v); ("flags", "f"); ("quiet", "True")]
       else ret tt)).
Proof. steps_tac only_trace_prim. Qed.

Lemma cleanup_keeps_unset w s :
  TGTGISRC s = None -> GISRC (snd (cleanup w s)) = GISRC s.
Proof.
  intro Hn. unfold cleanup. rewrite bind_gets. unfold bind at 1.
  pose proof (remove_loop_only_trace w "vector" (rm_vectors s) s) as H1.
  destruct (for_each (rm_vectors s) _ s) as [[[] | msg | e] s1]; simpl in H1;
    try exact (proj1 H1).
  rewrite bind_gets. unfold bind at 1.
  pose proof (remove_loop_only_trace w "raster" (rm_rasters s1) s1) as H2.
  destruct (for_each (rm_rasters s1) _ s1) as [[[] | msg | e] s2]; simpl in H2;
    try (simpl; rewrite (proj1 H2); exact (proj1 H1)).
  assert (Ht : TGTGISRC s2 = None).
  { destruct H1 as (_ & _ & _ & _ & _ & T1 & _).
    destruct H2 as (_ & _ & _ & _ & _ & T2 & _). congruence. }
  rewrite bind_gets, Ht. simpl truthy. cbv iota. rewrite bind_ret.
  match goal with
  | |- GISRC (snd (?T s2)) = _ =>
      assert (Hk : steps (same GISRC) T)
        by (steps_tac ltac:(let s := fresh "s" in intro s; reflexivity));
      specialize (Hk s2); unfold same in Hk; rewrite Hk
  end.
  rewrite (proj1 H2). exact (proj1 H1).
Qed.

(** However [main] ends, a [cleanup] that completes leaves the process at
    the [GISRC] the run started with. *)
Theorem script_restores_context :
  forall w opts g s2,
    g <> "" ->
    cleanup w (snd (main w opts (initial_state g))) = (Ok tt, s2) ->
    GISRC s2 = g.
Proof.
  intros w opts g s2 Hg Hc.
  destruct (main_context w opts (initial_state g)) as [[Ht Hs] | Ht]; simpl in Ht.
  - pose proof (cleanup_keeps_unset w _ Ht) as Hk. rewrite Hc in Hk. simpl in Hk.
    rewrite Hk. exact Hs.
  - apply cleanup_restores in Hc.
    + rewrite Hc, Ht. reflexivity.
    + rewrite Ht. simpl. apply negb_true_iff. apply String.eqb_neq. exact Hg.
Qed.

Lemma script_restores_context_witness :
  exists s2,
    cleanup Sample.madrid
      (snd (main Sample.madrid Sample.july (initial_state "/home/u/.grassrc"))) =
      (Ok tt, s2) /\
    GISRC s2 = "/home/u/.grassrc".
Proof.
  eexists. split; [vm_compute; reflexivity |].
  apply (script_restores_context Sample.madrid Sample.july "/home/u/.grassrc").
  - discriminate.
  - vm_compute. reflexivity.
Defined.

(** ** The names of the imported rasters *)

Section NameFacts.

#[local] Arguments Ascii.eqb : simpl never.

Lemma has_char_app c (a b : string) :
  PyStr.has_char c (a ++ b) = PyStr.has_char c a || PyStr.has_char c b.
Proof.
  induction a as [| x a IH]; simpl; [reflexivity |].
  rewrite IH. apply orb_assoc.
Qed.

Lemma replace_char_removes (a b : ascii) (s : string) :
  a <> b -> PyStr.has_char a (PyStr.replace_char a b s) = false.
Proof.
  intro Hab. induction s as [| c s IH]; simpl; [reflexivity |].
  rewrite IH, orb_false_r.
  destruct (Ascii.eqb_spec c a) as [-> | Hca].
  - apply Ascii.eqb_neq. exact Hab.
  - apply Ascii.eqb_neq. congruence.
Qed.

Lemma replace_char_keeps_out (c a b : ascii) (s : string) :
  c <> b -> PyStr.has_char c s = false ->
  PyStr.has_char c (PyStr.replace_char a b s) = false.
Proof.
  intros Hcb. induction s as [| x s IH]; simpl; [reflexivity |].
  intro H. apply orb_false_iff in H. destruct H as [Hx Hs].
  rewrite (IH Hs), orb_false_r.
  destruct (Ascii.eqb x a); [apply Ascii.eqb_neq; exact Hcb | exact Hx].
Qed.

(** The pieces of a split at slashes hold no slash, and hold no other
    character that the string did not hold. *)
Lemma split_slash_pieces (c : ascii) (s cur piece : string) :
  (c = "/"%char \/ PyStr.has_char c s = false) ->
  PyStr.has_char c cur = false ->
  In piece (PyStr.split_aux "/" 0 cur s) ->
  PyStr.has_char c piece = false.
Proof.
  revert cur. induction s as [| x s IH]; intros cur Hs Hcur Hin.
  - simpl in Hin. destruct Hin as [<- | []]. exact Hcur.
  - cbn [PyStr.split_aux PyStr.startswith] in Hin. rewrite andb_true_r in Hin.
    assert (Hs' : c = "/"%char \/ PyStr.has_char c s = false).
    { destruct Hs as [Hs | Hs]; [left; exact Hs | right].
      simpl in Hs. apply orb_false_iff in Hs. exact (proj2 Hs). }
    destruct (Ascii.eqb_spec "/" x) as [<- | Hx].
    + simpl in Hin. destruct Hin as [<- | Hin]; [exact Hcur |].
      apply (IH "" Hs' eq_refl Hin).
    + apply (IH (cur ++ String x "") Hs'); [| exact Hin].
      rewrite has_char_app, Hcur. simpl. rewrite orb_false_r.
      destruct Hs as [-> | Hs].
      * apply Ascii.eqb_neq. exact Hx.
      * simpl in Hs. apply orb_false_iff in Hs. exact (proj1 Hs).
Qed.

Lemma split_aux_not_nil sep skip cur s : PyStr.split_aux sep skip cur s <> [].
Proof.
  revert skip cur. induction s as [| x s IH]; intros skip cur; simpl.
  - discriminate.
  - destruct skip; [| apply IH].
    destruct (PyStr.startswith (String x s) sep); [discriminate | apply IH].
Qed.

Lemma last_In {A : Type} (l : list A) (d : A) : l <> [] -> In (last l d) l.
Proof.
  induction l as [| a l IH]; intro H; [contradiction |].
  destruct l as [| b l]; [left; reflexivity |].
  right. apply IH. discriminate.
Qed.

(** The name of an imported raster holds neither a hyphen nor a slash,
    whatever the file is called. *)
Theorem raster_name_safe :
  forall scene_path scene_datetime ram band filename,
    let p := make_paramdict scene_path scene_datetime ram band filename in
    PyStr.has_char "-" (p_name p) = false /\
    PyStr.has_char "/" (p_name p) = false /\
    p_input p = OsPath.join scene_path [filename] /\
    p_semantic_label p = band /\ p_memory p = ram.
Proof.
  intros scene_path scene_datetime ram band filename p. subst p.
  unfold make_paramdict. simpl p_name.
  set (stem := PyStr.replace_char "-" "_" (fst (OsPath.splitext filename))).
  assert (Hin : In (last (PyStr.split "/" stem) "") (PyStr.split "/" stem)).
  { apply last_In. apply split_aux_not_nil. }
  unfold PyStr.split in *.
  split; [| split; [| repeat split]].
  - apply (split_slash_pieces "-" stem "" _); [right | reflexivity | exact Hin].
    apply replace_char_removes. discriminate.
  - apply (split_slash_pieces "/" stem "" _); [left; reflexivity | reflexivity | exact Hin].
Qed.

End NameFacts.

(** ** Which file stands for a band *)

Lemma dict_get_set_same {V : Type} k (v : V) d : dict_get k (dict_set k v d) = Some v.
Proof.
  induction d as [| [a b] d IH]; simpl.
  - rewrite String.eqb_refl. reflexivity.
  - destruct (String.eqb k a) eqn:E; simpl; rewrite ?E, ?String.eqb_refl; auto.
Qed.

Lemma dict_get_set_other {V : Type} k k' (v : V) d :
  k' <> k -> dict_get k' (dict_set k v d) = dict_get k' d.
Proof.
  intro Hne. induction d as [| [a b] d IH]; simpl.
  - apply String.eqb_neq in Hne. rewrite Hne. reflexivity.
  - destruct (String.eqb_spec k a) as [-> | Hka]; simpl.
    + apply String.eqb_neq in Hne. rewrite Hne. reflexivity.
    + destruct (String.eqb k' a); [reflexivity | exact IH].
Qed.

Lemma find_last {A : Type} (p : A -> bool) (l : list A) (a : A) :
  find p (rev (a :: l)) =
  match find p (rev l) with
  | Some x => Some x
  | None => if p a then Some a else None
  end.
Proof.
  simpl. generalize (rev l) as r. induction r as [| x r IH]; simpl.
  - reflexivity.
  - destruct (p x); [reflexivity | exact IH].
Qed.

Lemma pick_band_lookup file_ending bandname files :
  forall band_paths,
    dict_get bandname (pick_band file_ending bandname files band_paths) =
      match find (PyStr.contains file_ending) (rev files) with
      | Some file => Some file
      | None => dict_get bandname band_paths
      end /\
    (forall other, other <> bandname ->
       dict_get other (pick_band file_ending bandname files band_paths) =
       dict_get other band_paths).
Proof.
  unfold pick_band.
  induction files as [| f files IH]; intro bp.
  - simpl. split; [reflexivity | reflexivity].
  - cbn [fold_left].
    destruct (IH (if PyStr.contains file_ending f then dict_set bandname f bp else bp))
      as [Hget Hother].
    split.
    + rewrite Hget, find_last.
      destruct (find (PyStr.contains file_ending) (rev files)); [reflexivity |].
      destruct (PyStr.contains file_ending f); [apply dict_get_set_same | reflexivity].
    + intros other Hne. rewrite (Hother other Hne).
      destruct (PyStr.contains file_ending f);
        [apply dict_get_set_other; exact Hne | reflexivity].
Qed.

(** The same for the cloud mask, whose path is written with the
    directory of the masks in front. *)
Lemma pick_mask_lookup file_ending bandname clm_dir files :
  forall band_paths,
    dict_get bandname (pick_mask file_ending bandname clm_dir files band_paths) =
      match find (PyStr.contains file_ending) (rev files) with
      | Some file => Some (OsPath.join clm_dir [file])
      | None => dict_get bandname band_paths
      end /\
    (forall other, other <> bandname ->
       dict_get other (pick_mask file_ending bandname clm_dir files band_paths) =
       dict_get other band_paths).
Proof.
  unfold pick_mask.
  induction files as [| f files IH]; intro bp.
  - simpl. split; [reflexivity | reflexivity].
  - cbn [fold_left].
    destruct (IH (if PyStr.contains file_ending f
                  then dict_set bandname (OsPath.join clm_dir [f]) bp else bp))
      as [Hget Hother].
    split.
    + rewrite Hget, find_last.
      destruct (find (PyStr.contains file_ending) (rev files)); [reflexivity |].
      destruct (PyStr.contains file_ending f); [apply dict_get_set_same | reflexivity].
    + intros other Hne. rewrite (Hother other Hne).
      destruct (PyStr.contains file_ending f);
        [apply dict_get_set_other; exact Hne | reflexivity].
Qed.

(** For a band, the browser keeps the last file of the listing whose
    name contains the ending; when no file does, the band keeps what it
    had (nothing, in a fresh scene), and no other band is touched. *)
Theorem pick_band_last_match :
  forall file_ending bandname files band_paths,
    dict_get bandname (pick_band file_ending bandname files band_paths) =
      match find (PyStr.contains file_ending) (rev files) with
      | Some file => Some file
      | None => dict_get bandname band_paths
      end /\
    (forall other, other <> bandname ->
       dict_get other (pick_band file_ending bandname files band_paths) =
       dict_get other band_paths).
Proof.
  intros file_ending bandname files band_paths.
  exact (pick_band_lookup file_ending bandname files band_paths).
Qed.

(** ** The pool *)

(** One task that does not come to its end makes the whole import
    fail: when the importer's output of a task is no UTF-8, or its
    labelling fails, the pool hands back no result list, whatever the
    other tasks did. *)
Theorem import_parallel_one_failure :
  forall w tasks n s t,
    1 <= n ->
    In t tasks ->
    decodes w (GISRC s) t = false \/
    w_module w (GISRC s) "r.semantic.label" (label_args t) = None ->
    forall results, fst (import_parallel w tasks n s) <> Ok results.
Proof.
  intros w tasks n s t Hn Hin Hfail results Hok.
  rewrite (import_parallel_run w tasks n s Hn) in Hok. cbn [fst] in Hok.
  apply collect_Ok in Hok. rewrite map_map in Hok.
  assert (Hall : forall l out,
             Forall2 (fun (r : result import_dict_t) a => r = Ok a)
                     (map (fun x => fst (import_raster w (GISRC s) x)) l) out ->
             forall t, In t l -> exists r, fst (import_raster w (GISRC s) t) = Ok r).
  { clear. induction l as [| x l IH]; intros out HF t Hin; [destruct Hin |].
    inversion HF as [| a b l1 l2 Hab HF']. subst.
    destruct Hin as [<- | Hin]; [exists b; exact Hab | exact (IH _ HF' t Hin)]. }
  destruct (Hall tasks results Hok t Hin) as [r Hr].
  destruct (import_raster_Ok_needs w (GISRC s) t r Hr) as [Hd Hl].
  destruct Hfail as [Hf | Hf]; [congruence | exact (Hl Hf)].
Qed.

Lemma import_parallel_one_failure_witness :
  fst (import_parallel (with_failing Sample.bonn "r.semantic.label")
         [sample_task; sample_task] 2 (initial_state "rc")) <> Ok [].
Proof.
  apply (import_parallel_one_failure (with_failing Sample.bonn "r.semantic.label")
           [sample_task; sample_task] 2 (initial_state "rc") sample_task).
  - lia.
  - left. reflexivity.
  - right. reflexivity.
Defined.

(** ** The temporary location *)

Lemma bind_Fatal {A B : Type} (c : M A) (k : A -> M B) s msg s2 :
  bind c k s = (Fatal msg, s2) ->
  c s = (Fatal msg, s2) \/ exists a s1, c s = (Ok a, s1) /\ k a s1 = (Fatal msg, s2).
Proof.
  unfold bind. destruct (c s) as [[a | m | e] s1]; intro H.
  - right. exists a, s1. split; [reflexivity | exact H].
  - left. inversion H. reflexivity.
  - discriminate H.
Qed.

Lemma parse_command_not_Fatal w prog args s msg s' :
  parse_command w prog args s <> (Fatal msg, s').
Proof.
  unfold parse_command, bind, gets, emit, modify, ret, of_option, raise. simpl.
  destruct (w_module w (GISRC s) prog args); discriminate.
Qed.

Lemma run_command_not_Fatal w prog args s msg s' :
  run_command w prog args s <> (Fatal msg, s').
Proof.
  unfold run_command, parse_command, bind, gets, emit, modify, ret, of_option, raise. simpl.
  destruct (w_module w (GISRC s) prog args); discriminate.
Qed.

Lemma reported_epsg_run proj s r s' :
  reported_epsg proj s = (r, s') ->
  s' = s /\ (forall msg, r <> Fatal msg) /\
  (forall code, r = Ok code -> reported_code proj = Some code).
Proof.
  unfold reported_epsg, reported_code, of_option, bind, ret, raise.
  destruct (dict_has "epsg" proj).
  - destruct (dict_get "epsg" proj); intro H; inversion H; subst;
      (split; [reflexivity | split; [discriminate | intros code Hc; congruence]]).
  - destruct (dict_get "srid" proj) as [srid |].
    + destruct (nth_error (PyStr.split "EPSG:" srid) 1); intro H; inversion H; subst;
        (split; [reflexivity | split; [discriminate | intros code Hc; congruence]]).
    + intro H; inversion H; subst.
      split; [reflexivity | split; [discriminate | intros code Hc; congruence]].
Qed.

(** [createTMPlocation] returns only when [g.proj -g], run in the new
    location, reports the requested EPSG code. *)
Theorem createTMPlocation_verified :
  forall w epsg s u s',
    createTMPlocation w epsg s = (Ok u, s') ->
    exists proj,
      w_module w (w_tempfile w (tmp_count s)) "g.proj" [("flags", "g")] = Some proj /\
      reported_code proj = Some (PyInt.str epsg).
Proof.
  intros w epsg s u s'. unfold createTMPlocation. intro H.
  do 9 (ok_step H).
  clear Hs. ok_step H. simpl GISRC in Hs. exists a1. split; [exact Hs |].
  apply bind_Ok in H. destruct H as (code & s1 & Hc & H).
  destruct (reported_epsg_run _ _ _ _ Hc) as (_ & _ & Hcode).
  rewrite (Hcode code eq_refl).
  destruct (String.eqb_spec code (PyInt.str epsg)) as [-> | Hne]; [reflexivity |].
  discriminate H.
Qed.

Lemma createTMPlocation_verified_witness :
  exists proj,
    w_module Sample.bonn (w_tempfile Sample.bonn 0) "g.proj" [("flags", "g")] = Some proj /\
    reported_code proj = Some (PyInt.str 4326).
Proof.
  eapply (createTMPlocation_verified Sample.bonn 4326 (initial_state "rc")).
  vm_compute. reflexivity.
Defined.

Lemma createTMPlocation_fatal_run w epsg s msg s' :
  createTMPlocation w epsg s = (Fatal msg, s') ->
  msg = location_failed /\
  GISRC s' = w_tempfile w (tmp_count s) /\
  exists proj code,
    w_module w (w_tempfile w (tmp_count s)) "g.proj" [("flags", "g")] = Some proj /\
    reported_code proj = Some code /\ code <> PyInt.str epsg.
Proof.
  unfold createTMPlocation. intro H.
  autorewrite with run in H.
  apply bind_Fatal in H. destruct H as [H | (proj0 & s1 & Hp0 & H)];
    [exfalso; exact (parse_command_not_Fatal _ _ _ _ _ _ H) |].
  apply parse_command_Ok in Hp0. destruct Hp0 as [-> Hp0].
  cbv zeta in H. autorewrite with run in H.
  apply bind_Fatal in H. destruct H as [H | (u1 & s2 & Hr & H)];
    [exfalso; exact (run_command_not_Fatal _ _ _ _ _ _ H) |].
  apply run_command_Ok in Hr. subst s2.
  autorewrite with run in H.
  apply bind_Fatal in H. destruct H as [H | (proj & s3 & Hp & H)];
    [exfalso; exact (parse_command_not_Fatal _ _ _ _ _ _ H) |].
  apply parse_command_Ok in Hp. destruct Hp as [-> Hp]. simpl GISRC in Hp.
  apply bind_Fatal in H. destruct H as [H | (code & s4 & Hc & H)].
  - destruct (reported_epsg_run _ _ _ _ H) as (_ & Hnf & _).
    exfalso. exact (Hnf msg eq_refl).
  - destruct (reported_epsg_run _ _ _ _ Hc) as (-> & _ & Hcode).
    destruct (String.eqb code (PyInt.str epsg)) eqn:E; [discriminate H |].
    apply String.eqb_neq in E.
    simpl in H. unfold fatal in H. inversion H. subst.
    split; [reflexivity |]. split; [reflexivity |].
    exists proj, code. split; [exact Hp |]. split; [apply Hcode; reflexivity | exact E].
Qed.

(** [createTMPlocation] ends in a fatal error only when the new location
    reports another code: the message is the one of the source, and the
    script is by then inside the new location. *)
Theorem createTMPlocation_fatal :
  forall w epsg s msg s',
    createTMPlocation w epsg s = (Fatal msg, s') ->
    msg = location_failed /\
    GISRC s' = w_tempfile w (tmp_count s) /\
    exists proj code,
      w_module w (w_tempfile w (tmp_count s)) "g.proj" [("flags", "g")] = Some proj /\
      reported_code proj = Some code /\ code <> PyInt.str epsg.
Proof.
  intros w epsg s msg s' H. exact (createTMPlocation_fatal_run w epsg s msg s' H).
Qed.

Lemma createTMPlocation_fatal_witness :
  exists proj code,
    w_module Sample.bonn (w_tempfile Sample.bonn 0) "g.proj" [("flags", "g")] = Some proj /\
    reported_code proj = Some code /\ code <> PyInt.str 25832.
Proof.
  destruct (createTMPlocation Sample.bonn 25832 (initial_state "rc")) as [r s'] eqn:E.
  assert (Hr : r = Fatal location_failed).
  { apply (f_equal fst) in E. vm_compute in E. symmetry. exact E. }
  subst r.
  exact (proj2 (proj2 (createTMPlocation_fatal Sample.bonn 25832 (initial_state "rc")
                         location_failed s' E))).
Defined.

(** ** The default number of processes on a single core *)

Lemma test_nprocs_memory_cores w opts s n ram s' :
  test_nprocs_memory w opts s = (Ok (n, ram), s') ->
  exists requested,
    PyInt.int (opt_nprocs opts) = Some requested /\
    n = (if requested =? -2 then w_cpu_count w - 1 else w_cpu_count w).
Proof.
  unfold test_nprocs_memory. intro H.
  apply bind_Ok in H. destruct H as (requested & s1 & Hreq & H).
  exists requested. split.
  - destruct (PyInt.int (opt_nprocs opts)) as [r |]; simpl in Hreq; inversion Hreq.
    reflexivity.
  - apply bind_Ok in H. destruct H as (real & s2 & Hreal & H).
    assert (Hn : real = (if requested =? -2 then w_cpu_count w - 1 else w_cpu_count w)).
    { destruct (requested =? -2).
      - cbv in Hreal. inversion Hreal. reflexivity.
      - autorewrite with run in Hreal. cbv zeta in Hreal.
        apply bind_Ok in Hreal. destruct Hreal as (u & s3 & _ & Hreal).
        inversion Hreal. reflexivity. }
    apply bind_Ok in H. destruct H as (memory & s3 & _ & H).
    apply bind_Ok in H. destruct H as (free & s4 & _ & H).
    destruct (free <? memory).
    + autorewrite with run in H. cbv zeta in H. inversion H. subst. reflexivity.
    + cbv zeta in H. inversion H. subst. reflexivity.
Qed.

(** Started with [nprocs=-2] on a machine with one core, the script
    never completes: the number of processes comes out as zero and the
    memory is divided by it. *)
Theorem main_single_core :
  forall w opts s,
    w_cpu_count w = 1 ->
    PyInt.int (opt_nprocs opts) = Some (-2) ->
    forall u, fst (main w opts s) <> Ok u.
Proof.
  intros w opts s Hcpu Hreq u Hmain.
  destruct (main w opts s) as [r s'] eqn:H. simpl in Hmain. subst r.
  unfold main in H. cbv zeta in H.
  apply bind_Ok in H. destruct H as ([start_date end_date] & s1 & _ & H).
  apply bind_Ok in H. destruct H as (u1 & s2 & _ & H).
  apply bind_Ok in H. destruct H as (scenes & s3 & _ & H).
  apply bind_Ok in H. destruct H as (scenes_to_import & s4 & _ & H).
  apply bind_Ok in H. destruct H as (u2 & s5 & _ & H).
  apply bind_Ok in H. destruct H as ([nprocs used_ram] & s6 & Hneg & H).
  apply test_nprocs_memory_cores in Hneg. destruct Hneg as (requested & Hr & Hn).
  rewrite Hreq in Hr. inversion Hr. subst requested. simpl in Hn. rewrite Hcpu in Hn.
  simpl in Hn. subst nprocs.
  apply bind_Ok in H. destruct H as (u3 & s7 & Hz & _).
  discriminate Hz.
Qed.

Lemma main_single_core_witness :
  fst (main (Sample.the_world ["32ULB"] 1) Sample.july (initial_state "rc")) <> Ok tt.
Proof.
  apply (main_single_core (Sample.the_world ["32ULB"] 1) Sample.july (initial_state "rc"));
    reflexivity.
Defined.

(** With one core and the default, a run that gets as far as the
    negotiation ends in a division by zero before anything is imported. *)
Lemma main_single_core_sample :
  fst (main (Sample.the_world ["32ULB"] 1) Sample.july (initial_state "rc")) =
  Raise ZeroDivisionError.
Proof. vm_compute. reflexivity. Qed.

(** ** The traversal of the archive, further *)

(** Every round of a loop that completes has completed. *)
Lemma for_fold_each {A B : Type} (body : B -> A -> M B) (l : list A) :
  forall acc s acc' s',
    for_fold l acc body s = (Ok acc', s') ->
    forall x, In x l -> exists a t a' t', body a x t = (Ok a', t').
Proof.
  induction l as [| y l IH]; intros acc s acc' s' H x Hin; [destruct Hin |].
  simpl in H. apply bind_Ok in H. destruct H as (acc1 & s1 & H1 & H).
  destruct Hin as [<- | Hin].
  - exists acc, s, acc1, s1. exact H1.
  - exact (IH _ _ _ _ H x Hin).
Qed.

(** What holds of the accumulator of a loop before, and is kept by every
    round, holds after. *)
Lemma for_fold_inv {A B : Type} (P : B -> Prop) (body : B -> A -> M B) (l : list A) :
  (forall x acc s acc' s', In x l -> P acc -> body acc x s = (Ok acc', s') -> P acc') ->
  forall acc s acc' s',
    P acc -> for_fold l acc body s = (Ok acc', s') -> P acc'.
Proof.
  induction l as [| y l IH]; intros Hb acc s acc' s' HP H; simpl in H.
  - inversion H. subst. exact HP.
  - apply bind_Ok in H. destruct H as (acc1 & s1 & H1 & H).
    apply (IH (fun x a t a' t' Hx => Hb x a t a' t' (or_intror Hx)) acc1 s1 acc' s'); [| exact H].
    exact (Hb y acc s acc1 s1 (or_introl eq_refl) HP H1).
Qed.

Section Days.
Variable w : world.
Variable collection file_format clm_dir : string.
Variable tiles : option (list string).
Variable bfs : list (string * string).
Variable base : string.
Variables start_date end_date : date.

Lemma browse_day_dated y m d acc s acc' s' :
  browse_day w collection file_format clm_dir tiles bfs
    (OsPath.join base [y; m]) y m d start_date end_date acc s = (Ok acc', s') ->
  exists fd, folder_date y m d = Some fd.
Proof.
  unfold browse_day, folder_date. intro H.
  apply bind_Ok in H. destruct H as (a & s1 & Ha & H).
  apply of_option_Ok in Ha. destruct Ha as [-> ->].
  apply bind_Ok in H. destruct H as (b & s1 & Hb & H).
  apply of_option_Ok in Hb. destruct Hb as [-> ->].
  apply bind_Ok in H. destruct H as (c & s1 & Hc & H).
  apply of_option_Ok in Hc. destruct Hc as [-> ->].
  apply bind_Ok in H. destruct H as (fd & s1 & Hfd & H).
  apply of_option_Ok in Hfd. destruct Hfd as [-> ->].
  exists fd. reflexivity.
Qed.

Lemma browse_archive_days s scenes s' :
  browse_archive w collection file_format clm_dir tiles bfs base
    start_date end_date s = (Ok scenes, s') ->
  forall y m d,
    In y (dir w base []) -> In m (dir w base [y]) -> In d (dir w base [y; m]) ->
    exists fd, folder_date y m d = Some fd.
Proof.
  unfold browse_archive. intros H y m d Hy Hm Hd.
  apply bind_Ok in H. destruct H as (years & s1 & Hl & H).
  apply listdir_Ok in Hl. destruct Hl as [-> Hdir].
  unfold dir in Hy. change (OsPath.join base []) with base in Hy. rewrite Hdir in Hy.
  destruct (for_fold_each _ _ _ _ _ _ H y Hy) as (a1 & t1 & a1' & t1' & Hyear).
  clear H. unfold browse_year in Hyear.
  apply bind_Ok in Hyear. destruct Hyear as (months & s2 & Hl & H).
  apply listdir_Ok in Hl. destruct Hl as [-> Hdir2].
  unfold dir in Hm. rewrite Hdir2 in Hm.
  destruct (for_fold_each _ _ _ _ _ _ H m Hm) as (a2 & t2 & a2' & t2' & Hmonth).
  clear H. unfold browse_month in Hmonth. cbv zeta in Hmonth.
  apply bind_Ok in Hmonth. destruct Hmonth as (days & s3 & Hl & H).
  apply listdir_Ok in Hl. destruct Hl as [-> Hdir3].
  unfold dir in Hd. rewrite Hdir3 in Hd.
  destruct (for_fold_each _ _ _ _ _ _ H d Hd) as (a3 & t3 & a3' & t3' & Hday).
  exact (browse_day_dated y m d _ _ _ _ Hday).
Qed.

End Days.

(** The browser reads the name of every day directory of the archive as
    a date, inside the range or not: one entry of a month directory
    that, with its month and year, is written in ASCII and spells no
    date, and no manifest is returned. *)
Theorem browse_stray_day :
  forall w opts collection bands mountpoint start_date end_date s y m d,
    let base := OsPath.join mountpoint [basepath maja] in
    In y (dir w base []) -> In m (dir w base [y]) -> In d (dir w base [y; m]) ->
    is_ascii y = true -> is_ascii m = true -> is_ascii d = true ->
    folder_date y m d = None ->
    forall scenes,
      fst (browse_eolab_collection w opts collection bands mountpoint
             start_date end_date s) <> Ok scenes.
Proof.
  intros w opts collection bands mountpoint start_date end_date s y m d base
         Hy Hm Hd _ _ _ Hnone scenes Hok.
  destruct (browse_eolab_collection w opts collection bands mountpoint
              start_date end_date s) as [r s'] eqn:H.
  simpl in Hok. subst r.
  apply browse_anatomy in H. destruct H as (-> & tiles & s1 & _ & Ha).
  destruct (browse_archive_days _ _ _ _ _ _ _ _ _ _ _ _ Ha y m d Hy Hm Hd) as [fd Hfd].
  fold base in Hfd. congruence.
Qed.

Lemma browse_stray_day_witness :
  fst (browse_eolab_collection
         (with_listing Sample.bonn (Sample.base ++ "/2022/07") ["01"; "02"; "notes"])
         Sample.july "S2-L2A-MAJA" ["S2_B4"] "/codede"
         (mkdate 2022 7 1) (mkdate 2022 7 2) (initial_state "rc")) <> Ok [].
Proof.
  refine (browse_stray_day
           (with_listing Sample.bonn (Sample.base ++ "/2022/07") ["01"; "02"; "notes"])
           Sample.july "S2-L2A-MAJA" ["S2_B4"] "/codede"
           (mkdate 2022 7 1) (mkdate 2022 7 2) (initial_state "rc")
           "2022" "07" "notes" _ _ _ _ _ _ _ []).
  - vm_compute. left. reflexivity.
  - vm_compute. left. reflexivity.
  - vm_compute. right. right. left. reflexivity.
  - reflexivity.
  - reflexivity.
  - reflexivity.
  - vm_compute. reflexivity.
Defined.

(** *** The time stamps of the manifest and the tasks of the import *)

Section Dates.
Variable w : world.
Variable file_format clm_dir : string.
Variable tiles : option (list string).
Variable bfs : list (string * string).
Variable base : string.
Variables start_date end_date : date.

Lemma browse_scene_dated day_path sc s x s' :
  browse_scene w "S2-L2A-MAJA" file_format clm_dir bfs day_path sc s = (Ok x, s') ->
  dated x.
Proof.
  unfold browse_scene. cbv zeta. intro H.
  apply bind_Ok in H. destruct H as (items & s1 & _ & H).
  change (String.eqb "S2-L2A-MAJA" "S2-L2A-MAJA") with true in H. cbv iota in H.
  apply bind_Ok in H. destruct H as (t & s2 & Ht & H).
  apply of_option_Ok in Ht. destruct Ht as [Ht ->].
  apply bind_Ok in H. destruct H as (bp & s3 & _ & H).
  inversion H. subst. exists t. split; [reflexivity | exact Ht].
Qed.

Lemma browse_candidate_dated day_path acc sc s acc' s' :
  Forall dated acc ->
  browse_candidate w "S2-L2A-MAJA" file_format clm_dir tiles bfs day_path acc sc s =
    (Ok acc', s') ->
  Forall dated acc'.
Proof.
  unfold browse_candidate. intros HP H.
  apply bind_Ok in H. destruct H as (tl & s1 & _ & H).
  destruct (existsb (fun tile => PyStr.contains tile sc) tl).
  - apply bind_Ok in H. destruct H as (x & s2 & Hx & H).
    inversion H. subst. apply Forall_app. split; [exact HP |].
    constructor; [| constructor]. exact (browse_scene_dated _ _ _ _ _ Hx).
  - inversion H. subst. exact HP.
Qed.

Lemma browse_day_keeps_dated month_path y m d acc s acc' s' :
  Forall dated acc ->
  browse_day w "S2-L2A-MAJA" file_format clm_dir tiles bfs month_path y m d
    start_date end_date acc s = (Ok acc', s') ->
  Forall dated acc'.
Proof.
  unfold browse_day. intros HP H.
  apply bind_Ok in H. destruct H as (a & s1 & _ & H).
  apply bind_Ok in H. destruct H as (b & s2 & _ & H).
  apply bind_Ok in H. destruct H as (c & s3 & _ & H).
  apply bind_Ok in H. destruct H as (fd & s4 & _ & H).
  destruct (PyDate.ge fd start_date && PyDate.lt fd end_date).
  - cbv zeta in H. apply bind_Ok in H. destruct H as (scenes & s5 & _ & H).
    apply (for_fold_inv (Forall dated)) in H; [exact H | | exact HP].
    intros sc a0 t a' t' _ Ha Hc. exact (browse_candidate_dated _ _ _ _ _ _ Ha Hc).
  - inversion H. subst. exact HP.
Qed.

Lemma browse_archive_dated s scenes s' :
  browse_archive w "S2-L2A-MAJA" file_format clm_dir tiles bfs base
    start_date end_date s = (Ok scenes, s') ->
  Forall dated scenes.
Proof.
  unfold browse_archive. intro H.
  apply bind_Ok in H. destruct H as (years & s1 & _ & H).
  apply (for_fold_inv (Forall dated)) in H; [exact H | | constructor].
  intros y a1 t1 a1' t1' _ HP1 Hy. unfold browse_year in Hy.
  apply bind_Ok in Hy. destruct Hy as (months & s2 & _ & Hy).
  apply (for_fold_inv (Forall dated)) in Hy; [exact Hy | | exact HP1].
  intros m a2 t2 a2' t2' _ HP2 Hm. unfold browse_month in Hm. cbv zeta in Hm.
  apply bind_Ok in Hm. destruct Hm as (days & s3 & _ & Hm).
  apply (for_fold_inv (Forall dated)) in Hm; [exact Hm | | exact HP2].
  intros d a3 t3 a3' t3' _ HP3 Hd.
  exact (browse_day_keeps_dated _ _ _ _ _ _ _ _ HP3 Hd).
Qed.

End Dates.

Lemma band_tasks_append scene_path t ram (l : list (string * string)) :
  forall acc,
    fold_left (fun acc '(band, filename) =>
                 (acc ++ [make_paramdict scene_path t ram band filename])%list) l acc =
    (acc ++ map (fun '(band, filename) => make_paramdict scene_path t ram band filename) l)%list.
Proof.
  induction l as [| [band filename] l IH]; intro acc; simpl.
  - symmetry. apply app_nil_r.
  - rewrite IH, <- app_assoc. reflexivity.
Qed.

Lemma build_import_list_dated ram scenes :
  Forall dated scenes ->
  forall acc s,
    for_fold scenes acc
      (fun acc scene_dict =>
         scene_datetime <- of_option (sd_datetime scene_dict) (KeyError "datetime") ;;
         ret (fold_left
                (fun acc '(band, filename) =>
                   (acc ++ [make_paramdict (sd_path scene_dict) scene_datetime
                              ram band filename])%list)
                (sd_band_paths scene_dict) acc))%script s =
    (Ok (acc ++ flat_map (tasks_of ram) scenes)%list, s).
Proof.
  induction 1 as [| x scenes Hx HF IH]; intros acc s.
  - simpl. rewrite app_nil_r. reflexivity.
  - cbn [for_fold flat_map]. destruct Hx as (t & Ht & _).
    unfold tasks_of at 1. rewrite Ht.
    unfold bind at 1. unfold bind at 1. simpl of_option. unfold ret at 1. cbv beta iota.
    unfold ret at 1. cbv beta iota.
    rewrite IH, band_tasks_append, <- app_assoc. reflexivity.
Qed.

(** Every entry of a manifest the browser returns carries the time stamp
    that the second and third field of its name spell; so the loop of
    [main] that builds the import tasks never misses a time stamp, and
    gives one task for each band path of each entry, in the order of the
    manifest. *)
Theorem manifest_gives_tasks :
  forall w opts collection bands mountpoint start_date end_date s scenes s',
    browse_eolab_collection w opts collection bands mountpoint start_date end_date s =
      (Ok scenes, s') ->
    Forall dated scenes /\
    forall ram t,
      build_import_list scenes ram t = (Ok (flat_map (tasks_of ram) scenes), t) /\
      length (flat_map (tasks_of ram) scenes) =
        list_sum (map (fun x => length (sd_band_paths x)) scenes).
Proof.
  intros w opts collection bands mountpoint start_date end_date s scenes s' H.
  apply browse_anatomy in H. destruct H as (-> & tiles & s1 & _ & Ha).
  apply browse_archive_dated in Ha. split; [exact Ha |].
  intros ram t. split.
  - unfold build_import_list. rewrite (build_import_list_dated ram scenes Ha [] t).
    reflexivity.
  - clear - Ha. induction Ha as [| x scenes Hx HF IH]; [reflexivity |].
    cbn [flat_map map]. change (list_sum (?a :: ?l)) with (a + list_sum l)%nat.
    rewrite length_app, IH. f_equal.
    destruct Hx as (t & Ht & _). unfold tasks_of. rewrite Ht. apply length_map.
Qed.

Lemma manifest_gives_tasks_witness :
  exists scenes,
    scenes <> [] /\ Forall dated scenes /\
    build_import_list scenes 100 (initial_state "rc") =
      (Ok (flat_map (tasks_of 100) scenes), initial_state "rc").
Proof.
  destruct (browse_eolab_collection Sample.bonn Sample.july "S2-L2A-MAJA"
              ["S2_B4"; "S2_CLM"] "/codede" (mkdate 2022 7 1) (mkdate 2022 7 15)
              (initial_state "rc")) as [r s'] eqn:E.
  destruct r as [scenes | msg | e];
    [| apply (f_equal fst) in E; vm_compute in E; discriminate E
     | apply (f_equal fst) in E; vm_compute in E; discriminate E].
  exists scenes.
  destruct (manifest_gives_tasks Sample.bonn Sample.july "S2-L2A-MAJA"
              ["S2_B4"; "S2_CLM"] "/codede" (mkdate 2022 7 1) (mkdate 2022 7 15)
              (initial_state "rc") scenes s' E) as [Hd Ht].
  split; [| split; [exact Hd | exact (proj1 (Ht 100 (initial_state "rc")))]].
  intro Hnil. subst scenes. apply (f_equal fst) in E. vm_compute in E. discriminate E.
Defined.

(** *** The order of the manifest *)

Lemma Forall2_map_eq {A B C : Type} (R : A -> B -> Prop) (f : A -> C) (g : B -> C) l1 l2 :
  (forall a b, R a b -> f a = g b) -> Forall2 R l1 l2 -> map f l1 = map g l2.
Proof.
  intros Hfg HF. induction HF as [| a b l1 l2 Hab HF IH]; simpl; [reflexivity |].
  rewrite (Hfg a b Hab), IH. reflexivity.
Qed.

(** The manifest holds the scene directories in the order of the
    directory listings, years outermost, one entry for every listed
    name that qualifies. *)
Theorem manifest_in_listing_order :
  forall w opts collection bands mountpoint start_date end_date s scenes s',
    browse_eolab_collection w opts collection bands mountpoint start_date end_date s =
      (Ok scenes, s') ->
    let base := OsPath.join mountpoint [basepath maja] in
    exists tiles s1,
      get_utmcells w opts s = (Ok tiles, s1) /\
      map sd_path scenes =
        map (OsPath.join base) (archive_scenes w base tiles start_date end_date) /\
      map sd_scene scenes =
        map (fun cs => last cs "") (archive_scenes w base tiles start_date end_date).
Proof.
  intros w opts collection bands mountpoint start_date end_date s scenes s' H base.
  apply browse_Ok in H. destruct H as (tiles & s1 & Ht & HF & _).
  exists tiles, s1. split; [exact Ht |]. fold base in HF. split.
  - apply (Forall2_map_eq _ _ _ _ _ (fun a b Hab => proj1 (proj1 Hab)) HF).
  - apply (Forall2_map_eq _ _ _ _ _ (fun a b Hab => eq_sym (proj2 (proj1 Hab))) HF).
Qed.

Lemma manifest_in_listing_order_witness :
  exists scenes,
    map sd_scene scenes = [Sample.scene_a; Sample.scene_c].
Proof.
  destruct (browse_eolab_collection Sample.bonn Sample.july "S2-L2A-MAJA"
              ["S2_B4"] "/codede" (mkdate 2022 7 1) (mkdate 2022 7 15)
              (initial_state "rc")) as [r s'] eqn:E.
  destruct r as [scenes | msg | e];
    [| apply (f_equal fst) in E; vm_compute in E; discriminate E
     | apply (f_equal fst) in E; vm_compute in E; discriminate E].
  exists scenes.
  destruct (manifest_in_listing_order Sample.bonn Sample.july "S2-L2A-MAJA"
              ["S2_B4"] "/codede" (mkdate 2022 7 1) (mkdate 2022 7 15)
              (initial_state "rc") scenes s' E) as (tiles & s1 & Ht & _ & Hn).
  rewrite Hn. apply (f_equal fst) in Ht. vm_compute in Ht. inversion Ht. subst tiles.
  vm_compute. reflexivity.
Defined.

(** *** A range of no days *)

Lemma flat_map_nil {A B : Type} (f : A -> list B) (l : list A) :
  (forall x, In x l -> f x = []) -> flat_map f l = [].
Proof.
  induction l as [| x l IH]; intro H; simpl; [reflexivity |].
  rewrite (H x (or_introl eq_refl)), IH; [reflexivity |].
  intros y Hy. apply H. right. exact Hy.
Qed.

Lemma in_range_same d x : in_range d d x = false.
Proof. unfold in_range, PyDate.ge. apply andb_negb_l. Qed.

Lemma archive_scenes_same w base tiles d : archive_scenes w base tiles d d = [].
Proof.
  unfold archive_scenes.
  apply flat_map_nil. intros y _. apply flat_map_nil. intros m _.
  apply flat_map_nil. intros dd _. unfold day_scenes, day_qualifies.
  destruct (folder_date y m dd); [rewrite in_range_same |]; reflexivity.
Qed.

(** A start and an end on the same day pass the validation, and then
    nothing can be found: the browser returns an empty manifest, and
    [main] ends with the fatal error for no scenes. *)
Theorem same_day_finds_nothing :
  forall w opts s d s1 scenes s2,
    check_start_end w (opt_start opts) (opt_end opts) s = (Ok (d, d), s1) ->
    opt_archive opts = "eolab" ->
    browse_eolab_collection w opts (opt_collection opts)
      (PyStr.split "," (opt_bands opts)) (opt_mountpoint opts) d d
      (add_event (EvMessage "Filtering available scenes...") s1) = (Ok scenes, s2) ->
    scenes = [] /\ main w opts s = (Fatal no_scenes_message, s2).
Proof.
  intros w opts s d s1 scenes s2 Hc Harch Hb.
  assert (Hnil : scenes = []).
  { pose proof Hb as H. apply browse_Ok in H. destruct H as (tiles & s0 & _ & HF & _).
    rewrite archive_scenes_same in HF. inversion HF. reflexivity. }
  split; [exact Hnil |]. subst scenes.
  unfold main. cbv zeta. rewrite (bind_run _ _ _ _ _ Hc). cbv beta iota.
  rewrite bind_emit, Harch. change (String.eqb "eolab" "eolab") with true. cbv iota.
  erewrite bind_run; [| erewrite bind_run; [reflexivity | exact Hb]].
  reflexivity.
Qed.

Lemma same_day_finds_nothing_witness :
  fst (main Sample.bonn (Sample.the_options "2022-07-01" "2022-07-01" "2")
         (initial_state "rc")) = Fatal no_scenes_message.
Proof.
  pose (opts := Sample.the_options "2022-07-01" "2022-07-01" "2").
  destruct (check_start_end Sample.bonn (opt_start opts) (opt_end opts)
              (initial_state "rc")) as [r1 s1] eqn:E1.
  assert (H1 : r1 = Ok (mkdate 2022 7 1, mkdate 2022 7 1) /\ s1 = initial_state "rc").
  { apply (f_equal (fun p => (fst p, snd p))) in E1. vm_compute in E1.
    inversion E1. split; reflexivity. }
  destruct H1 as [-> ->].
  destruct (browse_eolab_collection Sample.bonn opts (opt_collection opts)
              (PyStr.split "," (opt_bands opts)) (opt_mountpoint opts)
              (mkdate 2022 7 1) (mkdate 2022 7 1)
              (add_event (EvMessage "Filtering available scenes...") (initial_state "rc")))
    as [r2 s2] eqn:E2.
  destruct r2 as [scenes | msg | e];
    [| apply (f_equal fst) in E2; vm_compute in E2; discriminate E2
     | apply (f_equal fst) in E2; vm_compute in E2; discriminate E2].
  exact (f_equal fst
           (proj2 (same_day_finds_nothing Sample.bonn opts (initial_state "rc")
                     (mkdate 2022 7 1) (initial_state "rc") scenes s2 E1 eq_refl E2))).
Defined.

(** ** The fatal errors of the script *)

Section FatalOnly.
Variable P : string -> Prop.

Lemma fatal_only_bind {A B : Type} (c : M A) (k : A -> M B) :
  fatal_only P c -> (forall a, fatal_only P (k a)) -> fatal_only P (bind c k).
Proof.
  intros Hc Hk s msg s' H. apply bind_Fatal in H.
  destruct H as [H | (a & s1 & _ & H)].
  - exact (Hc s msg s' H).
  - exact (Hk a s1 msg s' H).
Qed.

Lemma fatal_only_ret {A : Type} (a : A) : fatal_only P (ret a).
Proof. intros s msg s' H. discriminate H. Qed.

Lemma fatal_only_gets {A : Type} (f : state -> A) : fatal_only P (gets f).
Proof. intros s msg s' H. discriminate H. Qed.

Lemma fatal_only_modify f : fatal_only P (modify f).
Proof. intros s msg s' H. discriminate H. Qed.

Lemma fatal_only_emit e : fatal_only P (emit e).
Proof. intros s msg s' H. discriminate H. Qed.

Lemma fatal_only_raise {A : Type} e : fatal_only P (@raise A e).
Proof. intros s msg s' H. discriminate H. Qed.

Lemma fatal_only_of_option {A : Type} (o : option A) e : fatal_only P (of_option o e).
Proof. intros s msg s' H. destruct o; discriminate H. Qed.

Lemma fatal_only_fatal {A : Type} msg : P msg -> fatal_only P (@fatal A msg).
Proof. intros HP s m s' H. inversion H. subst. exact HP. Qed.

Lemma fatal_only_for_each {A : Type} (l : list A) (body : A -> M unit) :
  (forall x, fatal_only P (body x)) -> fatal_only P (for_each l body).
Proof.
  intro Hb. induction l as [| x l IH]; simpl.
  - apply fatal_only_ret.
  - apply fatal_only_bind; [apply Hb | intros _; exact IH].
Qed.

Lemma fatal_only_for_fold {A B : Type} (l : list A) (body : B -> A -> M B) :
  (forall acc x, fatal_only P (body acc x)) ->
  forall acc, fatal_only P (for_fold l acc body).
Proof.
  intro Hb. induction l as [| x l IH]; intro acc; simpl.
  - apply fatal_only_ret.
  - apply fatal_only_bind; [apply Hb | intro a; apply IH].
Qed.

Lemma fatal_only_parse_command w prog args : fatal_only P (parse_command w prog args).
Proof. intros s msg s' H. exact (False_ind _ (parse_command_not_Fatal _ _ _ _ _ _ H)). Qed.

Lemma fatal_only_run_command w prog args : fatal_only P (run_command w prog args).
Proof. intros s msg s' H. exact (False_ind _ (run_command_not_Fatal _ _ _ _ _ _ H)). Qed.

End FatalOnly.

(** Break a goal [fatal_only P c] down along the structure of [c];
    [prim] closes the steps that can end in a fatal error. *)
Ltac fatal_tac prim :=
  repeat first
    [ prim
    | apply fatal_only_ret
    | apply fatal_only_gets
    | apply fatal_only_modify
    | apply fatal_only_emit
    | apply fatal_only_raise
    | apply fatal_only_of_option
    | apply fatal_only_parse_command
    | apply fatal_only_run_command
    | apply fatal_only_bind; [| intro]
    | apply fatal_only_for_each; intro
    | apply fatal_only_for_fold; intros ? ?
    | match goal with
      | |- fatal_only _ (if ?b then _ else _) => destruct b
      | |- fatal_only _ (match ?x with _ => _ end) => destruct x
      end ].

Lemma check_start_end_fatal w start end_ :
  fatal_only script_fatal (check_start_end w start end_).
Proof.
  unfold check_start_end, int_list, date_of_list.
  fatal_tac ltac:(apply fatal_only_fatal; unfold script_fatal;
                  first [ left; eexists; reflexivity
                        | right; left; reflexivity
                        | right; right; left; reflexivity ]).
Qed.

Lemma createTMPlocation_fatal_only w epsg :
  fatal_only script_fatal (createTMPlocation w epsg).
Proof.
  intros s msg s' H. apply createTMPlocation_fatal_run in H.
  rewrite (proj1 H). unfold script_fatal. right. right. right. left. reflexivity.
Qed.

Lemma browse_fatal_only w opts collection bands mountpoint sd ed :
  fatal_only script_fatal
    (browse_eolab_collection w opts collection bands mountpoint sd ed).
Proof.
  unfold browse_eolab_collection, browse_archive, browse_year, browse_month,
    browse_day, browse_candidate, browse_scene, browse_band, listdir,
    get_utmcells, get_actual_location.
  fatal_tac ltac:(apply createTMPlocation_fatal_only).
Qed.

Lemma collect_not_Fatal {A : Type} (l : list (result A)) :
  (forall r, In r l -> forall m, r <> Fatal m) -> forall msg, collect l <> Fatal msg.
Proof.
  induction l as [| r l IH]; intros H msg Hc; simpl in Hc; [discriminate Hc |].
  destruct r as [a | m | e].
  - destruct (collect l) as [l' | m' | e'] eqn:E.
    + discriminate Hc.
    + exact (IH (fun r Hr => H r (or_intror Hr)) m' eq_refl).
    + discriminate Hc.
  - exact (H (Fatal m) (or_introl eq_refl) m eq_refl).
  - discriminate Hc.
Qed.

Lemma import_raster_not_Fatal w g p m : fst (import_raster w g p) <> Fatal m.
Proof.
  destruct (import_raster_cases w g p) as [[_ ->] | [_ ->]]; cbn [fst]; [discriminate |].
  destruct (w_module w g "r.semantic.label" _); discriminate.
Qed.

Lemma import_parallel_fatal_only (P : string -> Prop) w tasks n :
  fatal_only P (import_parallel w tasks n).
Proof.
  unfold import_parallel.
  destruct (n <? 1); [apply fatal_only_raise |].
  intros s msg s' H. exfalso.
  unfold bind, gets, emit, modify in H. simpl in H. inversion H as [[Hc Hs]].
  revert Hc. apply collect_not_Fatal.
  intros r Hin m. rewrite map_map in Hin. apply in_map_iff in Hin.
  destruct Hin as (t & <- & _). apply import_raster_not_Fatal.
Qed.

Lemma test_nprocs_memory_fatal_only (P : string -> Prop) w opts :
  fatal_only P (test_nprocs_memory w opts).
Proof.
  unfold test_nprocs_memory, freeRAM.
  change (String.eqb "MB" "MB") with true. cbv iota zeta.
  fatal_tac fail.
Qed.

Lemma main_fatal_only w opts : fatal_only script_fatal (main w opts).
Proof.
  unfold main, build_import_list, write_registration, register_item, tempfile.
  cbv zeta.
  fatal_tac ltac:(first [ apply check_start_end_fatal
                        | apply browse_fatal_only
                        | apply test_nprocs_memory_fatal_only
                        | apply import_parallel_fatal_only
                        | apply fatal_only_fatal; unfold script_fatal;
                          right; right; right; right; reflexivity ]).
Qed.

Lemma cleanup_fatal_only (P : string -> Prop) w : fatal_only P (cleanup w).
Proof.
  unfold cleanup. fatal_tac fail.
Qed.

(** The script ends in a fatal error for five reasons only: a start or
    end that makes no date, an end before July 2015, an end before the
    start, a temporary location that reports another EPSG code, and an
    empty manifest. *)
Theorem script_fatal_errors :
  forall w opts s msg s',
    main w opts s = (Fatal msg, s') -> script_fatal msg.
Proof.
  intros w opts s msg s' H. exact (main_fatal_only w opts s msg s' H).
Qed.

Lemma script_fatal_errors_witness : script_fatal no_scenes_message.
Proof.
  destruct (main Sample.bonn (Sample.the_options "2022-07-01" "2022-07-01" "2")
              (initial_state "rc")) as [r s'] eqn:E.
  assert (Hr : r = Fatal no_scenes_message).
  { apply (f_equal fst) in E. vm_compute in E. symmetry. exact E. }
  subst r.
  exact (script_fatal_errors Sample.bonn (Sample.the_options "2022-07-01" "2022-07-01" "2")
           (initial_state "rc") no_scenes_message s' E).
Defined.

(** The teardown never ends in a fatal error. *)
Lemma cleanup_not_fatal w s msg s' : cleanup w s <> (Fatal msg, s').
Proof.
  intro H. exact (cleanup_fatal_only (fun _ => False) w s msg s' H).
Qed.

(** ** Where the tiles come from *)

(** The tiles that [get_utmcells] returns are the keys of what
    [v.db.select] prints in the temporary location, in its order; the
    grid was fetched there with the address and layer of the options,
    and the region vector was reprojected from the location and mapset
    the script was started in. *)
Theorem get_utmcells_tiles :
  forall w opts s tiles s',
    get_utmcells w opts s = (Ok tiles, s') ->
    let tmp := w_tempfile w (tmp_count s) in
    let region := "tmp_region_utmgrid_" ++ PyInt.str (w_getpid w) in
    (exists sel,
       w_module w tmp "v.db.select"
         [("map", "tmp_s2tiles_area"); ("column", "name"); ("flags", "c")] = Some sel /\
       tiles = map fst sel) /\
    In (EvModule tmp "v.in.wfs"
          [("url", opt_wfs_mgrs opts); ("output", "tmp_s2tiles_area");
           ("srs", "4326"); ("name", opt_wfs_name opts);
           ("flags", "r"); ("quiet", "True")]) (trace s') /\
    In (EvModule tmp "v.proj"
          [("location", LOCATION_NAME (w_gisenv w (GISRC s)));
           ("mapset", MAPSET (w_gisenv w (GISRC s)));
           ("input", region); ("output", region); ("quiet", "True")]) (trace s').
Proof.
  intros w opts s tiles s' H tmp region. unfold get_utmcells in H.
  do 4 (ok_step H). cbv beta iota in H.
  ok_step H. apply createTMPlocation_switches in Hs. simpl in Hs.
  ok_step H. ok_step H. ok_step H.
  apply bind_Ok in H. destruct H as (sel & s4 & Hsel & H).
  apply parse_command_Ok in Hsel. destruct Hsel as [-> Hsel].
  simpl GISRC in Hsel. rewrite Hs in Hsel.
  ok_step H. ok_step H. inversion H. subst tiles s'. clear H.
  split; [exists sel; split; [exact Hsel | reflexivity] |].
  simpl trace. rewrite Hs. fold tmp.
  split.
  - apply in_or_app. left. apply in_or_app. right. left. reflexivity.
  - apply in_or_app. left. apply in_or_app. left. apply in_or_app. left.
    apply in_or_app. right. left. reflexivity.
Qed.

Lemma get_utmcells_tiles_witness :
  exists sel,
    w_module Sample.bonn (w_tempfile Sample.bonn 0) "v.db.select"
      [("map", "tmp_s2tiles_area"); ("column", "name"); ("flags", "c")] = Some sel /\
    ["32ULB"] = map fst sel.
Proof.
  destruct (get_utmcells Sample.bonn Sample.july (initial_state "rc")) as [r s'] eqn:E.
  assert (Hr : r = Ok ["32ULB"]).
  { apply (f_equal fst) in E. vm_compute in E. symmetry. exact E. }
  subst r.
  exact (proj1 (get_utmcells_tiles Sample.bonn Sample.july (initial_state "rc")
                  ["32ULB"] s' E)).
Defined.

(** ** The bands that are searched *)

Lemma dict_set_fresh {V : Type} k (v : V) d :
  ~ In k (map fst d) -> dict_set k v d = (d ++ [(k, v)])%list.
Proof.
  induction d as [| [a b] d IH]; intro H; simpl; [reflexivity |].
  destruct (String.eqb_spec k a) as [-> | Hne].
  - exfalso. apply H. left. reflexivity.
  - rewrite IH; [reflexivity |]. intro Hin. apply H. right. exact Hin.
Qed.

Lemma requested_suffixes_from bands (table : list (string * string)) :
  NoDup (map snd table) ->
  forall acc,
    (forall row, In row table -> ~ In (snd row) (map fst acc)) ->
    fold_left (fun d '(key, value) =>
                 if str_in_list key bands then dict_set value key d else d)
              table acc =
    (acc ++ requested_rows table bands)%list.
Proof.
  unfold requested_rows.
  induction table as [| [key value] table IH]; intros Hnd acc Hacc; simpl.
  - symmetry. apply app_nil_r.
  - inversion Hnd as [| x l Hx Hnd']. subst.
    destruct (str_in_list key bands) eqn:E.
    + rewrite dict_set_fresh; [| exact (Hacc (key, value) (or_introl eq_refl))].
      rewrite IH; [simpl; rewrite <- app_assoc; reflexivity | exact Hnd' |].
      intros row Hrow Hin. rewrite map_app in Hin. apply in_app_or in Hin.
      destruct Hin as [Hin | [Heq | []]].
      * exact (Hacc row (or_intror Hrow) Hin).
      * simpl in Heq. apply Hx. rewrite Heq. apply in_map. exact Hrow.
    + apply IH; [exact Hnd' |].
      intros row Hrow. exact (Hacc row (or_intror Hrow)).
Qed.

(** The bands that the browser looks for are the rows of the collection
    table whose band name was asked for, in the order of the table: a
    name that the table does not hold is passed over without a word, and
    the order and the repetitions of the request do not matter. *)
Theorem requested_suffixes_rows :
  forall table bands,
    NoDup (map snd table) ->
    requested_suffixes table bands = requested_rows table bands.
Proof.
  intros table bands Hnd. unfold requested_suffixes.
  rewrite (requested_suffixes_from bands table Hnd []); [reflexivity |].
  intros row _ Hin. exact Hin.
Qed.

Lemma requested_suffixes_rows_witness :
  requested_suffixes (bands_filesuffixes maja) ["S2_CLM"; "S2_B99"; "S2_B8"; "S2_B8"] =
  [("FRE_B8", "S2_B8"); ("CLM_R1", "S2_CLM")].
Proof.
  rewrite (requested_suffixes_rows (bands_filesuffixes maja)
             ["S2_CLM"; "S2_B99"; "S2_B8"; "S2_B8"]).
  - reflexivity.
  - simpl. repeat (constructor; [simpl; intuition discriminate |]). constructor.
Defined.

(** ** The band paths of a manifest entry *)

Lemma dict_set_keys {V : Type} k (v : V) d :
  NoDup (map fst d) -> NoDup (map fst (dict_set k v d)).
Proof.
  induction d as [| [a b] d IH]; intro H; simpl.
  - constructor; [intros [] | constructor].
  - inversion H as [| x l Hx Hnd]. subst.
    destruct (String.eqb_spec k a) as [-> | Hne]; simpl.
    + exact H.
    + constructor; [| exact (IH Hnd)].
      intro Hin. apply in_map_iff in Hin. destruct Hin as ([k' v'] & Hk & Hin).
      simpl in Hk. subst k'. apply dict_set_in in Hin.
      destruct Hin as [Heq | Hold].
      * inversion Heq. subst. apply Hne. reflexivity.
      * apply Hx. apply in_map_iff. exists (a, v'). split; [reflexivity | exact Hold].
Qed.

Lemma band_step_keys files masks bp entry :
  NoDup (map fst bp) -> NoDup (map fst (band_step files masks bp entry)).
Proof.
  unfold band_step, pick_band, pick_mask.
  destruct (negb (String.eqb (snd entry) "S2_CLM")).
  - revert bp. induction files as [| f files IH]; intros bp H; simpl; [exact H |].
    apply IH. destruct (PyStr.contains (fst entry ++ ".tif") f);
      [apply dict_set_keys; exact H | exact H].
  - revert bp. induction masks as [| f masks IH]; intros bp H; simpl; [exact H |].
    apply IH. destruct (PyStr.contains (fst entry ++ ".tif") f);
      [apply dict_set_keys; exact H | exact H].
Qed.

Lemma band_fold_keys files masks bfs :
  forall bp, NoDup (map fst bp) ->
             NoDup (map fst (fold_left (band_step files masks) bfs bp)).
Proof.
  induction bfs as [| entry bfs IH]; intros bp H; simpl; [exact H |].
  apply IH. apply band_step_keys. exact H.
Qed.

(** What a round leaves for its own band, and that it leaves the other
    bands alone *)
Lemma band_step_lookup files masks bp suffix band :
  dict_get band (band_step files masks bp (suffix, band)) =
    (if String.eqb band "S2_CLM"
     then match find (PyStr.contains (suffix ++ ".tif")) (rev masks) with
          | Some file => Some (OsPath.join "MASKS" [file])
          | None => dict_get band bp
          end
     else match find (PyStr.contains (suffix ++ ".tif")) (rev files) with
          | Some file => Some file
          | None => dict_get band bp
          end) /\
  (forall other, other <> band ->
     dict_get other (band_step files masks bp (suffix, band)) = dict_get other bp).
Proof.
  unfold band_step. cbn [fst snd].
  destruct (String.eqb band "S2_CLM"); cbn [negb]; cbv iota.
  - exact (pick_mask_lookup (suffix ++ ".tif") band "MASKS" masks bp).
  - exact (pick_band_lookup (suffix ++ ".tif") band files bp).
Qed.

Lemma band_fold_other files masks bfs band :
  ~ In band (map snd bfs) ->
  forall bp, dict_get band (fold_left (band_step files masks) bfs bp) = dict_get band bp.
Proof.
  induction bfs as [| [s0 b0] bfs IH]; intros Hn bp; simpl; [reflexivity |].
  rewrite IH; [| intro Hin; apply Hn; right; exact Hin].
  apply (proj2 (band_step_lookup files masks bp s0 b0)).
  intro Heq. apply Hn. left. symmetry. exact Heq.
Qed.

Lemma band_fold_lookup files masks bfs :
  NoDup (map snd bfs) ->
  forall bp suffix band,
    In (suffix, band) bfs ->
    dict_get band (fold_left (band_step files masks) bfs bp) =
      (if String.eqb band "S2_CLM"
       then match find (PyStr.contains (suffix ++ ".tif")) (rev masks) with
            | Some file => Some (OsPath.join "MASKS" [file])
            | None => dict_get band bp
            end
       else match find (PyStr.contains (suffix ++ ".tif")) (rev files) with
            | Some file => Some file
            | None => dict_get band bp
            end).
Proof.
  induction bfs as [| [s0 b0] bfs IH]; intros Hnd bp suffix band Hin; [destruct Hin |].
  simpl in Hnd. inversion Hnd as [| x l Hx Hnd']. subst.
  cbn [fold_left]. destruct Hin as [Heq | Hin].
  - inversion Heq. subst s0 b0.
    rewrite (band_fold_other files masks bfs band Hx).
    exact (proj1 (band_step_lookup files masks bp suffix band)).
  - rewrite (IH Hnd' _ suffix band Hin).
    assert (Hne : band <> b0).
    { intro Heq. subst b0. apply Hx. apply in_map_iff.
      exists (suffix, band). split; [reflexivity | exact Hin]. }
    rewrite (proj2 (band_step_lookup files masks bp s0 b0) band Hne). reflexivity.
Qed.

Lemma NoDup_map_filter {A B : Type} (f : A -> B) (p : A -> bool) (l : list A) :
  NoDup (map f l) -> NoDup (map f (filter p l)).
Proof.
  induction l as [| a l IH]; intro H; simpl; [constructor |].
  inversion H as [| x l' Hx Hnd]. subst.
  destruct (p a); simpl; [| exact (IH Hnd)].
  constructor; [| exact (IH Hnd)].
  intro Hin. apply Hx. apply in_map_iff in Hin. destruct Hin as (y & Hy & Hin).
  apply filter_In in Hin. apply in_map_iff. exists y. split; [exact Hy | exact (proj1 Hin)].
Qed.

Lemma maja_suffixes_differ : NoDup (map snd (bands_filesuffixes maja)).
Proof. simpl. repeat (constructor; [simpl; intuition discriminate |]). constructor. Qed.

Lemma maja_bands_differ : NoDup (map fst (bands_filesuffixes maja)).
Proof. simpl. repeat (constructor; [simpl; intuition discriminate |]). constructor. Qed.

(** The requested bands of the one collection: the rows asked for, no
    band twice *)
Lemma maja_requested bands :
  let bfs := requested_suffixes (bands_filesuffixes maja) bands in
  NoDup (map snd bfs) /\
  forall band suffix,
    In (band, suffix) (bands_filesuffixes maja) -> str_in_list band bands = true ->
    In (suffix, band) bfs.
Proof.
  intro bfs. subst bfs. unfold requested_suffixes.
  rewrite (requested_suffixes_from bands _ maja_suffixes_differ []);
    [| intros row _ Hin; exact Hin].
  cbn [app]. unfold requested_rows. split.
  - rewrite map_map. cbn [snd]. apply NoDup_map_filter. exact maja_bands_differ.
  - intros band suffix Hin Hreq. apply in_map_iff. exists (band, suffix).
    split; [reflexivity |]. apply filter_In. split; [exact Hin | exact Hreq].
Qed.

(** C3. In a manifest, for every requested band other than the cloud
    mask the path recorded is the last file of the scene directory, among
    those ending in [.tif], whose name contains the band's suffix
    followed by [.tif], and nothing is recorded when there is none; so a
    file of band 8A is not taken for band 8.  For the cloud mask the
    path recorded is the last such file of the [MASKS] directory of the
    scene, written with [MASKS/] in front.  Nothing else is recorded,
    and no band twice. *)
Theorem C3_band_paths :
  forall w opts collection bands mountpoint start_date end_date s scenes s' x,
    wf_listings w ->
    browse_eolab_collection w opts collection bands mountpoint start_date end_date s =
      (Ok scenes, s') ->
    In x scenes ->
    (forall band path,
       In (band, path) (sd_band_paths x) ->
       exists suffix,
         In (band, suffix) (bands_filesuffixes maja) /\
         str_in_list band bands = true /\
         (band <> "S2_CLM" ->
          (exists l, w_listdir w (sd_path x) = Some l /\ In path l) /\
          PyStr.endswith path ".tif" = true /\
          PyStr.contains (suffix ++ ".tif") path = true) /\
         (band = "S2_CLM" ->
          exists file,
            path = "MASKS/" ++ file /\
            (exists l, w_listdir w (OsPath.join (sd_path x) ["MASKS"]) = Some l /\
                       In file l) /\
            PyStr.contains "CLM_R1.tif" file = true) /\
         (band = "S2_B8" ->
          PyStr.contains "FRE_B8.tif" path = true /\
          forall p, PyStr.contains "FRE_B8.tif" p = false -> path <> p ++ "FRE_B8A.tif")) /\
    (exists files,
       w_listdir w (sd_path x) = Some files /\
       forall band suffix,
         In (band, suffix) (bands_filesuffixes maja) ->
         str_in_list band bands = true ->
         (band <> "S2_CLM" ->
          dict_get band (sd_band_paths x) =
            find (PyStr.contains (suffix ++ ".tif"))
                 (rev (filter (fun file => PyStr.endswith file ".tif") files))) /\
         (band = "S2_CLM" ->
          exists masks,
            w_listdir w (OsPath.join (sd_path x) ["MASKS"]) = Some masks /\
            dict_get band (sd_band_paths x) =
              option_map (fun file => "MASKS/" ++ file)
                         (find (PyStr.contains "CLM_R1.tif") (rev masks)))) /\
    NoDup (map fst (sd_band_paths x)).
Proof.
  intros w opts collection bands mountpoint start_date end_date s scenes s' x Hwf H Hx.
  split; [| split].
  - intros band path Hbp.
    exact (recorded_paths_sound w opts collection bands mountpoint start_date end_date
             s scenes s' x band path Hwf H Hx Hbp).
  - destruct (browse_Ok_exact _ _ _ _ _ _ _ _ _ _ H) as (tiles & s1 & _ & HF & _).
    destruct (Forall2_In_l _ _ _ _ HF Hx) as (cs & _ & [_ Hex]).
    destruct Hex as (files & Hfiles & Hmasks & Hbp).
    destruct (maja_requested bands) as [Hnd Hreq].
    exists files. split; [exact Hfiles |].
    intros band suffix Htab Hb.
    pose proof (band_fold_lookup
                  (filter (fun item => PyStr.endswith item ".tif") files)
                  (dir w (sd_path x) ["MASKS"]) _ Hnd [] suffix band
                  (Hreq band suffix Htab Hb)) as Hl.
    rewrite <- Hbp in Hl. split.
    + intro Hne. apply String.eqb_neq in Hne. rewrite Hne in Hl. rewrite Hl.
      destruct (find _ _); reflexivity.
    + intros ->.
      destruct (suffix_of_band "S2_CLM" suffix Htab) as [Hs _].
      rewrite (Hs eq_refl) in *.
      change (String.eqb "S2_CLM" "S2_CLM") with true in Hl. cbv iota in Hl.
      change ("CLM_R1" ++ ".tif") with "CLM_R1.tif" in Hl.
      destruct (w_listdir w (OsPath.join (sd_path x) ["MASKS"])) as [masks |] eqn:Em.
      * exists masks. split; [reflexivity |].
        unfold dir in Hl. rewrite Em in Hl. rewrite Hl.
        destruct (find (PyStr.contains "CLM_R1.tif") (rev masks)) as [file |] eqn:Ef;
          [| reflexivity].
        apply find_some in Ef. destruct Ef as [Hin _]. apply in_rev in Hin.
        cbn [option_map]. f_equal.
        unfold OsPath.join. cbn [fold_left]. unfold OsPath.join2.
        rewrite (wf_name_no_leading_slash file (Hwf _ _ _ Em Hin)). reflexivity.
      * exfalso. apply Hmasks; [| reflexivity].
        exists "CLM_R1". exact (Hreq "S2_CLM" "CLM_R1" Htab Hb).
  - destruct (browse_Ok_exact _ _ _ _ _ _ _ _ _ _ H) as (tiles & s1 & _ & HF & _).
    destruct (Forall2_In_l _ _ _ _ HF Hx) as (cs & _ & [_ Hex]).
    destruct Hex as (files & _ & _ & Hbp). rewrite Hbp.
    apply band_fold_keys. constructor.
Qed.

Lemma C3_band_paths_witness :
  exists scenes s' x,
    browse_eolab_collection Sample.bonn Sample.july "S2-L2A-MAJA"
      ["S2_B8"; "S2_CLM"] "/codede" (mkdate 2022 7 1) (mkdate 2022 7 15)
      (initial_state "/home/u/.grassrc") = (Ok scenes, s') /\
    In x scenes /\
    dict_get "S2_B8" (sd_band_paths x) = Some (Sample.scene_a ++ "_FRE_B8.tif") /\
    dict_get "S2_CLM" (sd_band_paths x) = Some ("MASKS/" ++ Sample.scene_a ++ "_CLM_R1.tif") /\
    dict_get "S2_B4" (sd_band_paths x) = None.
Proof.
  eexists. eexists. eexists.
  assert (H : browse_eolab_collection Sample.bonn Sample.july "S2-L2A-MAJA"
                ["S2_B8"; "S2_CLM"] "/codede" (mkdate 2022 7 1) (mkdate 2022 7 15)
                (initial_state "/home/u/.grassrc") = (Ok _, _))
    by (vm_compute; reflexivity).
  split; [exact H |].
  match goal with
  | |- In ?x ?l /\ _ => assert (Hx : In x l) by (cbn; left; reflexivity)
  end.
  split; [exact Hx |].
  destruct (C3_band_paths _ _ _ _ _ _ _ _ _ _ _ sample_listings_wf H Hx)
    as (_ & (files & Hfiles & Hrec) & _).
  assert (Hf : files = Sample.files_of Sample.scene_a).
  { vm_compute in Hfiles. inversion Hfiles. reflexivity. }
  subst files. split; [| split].
  - rewrite (proj1 (Hrec "S2_B8" "FRE_B8" ltac:(simpl; auto 20) eq_refl) ltac:(discriminate)).
    vm_compute. reflexivity.
  - destruct (proj2 (Hrec "S2_CLM" "CLM_R1" ltac:(simpl; auto 20) eq_refl) eq_refl)
      as (masks & Hm & Hget).
    rewrite Hget. vm_compute in Hm. inversion Hm. subst masks. vm_compute. reflexivity.
  - vm_compute. reflexivity.
Defined.
